(** * Commission kit: text normalisation, commission parsing, schema
      reconciliation, tiered search and best-match aggregation.

    Shallow embedding of
      - [src/_legacy/utils.py]               (normalize_text,
        parse_commission_to_float, create_search_pattern),
      - [src/_legacy/find_commision_rate.py] (search_products, get_best_match),
      - [src/app.py]                         (_pick_first_present,
        _normalize_to_flat4).

    Conventions.
      - A Python [str] is a list of Unicode code points ([pystr]).
      - The white-space class ([str.strip], [\s]), the decimal digits
        ([\d], [float]) and the word characters ([\w], [\b]) are embedded
        for every code point, from the Unicode 14.0 tables of CPython 3.11.
      - [str.lower] is embedded on the code points U+0000..U+017F (Basic
        Latin, Latin-1 Supplement, Latin Extended-A, which contains every
        Turkish letter); a code point above U+017F is left unchanged by
        [lower_char].  Statements about lower-cased text are about texts of
        that range wherever the case of a letter matters.
      - A Python [float] is embedded as the rational it denotes ([Q]); [NaN]
        is [None].  Rounding is not part of the embedding. *)

From Stdlib Require Import List Bool NArith ZArith QArith Lia.
From Stdlib Require Import Ascii String.
From Stdlib Require Import Permutation Sorted Lqa.
Import ListNotations.

Local Open Scope N_scope.

(* ================================================================== *)
(** ** Python strings *)

Module Py.

Definition char := N.
Definition pystr := list char.

Definition char_eqb (a b : char) : bool := N.eqb a b.

Fixpoint str_eqb (a b : pystr) : bool :=
  match a, b with
  | [], [] => true
  | x :: a', y :: b' => char_eqb x y && str_eqb a' b'
  | _, _ => false
  end.

(** Decoder for string literals: the bytes of a UTF-8 literal are turned
    into code points, so that source literals can be written as they are. *)
Fixpoint utf8_decode (bs : list N) : pystr :=
  match bs with
  | [] => []
  | b1 :: r1 =>
    if b1 <? 0x80 then b1 :: utf8_decode r1
    else match r1 with
    | [] => [b1]
    | b2 :: r2 =>
      if b1 <? 0xE0 then
        ((b1 - 0xC0) * 64 + (b2 - 0x80)) :: utf8_decode r2
      else match r2 with
      | [] => [b1; b2]
      | b3 :: r3 =>
        if b1 <? 0xF0 then
          ((b1 - 0xE0) * 4096 + (b2 - 0x80) * 64 + (b3 - 0x80))
            :: utf8_decode r3
        else match r3 with
        | [] => [b1; b2; b3]
        | b4 :: r4 =>
          ((b1 - 0xF0) * 262144 + (b2 - 0x80) * 4096
             + (b3 - 0x80) * 64 + (b4 - 0x80)) :: utf8_decode r4
        end
      end
    end
  end.

Definition lit (s : string) : pystr :=
  utf8_decode (map N_of_ascii (list_ascii_of_string s)).

(** [str.isspace] on one code point; the regex class [\s] of a [str]
    pattern is the same set. *)
Definition is_space (c : char) : bool :=
  ((0x09 <=? c) && (c <=? 0x0D)) || ((0x1C <=? c) && (c <=? 0x20))
  || (c =? 0x85) || (c =? 0xA0) || (c =? 0x1680)
  || ((0x2000 <=? c) && (c <=? 0x200A))
  || (c =? 0x2028) || (c =? 0x2029) || (c =? 0x202F) || (c =? 0x205F)
  || (c =? 0x3000).

(** [str.lower] on one code point.  U+0130 (capital I with dot above)
    lowers to the two code points U+0069 U+0307. *)
Definition lower_char (c : char) : list char :=
  if (0x41 <=? c) && (c <=? 0x5A) then [c + 32]
  else if (0xC0 <=? c) && (c <=? 0xDE) && negb (c =? 0xD7) then [c + 32]
  else if c =? 0x130 then [0x69; 0x307]
  else if c =? 0x178 then [0xFF]
  else if (((0x100 <=? c) && (c <=? 0x12F))
           || ((0x132 <=? c) && (c <=? 0x137))
           || ((0x14A <=? c) && (c <=? 0x177))) && N.even c then [c + 1]
  else if (((0x139 <=? c) && (c <=? 0x148))
           || ((0x179 <=? c) && (c <=? 0x17E))) && N.odd c then [c + 1]
  else [c].

Definition lower (s : pystr) : pystr := flat_map lower_char s.

Fixpoint lstrip (s : pystr) : pystr :=
  match s with
  | [] => []
  | c :: t => if is_space c then lstrip t else s
  end.

Fixpoint rstrip (s : pystr) : pystr :=
  match s with
  | [] => []
  | c :: t =>
    match rstrip t with
    | [] => if is_space c then [] else [c]
    | t' => c :: t'
    end
  end.

(** [str.strip()] *)
Definition strip (s : pystr) : pystr := rstrip (lstrip s).

(** [str.replace(old, new)] for a one-character [old]. *)
Definition replace_char (old : char) (new : pystr) (s : pystr) : pystr :=
  flat_map (fun c => if char_eqb c old then new else [c]) s.

(** [c in s] for a one-character [c]. *)
Definition contains_char (c : char) (s : pystr) : bool :=
  existsb (char_eqb c) s.

Fixpoint starts_with (p s : pystr) : bool :=
  match p, s with
  | [], _ => true
  | x :: p', y :: s' => char_eqb x y && starts_with p' s'
  | _ :: _, [] => false
  end.

(** [p in s] (substring test). *)
Fixpoint contains (p s : pystr) : bool :=
  starts_with p s ||
  match s with
  | [] => false
  | _ :: s' => contains p s'
  end.

(** [not s] for a string. *)
Definition is_empty (s : pystr) : bool :=
  match s with
  | [] => true
  | _ :: _ => false
  end.

(** [x in [a, b, ...]] for a list of strings. *)
Definition in_strs (x : pystr) (l : list pystr) : bool :=
  existsb (str_eqb x) l.

(** Lexicographic order of [str] (by code point). *)
Fixpoint str_leb (a b : pystr) : bool :=
  match a, b with
  | [], _ => true
  | _ :: _, [] => false
  | x :: a', y :: b' =>
    if x <? y then true else if y <? x then false else str_leb a' b'
  end.

End Py.
Import Py.

(** Python values reaching the text helpers: [None], a missing value
    ([float('nan')], for which [pd.isna] holds), or a value given by its
    [str()] text. *)
Inductive pyval : Type :=
| PyNone
| PyNaN
| PyStr (s : pystr).

(* ================================================================== *)
(** ** utils.normalize_text *)

(** [str.maketrans("ığüşöçİĞÜŞÖÇ", "igusocIGUSOC")] *)
Definition turkish_map : list (char * char) :=
  combine (lit "ığüşöçİĞÜŞÖÇ") (lit "igusocIGUSOC").

Fixpoint translate_char (m : list (char * char)) (c : char) : char :=
  match m with
  | [] => c
  | (k, v) :: m' => if char_eqb c k then v else translate_char m' c
  end.

(** [str.translate] *)
Definition translate (m : list (char * char)) (s : pystr) : pystr :=
  map (translate_char m) s.

Definition starts_with_space (s : pystr) : bool :=
  match s with
  | [] => false
  | c :: _ => is_space c
  end.

(** [re.sub(r"\s+", " ", text)]: every maximal run of white space becomes
    one space. *)
Fixpoint re_sub_ws (s : pystr) : pystr :=
  match s with
  | [] => []
  | c :: t =>
    if is_space c then
      if starts_with_space t then re_sub_ws t else 0x20 :: re_sub_ws t
    else c :: re_sub_ws t
  end.

Definition normalize_text (text : pyval) : pystr :=
  match text with
  | PyNone | PyNaN => []
  | PyStr s =>
    let text := lower (strip s) in
    if in_strs text [lit "nan"; lit "none"; lit ""] then []
    else
      let text := translate turkish_map text in
      re_sub_ws text
  end.

(* ================================================================== *)
(** ** utils.parse_commission_to_float *)

(** The regex class [\d] of a [str] pattern: the decimal digits of every
    script (Unicode category Nd; Unicode 14.0, the tables of CPython 3.11).
    They come in blocks of ten consecutive code points carrying the values
    0 to 9; [decimal_blocks] lists the first code point of each block.
    [float] reads a digit of any block as its value. *)
Definition decimal_blocks : list N :=
  [
   0x30; 0x660; 0x6F0; 0x7C0; 0x966; 0x9E6; 0xA66; 0xAE6;
   0xB66; 0xBE6; 0xC66; 0xCE6; 0xD66; 0xDE6; 0xE50; 0xED0;
   0xF20; 0x1040; 0x1090; 0x17E0; 0x1810; 0x1946; 0x19D0; 0x1A80;
   0x1A90; 0x1B50; 0x1BB0; 0x1C40; 0x1C50; 0xA620; 0xA8D0; 0xA900;
   0xA9D0; 0xA9F0; 0xAA50; 0xABF0; 0xFF10; 0x104A0; 0x10D30; 0x11066;
   0x110F0; 0x11136; 0x111D0; 0x112F0; 0x11450; 0x114D0; 0x11650; 0x116C0;
   0x11730; 0x118E0; 0x11950; 0x11C50; 0x11D50; 0x11DA0; 0x16A60; 0x16AC0;
   0x16B50; 0x1D7CE; 0x1D7D8; 0x1D7E2; 0x1D7EC; 0x1D7F6; 0x1E140; 0x1E2F0;
   0x1E950; 0x1FBF0 ].

Definition digit_value (c : char) : option N :=
  option_map (fun b => c - b)
             (find (fun b => (b <=? c) && (c <=? b + 9)) decimal_blocks).

Definition is_digit (c : char) : bool :=
  match digit_value c with
  | Some _ => true
  | None => false
  end.

Definition c_comma : char := 0x2C.
Definition c_dot : char := 0x2E.

(** The character class [[\d\.,]]. *)
Definition is_run_char (c : char) : bool :=
  is_digit c || char_eqb c c_dot || char_eqb c c_comma.

Fixpoint take_while (f : char -> bool) (s : pystr) : pystr :=
  match s with
  | [] => []
  | c :: t => if f c then c :: take_while f t else []
  end.

Fixpoint drop_while (f : char -> bool) (s : pystr) : pystr :=
  match s with
  | [] => []
  | c :: t => if f c then drop_while f t else s
  end.

(** [numbers = re.findall(r"[\d\.,]+", s)] followed by [numbers[0]];
    [None] when [numbers] is empty. *)
Definition first_run (s : pystr) : option pystr :=
  match drop_while (fun c => negb (is_run_char c)) s with
  | [] => None
  | rest => Some (take_while is_run_char rest)
  end.

Fixpoint digits_value (acc : N) (s : pystr) : option N :=
  match s with
  | [] => Some acc
  | c :: t =>
    match digit_value c with
    | Some d => digits_value (acc * 10 + d) t
    | None => None
    end
  end.

Fixpoint pow10 (n : nat) : positive :=
  match n with
  | O => 1%positive
  | S n' => (10 * pow10 n')%positive
  end.

(** [float(raw)] for a text over digits and dots: digits with at most one
    dot and at least one digit; anything else is a [ValueError] ([None]). *)
Definition py_float (raw : pystr) : option Q :=
  let ip := take_while is_digit raw in
  match drop_while is_digit raw with
  | [] =>
    match ip with
    | [] => None
    | _ => option_map (fun n => (Z.of_N n # 1)%Q) (digits_value 0 ip)
    end
  | c :: fp =>
    if char_eqb c c_dot then
      match ip ++ fp with
      | [] => None
      | ds =>
        option_map
          (fun n => (Z.of_N n # pow10 (List.length fp))%Q)
          (digits_value 0 ds)
      end
    else None
  end.

(** The separator handling of lines 94-99. *)
Definition fix_separators (raw_number : pystr) : pystr :=
  if contains_char c_comma raw_number && contains_char c_dot raw_number then
    replace_char c_comma [c_dot] (replace_char c_dot [] raw_number)
  else if contains_char c_comma raw_number then
    replace_char c_comma [c_dot] raw_number
  else raw_number.

(** What the function writes to the logger. *)
Inductive log_event : Type :=
| LogAnomalous   (* warning "Anormal komisyon degeri" *)
| LogUnparseable (* error "Komisyon degeri parse edilemedi" *).

Definition Qlt_bool (a b : Q) : bool := negb (Qle_bool b a).

(** Lines 105-106: a value in (0, 1] is a fraction and becomes a percentage. *)
Definition scale_correct (result : Q) : Q :=
  if Qlt_bool 0 result && Qle_bool result 1 then (result * 100)%Q
  else result.

Definition parse_commission_to_float (value : pyval)
  : option Q * list log_event :=
  match value with
  | PyNone | PyNaN => (None, [])
  | PyStr s =>
    let value_str := strip s in
    if is_empty value_str
       || in_strs (lower value_str) [lit "nan"; lit "none"; lit ""]
    then (None, [])
    else
      match first_run value_str with
      | None => (None, [])
      | Some raw_number =>
        let raw_number := fix_separators raw_number in
        match py_float raw_number with
        | Some result =>
          let result := scale_correct result in
          if Qle_bool 0 result && Qle_bool result 100
          then (Some result, [])
          else (Some result, [LogAnomalous])
        | None => (None, [LogUnparseable])
        end
      end
  end.

(* ================================================================== *)
(** ** app.py: schema reconciliation (_normalize_to_flat4) *)

(** A rectangular table: column names and rows of cells. *)
Record DataFrame : Type := {
  columns : list pystr;
  rows : list (list pyval)
}.

(** The [columns_candidates] entry of a marketplace. *)
Record Candidates : Type := {
  category : list pystr;
  sub_category : list pystr;
  product_group : list pystr;
  commission : list pystr
}.

(** A row of the four-column table
    [Kategori, Alt Kategori, Urun Grubu, Komisyon_%_KDV_Dahil]. *)
Record Flat4 : Type := {
  Kategori : pystr;
  Alt_Kategori : pystr;
  Urun_Grubu : pystr;
  Komisyon : option Q
}.

(** The two [raise ValueError(...)] sites of [_normalize_to_flat4]. *)
Inductive exn : Type :=
| ValueError_no_product_group (* "Urun Grubu kolonu bulunamadi" *)
| ValueError_no_category      (* "Kategori/Alt Kategori kolonlari bulunamadi." *).

Inductive result (A : Type) : Type :=
| Ok (a : A)
| Raise (e : exn).
Arguments Ok {A} a.
Arguments Raise {A} e.

Definition _pick_first_present (df : DataFrame) (candidates : list pystr)
  : option pystr :=
  find (fun c => in_strs c (columns df)) candidates.

(** [x or ""] *)
Definition or_empty (x : option pystr) : pystr :=
  match x with
  | Some c => c
  | None => []
  end.

(** [a or b] on strings. *)
Definition str_or (a b : pystr) : pystr :=
  if is_empty a then b else a.

Fixpoint index_of (c : pystr) (cols : list pystr) : option nat :=
  match cols with
  | [] => None
  | x :: cols' =>
    if str_eqb c x then Some O else option_map S (index_of c cols')
  end.

(** The cell of [row] under column [col]. *)
Definition cell (df : DataFrame) (col : pystr) (row : list pyval) : pyval :=
  match index_of col (columns df) with
  | Some i => nth i row PyNaN
  | None => PyNaN
  end.

(** [astype(str)] on one cell. *)
Definition astype_str (v : pyval) : pystr :=
  match v with
  | PyNone => lit "None"
  | PyNaN => lit "nan"
  | PyStr s => s
  end.

(** [df[col].astype(str).str.strip()] on one row. *)
Definition text_cell (df : DataFrame) (col : pystr) (row : list pyval)
  : pystr :=
  strip (astype_str (cell df col row)).

(** [re.search(r"(\d+(?:\.\d+)?)", s)] and [float(m.group(1))]. *)
Definition re_search_number (s : pystr) : option Q :=
  match drop_while (fun c => negb (is_digit c)) s with
  | [] => None
  | rest =>
    let ip := take_while is_digit rest in
    match drop_while is_digit rest with
    | c :: after =>
      if char_eqb c c_dot then
        match take_while is_digit after with
        | [] => py_float ip
        | fp => py_float (ip ++ [c_dot] ++ fp)
        end
      else py_float ip
    | [] => py_float ip
    end
  end.

Definition _extract_number (x : pystr) : option Q :=
  let s := replace_char c_comma [c_dot] (strip x) in
  re_search_number s.

Fixpoint insert_sorted (x : Q) (l : list Q) : list Q :=
  match l with
  | [] => [x]
  | y :: l' => if Qle_bool x y then x :: l else y :: insert_sorted x l'
  end.

Definition sort_Q (l : list Q) : list Q := fold_right insert_sorted [] l.

Fixpoint dropna (l : list (option Q)) : list Q :=
  match l with
  | [] => []
  | Some x :: l' => x :: dropna l'
  | None :: l' => dropna l'
  end.

(** [Series.quantile(0.95)] (linear interpolation) over the values that
    are present; [None] for a series without any. *)
Definition quantile95 (ser : list (option Q)) : option Q :=
  match sort_Q (dropna ser) with
  | [] => None
  | (x0 :: _) as xs =>
    let h := (N.of_nat (List.length xs) - 1) * 95 in
    let lo := N.to_nat (h / 100) in
    let fr := (Z.of_N (h mod 100) # 100)%Q in
    let a := nth lo xs x0 in
    let b := nth (S lo) xs a in
    Some (a + fr * (b - a))%Q
  end.

Definition _fix_scale (series : list (option Q)) : list (option Q) :=
  match quantile95 series with
  | Some q =>
    if Qle_bool q 1 then map (option_map (fun x => (x * 100)%Q)) series
    else series
  | None => series
  end.

Definition opt_Q_eqb (a b : option Q) : bool :=
  match a, b with
  | Some x, Some y => Qeq_bool x y
  | None, None => true
  | _, _ => false
  end.

Definition flat4_eqb (a b : Flat4) : bool :=
  str_eqb (Kategori a) (Kategori b)
  && str_eqb (Alt_Kategori a) (Alt_Kategori b)
  && str_eqb (Urun_Grubu a) (Urun_Grubu b)
  && opt_Q_eqb (Komisyon a) (Komisyon b).

(** [DataFrame.drop_duplicates()] (the first of equal rows is kept). *)
Fixpoint drop_duplicates_from (seen : list Flat4) (l : list Flat4)
  : list Flat4 :=
  match l with
  | [] => []
  | r :: l' =>
    if existsb (flat4_eqb r) seen then drop_duplicates_from seen l'
    else r :: drop_duplicates_from (r :: seen) l'
  end.

Definition drop_duplicates (l : list Flat4) : list Flat4 :=
  drop_duplicates_from [] l.

(** The row filter of line 297. *)
Definition keep_row (r : Flat4) : bool :=
  negb (is_empty (Kategori r)) || negb (is_empty (Alt_Kategori r))
  || negb (is_empty (Urun_Grubu r)).

Definition _normalize_to_flat4 (df : DataFrame) (candidates : Candidates)
  : result (list Flat4) :=
  let cat_col := or_empty (_pick_first_present df (category candidates)) in
  let sub_col := or_empty (_pick_first_present df (sub_category candidates)) in
  let grp_col := or_empty (_pick_first_present df (product_group candidates)) in
  let com_col := or_empty (_pick_first_present df (commission candidates)) in
  if is_empty grp_col then Raise ValueError_no_product_group
  else if is_empty cat_col && is_empty sub_col then Raise ValueError_no_category
  else
    let split := negb (is_empty cat_col) && negb (is_empty sub_col)
                 && negb (str_eqb cat_col sub_col) in
    let use_col := str_or cat_col sub_col in
    let vals :=
      if negb (is_empty com_col) then
        _fix_scale
          (map (fun row => _extract_number (astype_str (cell df com_col row)))
               (rows df))
      else map (fun _ => None) (rows df) in
    let out :=
      map (fun rv : list pyval * option Q =>
             let (row, v) := rv in
             if split then
               {| Kategori := text_cell df cat_col row;
                  Alt_Kategori := text_cell df sub_col row;
                  Urun_Grubu := text_cell df grp_col row;
                  Komisyon := v |}
             else
               {| Kategori := text_cell df use_col row;
                  Alt_Kategori := [];
                  Urun_Grubu := text_cell df grp_col row;
                  Komisyon := v |})
          (combine (rows df) vals) in
    let out := filter keep_row out in
    Ok (drop_duplicates out).

(* ================================================================== *)
(** ** utils.create_search_pattern and [Series.str.contains] *)

(** The regex class [\w] of a [str] pattern: the alphanumeric code points
    ([str.isalnum]) and the underscore, as inclusive ranges (Unicode 14.0,
    the tables of CPython 3.11). *)
Definition word_ranges : list (N * N) :=
  [
   (0x30, 0x39); (0x41, 0x5A); (0x5F, 0x5F); (0x61, 0x7A);
   (0xAA, 0xAA); (0xB2, 0xB3); (0xB5, 0xB5); (0xB9, 0xBA);
   (0xBC, 0xBE); (0xC0, 0xD6); (0xD8, 0xF6); (0xF8, 0x2C1);
   (0x2C6, 0x2D1); (0x2E0, 0x2E4); (0x2EC, 0x2EC); (0x2EE, 0x2EE);
   (0x370, 0x374); (0x376, 0x377); (0x37A, 0x37D); (0x37F, 0x37F);
   (0x386, 0x386); (0x388, 0x38A); (0x38C, 0x38C); (0x38E, 0x3A1);
   (0x3A3, 0x3F5); (0x3F7, 0x481); (0x48A, 0x52F); (0x531, 0x556);
   (0x559, 0x559); (0x560, 0x588); (0x5D0, 0x5EA); (0x5EF, 0x5F2);
   (0x620, 0x64A); (0x660, 0x669); (0x66E, 0x66F); (0x671, 0x6D3);
   (0x6D5, 0x6D5); (0x6E5, 0x6E6); (0x6EE, 0x6FC); (0x6FF, 0x6FF);
   (0x710, 0x710); (0x712, 0x72F); (0x74D, 0x7A5); (0x7B1, 0x7B1);
   (0x7C0, 0x7EA); (0x7F4, 0x7F5); (0x7FA, 0x7FA); (0x800, 0x815);
   (0x81A, 0x81A); (0x824, 0x824); (0x828, 0x828); (0x840, 0x858);
   (0x860, 0x86A); (0x870, 0x887); (0x889, 0x88E); (0x8A0, 0x8C9);
   (0x904, 0x939); (0x93D, 0x93D); (0x950, 0x950); (0x958, 0x961);
   (0x966, 0x96F); (0x971, 0x980); (0x985, 0x98C); (0x98F, 0x990);
   (0x993, 0x9A8); (0x9AA, 0x9B0); (0x9B2, 0x9B2); (0x9B6, 0x9B9);
   (0x9BD, 0x9BD); (0x9CE, 0x9CE); (0x9DC, 0x9DD); (0x9DF, 0x9E1);
   (0x9E6, 0x9F1); (0x9F4, 0x9F9); (0x9FC, 0x9FC); (0xA05, 0xA0A);
   (0xA0F, 0xA10); (0xA13, 0xA28); (0xA2A, 0xA30); (0xA32, 0xA33);
   (0xA35, 0xA36); (0xA38, 0xA39); (0xA59, 0xA5C); (0xA5E, 0xA5E);
   (0xA66, 0xA6F); (0xA72, 0xA74); (0xA85, 0xA8D); (0xA8F, 0xA91);
   (0xA93, 0xAA8); (0xAAA, 0xAB0); (0xAB2, 0xAB3); (0xAB5, 0xAB9);
   (0xABD, 0xABD); (0xAD0, 0xAD0); (0xAE0, 0xAE1); (0xAE6, 0xAEF);
   (0xAF9, 0xAF9); (0xB05, 0xB0C); (0xB0F, 0xB10); (0xB13, 0xB28);
   (0xB2A, 0xB30); (0xB32, 0xB33); (0xB35, 0xB39); (0xB3D, 0xB3D);
   (0xB5C, 0xB5D); (0xB5F, 0xB61); (0xB66, 0xB6F); (0xB71, 0xB77);
   (0xB83, 0xB83); (0xB85, 0xB8A); (0xB8E, 0xB90); (0xB92, 0xB95);
   (0xB99, 0xB9A); (0xB9C, 0xB9C); (0xB9E, 0xB9F); (0xBA3, 0xBA4);
   (0xBA8, 0xBAA); (0xBAE, 0xBB9); (0xBD0, 0xBD0); (0xBE6, 0xBF2);
   (0xC05, 0xC0C); (0xC0E, 0xC10); (0xC12, 0xC28); (0xC2A, 0xC39);
   (0xC3D, 0xC3D); (0xC58, 0xC5A); (0xC5D, 0xC5D); (0xC60, 0xC61);
   (0xC66, 0xC6F); (0xC78, 0xC7E); (0xC80, 0xC80); (0xC85, 0xC8C);
   (0xC8E, 0xC90); (0xC92, 0xCA8); (0xCAA, 0xCB3); (0xCB5, 0xCB9);
   (0xCBD, 0xCBD); (0xCDD, 0xCDE); (0xCE0, 0xCE1); (0xCE6, 0xCEF);
   (0xCF1, 0xCF2); (0xD04, 0xD0C); (0xD0E, 0xD10); (0xD12, 0xD3A);
   (0xD3D, 0xD3D); (0xD4E, 0xD4E); (0xD54, 0xD56); (0xD58, 0xD61);
   (0xD66, 0xD78); (0xD7A, 0xD7F); (0xD85, 0xD96); (0xD9A, 0xDB1);
   (0xDB3, 0xDBB); (0xDBD, 0xDBD); (0xDC0, 0xDC6); (0xDE6, 0xDEF);
   (0xE01, 0xE30); (0xE32, 0xE33); (0xE40, 0xE46); (0xE50, 0xE59);
   (0xE81, 0xE82); (0xE84, 0xE84); (0xE86, 0xE8A); (0xE8C, 0xEA3);
   (0xEA5, 0xEA5); (0xEA7, 0xEB0); (0xEB2, 0xEB3); (0xEBD, 0xEBD);
   (0xEC0, 0xEC4); (0xEC6, 0xEC6); (0xED0, 0xED9); (0xEDC, 0xEDF);
   (0xF00, 0xF00); (0xF20, 0xF33); (0xF40, 0xF47); (0xF49, 0xF6C);
   (0xF88, 0xF8C); (0x1000, 0x102A); (0x103F, 0x1049); (0x1050, 0x1055);
   (0x105A, 0x105D); (0x1061, 0x1061); (0x1065, 0x1066); (0x106E, 0x1070);
   (0x1075, 0x1081); (0x108E, 0x108E); (0x1090, 0x1099); (0x10A0, 0x10C5);
   (0x10C7, 0x10C7); (0x10CD, 0x10CD); (0x10D0, 0x10FA); (0x10FC, 0x1248);
   (0x124A, 0x124D); (0x1250, 0x1256); (0x1258, 0x1258); (0x125A, 0x125D);
   (0x1260, 0x1288); (0x128A, 0x128D); (0x1290, 0x12B0); (0x12B2, 0x12B5);
   (0x12B8, 0x12BE); (0x12C0, 0x12C0); (0x12C2, 0x12C5); (0x12C8, 0x12D6);
   (0x12D8, 0x1310); (0x1312, 0x1315); (0x1318, 0x135A); (0x1369, 0x137C);
   (0x1380, 0x138F); (0x13A0, 0x13F5); (0x13F8, 0x13FD); (0x1401, 0x166C);
   (0x166F, 0x167F); (0x1681, 0x169A); (0x16A0, 0x16EA); (0x16EE, 0x16F8);
   (0x1700, 0x1711); (0x171F, 0x1731); (0x1740, 0x1751); (0x1760, 0x176C);
   (0x176E, 0x1770); (0x1780, 0x17B3); (0x17D7, 0x17D7); (0x17DC, 0x17DC);
   (0x17E0, 0x17E9); (0x17F0, 0x17F9); (0x1810, 0x1819); (0x1820, 0x1878);
   (0x1880, 0x1884); (0x1887, 0x18A8); (0x18AA, 0x18AA); (0x18B0, 0x18F5);
   (0x1900, 0x191E); (0x1946, 0x196D); (0x1970, 0x1974); (0x1980, 0x19AB);
   (0x19B0, 0x19C9); (0x19D0, 0x19DA); (0x1A00, 0x1A16); (0x1A20, 0x1A54);
   (0x1A80, 0x1A89); (0x1A90, 0x1A99); (0x1AA7, 0x1AA7); (0x1B05, 0x1B33);
   (0x1B45, 0x1B4C); (0x1B50, 0x1B59); (0x1B83, 0x1BA0); (0x1BAE, 0x1BE5);
   (0x1C00, 0x1C23); (0x1C40, 0x1C49); (0x1C4D, 0x1C7D); (0x1C80, 0x1C88);
   (0x1C90, 0x1CBA); (0x1CBD, 0x1CBF); (0x1CE9, 0x1CEC); (0x1CEE, 0x1CF3);
   (0x1CF5, 0x1CF6); (0x1CFA, 0x1CFA); (0x1D00, 0x1DBF); (0x1E00, 0x1F15);
   (0x1F18, 0x1F1D); (0x1F20, 0x1F45); (0x1F48, 0x1F4D); (0x1F50, 0x1F57);
   (0x1F59, 0x1F59); (0x1F5B, 0x1F5B); (0x1F5D, 0x1F5D); (0x1F5F, 0x1F7D);
   (0x1F80, 0x1FB4); (0x1FB6, 0x1FBC); (0x1FBE, 0x1FBE); (0x1FC2, 0x1FC4);
   (0x1FC6, 0x1FCC); (0x1FD0, 0x1FD3); (0x1FD6, 0x1FDB); (0x1FE0, 0x1FEC);
   (0x1FF2, 0x1FF4); (0x1FF6, 0x1FFC); (0x2070, 0x2071); (0x2074, 0x2079);
   (0x207F, 0x2089); (0x2090, 0x209C); (0x2102, 0x2102); (0x2107, 0x2107);
   (0x210A, 0x2113); (0x2115, 0x2115); (0x2119, 0x211D); (0x2124, 0x2124);
   (0x2126, 0x2126); (0x2128, 0x2128); (0x212A, 0x212D); (0x212F, 0x2139);
   (0x213C, 0x213F); (0x2145, 0x2149); (0x214E, 0x214E); (0x2150, 0x2189);
   (0x2460, 0x249B); (0x24EA, 0x24FF); (0x2776, 0x2793); (0x2C00, 0x2CE4);
   (0x2CEB, 0x2CEE); (0x2CF2, 0x2CF3); (0x2CFD, 0x2CFD); (0x2D00, 0x2D25);
   (0x2D27, 0x2D27); (0x2D2D, 0x2D2D); (0x2D30, 0x2D67); (0x2D6F, 0x2D6F);
   (0x2D80, 0x2D96); (0x2DA0, 0x2DA6); (0x2DA8, 0x2DAE); (0x2DB0, 0x2DB6);
   (0x2DB8, 0x2DBE); (0x2DC0, 0x2DC6); (0x2DC8, 0x2DCE); (0x2DD0, 0x2DD6);
   (0x2DD8, 0x2DDE); (0x2E2F, 0x2E2F); (0x3005, 0x3007); (0x3021, 0x3029);
   (0x3031, 0x3035); (0x3038, 0x303C); (0x3041, 0x3096); (0x309D, 0x309F);
   (0x30A1, 0x30FA); (0x30FC, 0x30FF); (0x3105, 0x312F); (0x3131, 0x318E);
   (0x3192, 0x3195); (0x31A0, 0x31BF); (0x31F0, 0x31FF); (0x3220, 0x3229);
   (0x3248, 0x324F); (0x3251, 0x325F); (0x3280, 0x3289); (0x32B1, 0x32BF);
   (0x3400, 0x4DBF); (0x4E00, 0xA48C); (0xA4D0, 0xA4FD); (0xA500, 0xA60C);
   (0xA610, 0xA62B); (0xA640, 0xA66E); (0xA67F, 0xA69D); (0xA6A0, 0xA6EF);
   (0xA717, 0xA71F); (0xA722, 0xA788); (0xA78B, 0xA7CA); (0xA7D0, 0xA7D1);
   (0xA7D3, 0xA7D3); (0xA7D5, 0xA7D9); (0xA7F2, 0xA801); (0xA803, 0xA805);
   (0xA807, 0xA80A); (0xA80C, 0xA822); (0xA830, 0xA835); (0xA840, 0xA873);
   (0xA882, 0xA8B3); (0xA8D0, 0xA8D9); (0xA8F2, 0xA8F7); (0xA8FB, 0xA8FB);
   (0xA8FD, 0xA8FE); (0xA900, 0xA925); (0xA930, 0xA946); (0xA960, 0xA97C);
   (0xA984, 0xA9B2); (0xA9CF, 0xA9D9); (0xA9E0, 0xA9E4); (0xA9E6, 0xA9FE);
   (0xAA00, 0xAA28); (0xAA40, 0xAA42); (0xAA44, 0xAA4B); (0xAA50, 0xAA59);
   (0xAA60, 0xAA76); (0xAA7A, 0xAA7A); (0xAA7E, 0xAAAF); (0xAAB1, 0xAAB1);
   (0xAAB5, 0xAAB6); (0xAAB9, 0xAABD); (0xAAC0, 0xAAC0); (0xAAC2, 0xAAC2);
   (0xAADB, 0xAADD); (0xAAE0, 0xAAEA); (0xAAF2, 0xAAF4); (0xAB01, 0xAB06);
   (0xAB09, 0xAB0E); (0xAB11, 0xAB16); (0xAB20, 0xAB26); (0xAB28, 0xAB2E);
   (0xAB30, 0xAB5A); (0xAB5C, 0xAB69); (0xAB70, 0xABE2); (0xABF0, 0xABF9);
   (0xAC00, 0xD7A3); (0xD7B0, 0xD7C6); (0xD7CB, 0xD7FB); (0xF900, 0xFA6D);
   (0xFA70, 0xFAD9); (0xFB00, 0xFB06); (0xFB13, 0xFB17); (0xFB1D, 0xFB1D);
   (0xFB1F, 0xFB28); (0xFB2A, 0xFB36); (0xFB38, 0xFB3C); (0xFB3E, 0xFB3E);
   (0xFB40, 0xFB41); (0xFB43, 0xFB44); (0xFB46, 0xFBB1); (0xFBD3, 0xFD3D);
   (0xFD50, 0xFD8F); (0xFD92, 0xFDC7); (0xFDF0, 0xFDFB); (0xFE70, 0xFE74);
   (0xFE76, 0xFEFC); (0xFF10, 0xFF19); (0xFF21, 0xFF3A); (0xFF41, 0xFF5A);
   (0xFF66, 0xFFBE); (0xFFC2, 0xFFC7); (0xFFCA, 0xFFCF); (0xFFD2, 0xFFD7);
   (0xFFDA, 0xFFDC); (0x10000, 0x1000B); (0x1000D, 0x10026); (0x10028, 0x1003A);
   (0x1003C, 0x1003D); (0x1003F, 0x1004D); (0x10050, 0x1005D); (0x10080, 0x100FA);
   (0x10107, 0x10133); (0x10140, 0x10178); (0x1018A, 0x1018B); (0x10280, 0x1029C);
   (0x102A0, 0x102D0); (0x102E1, 0x102FB); (0x10300, 0x10323); (0x1032D, 0x1034A);
   (0x10350, 0x10375); (0x10380, 0x1039D); (0x103A0, 0x103C3); (0x103C8, 0x103CF);
   (0x103D1, 0x103D5); (0x10400, 0x1049D); (0x104A0, 0x104A9); (0x104B0, 0x104D3);
   (0x104D8, 0x104FB); (0x10500, 0x10527); (0x10530, 0x10563); (0x10570, 0x1057A);
   (0x1057C, 0x1058A); (0x1058C, 0x10592); (0x10594, 0x10595); (0x10597, 0x105A1);
   (0x105A3, 0x105B1); (0x105B3, 0x105B9); (0x105BB, 0x105BC); (0x10600, 0x10736);
   (0x10740, 0x10755); (0x10760, 0x10767); (0x10780, 0x10785); (0x10787, 0x107B0);
   (0x107B2, 0x107BA); (0x10800, 0x10805); (0x10808, 0x10808); (0x1080A, 0x10835);
   (0x10837, 0x10838); (0x1083C, 0x1083C); (0x1083F, 0x10855); (0x10858, 0x10876);
   (0x10879, 0x1089E); (0x108A7, 0x108AF); (0x108E0, 0x108F2); (0x108F4, 0x108F5);
   (0x108FB, 0x1091B); (0x10920, 0x10939); (0x10980, 0x109B7); (0x109BC, 0x109CF);
   (0x109D2, 0x10A00); (0x10A10, 0x10A13); (0x10A15, 0x10A17); (0x10A19, 0x10A35);
   (0x10A40, 0x10A48); (0x10A60, 0x10A7E); (0x10A80, 0x10A9F); (0x10AC0, 0x10AC7);
   (0x10AC9, 0x10AE4); (0x10AEB, 0x10AEF); (0x10B00, 0x10B35); (0x10B40, 0x10B55);
   (0x10B58, 0x10B72); (0x10B78, 0x10B91); (0x10BA9, 0x10BAF); (0x10C00, 0x10C48);
   (0x10C80, 0x10CB2); (0x10CC0, 0x10CF2); (0x10CFA, 0x10D23); (0x10D30, 0x10D39);
   (0x10E60, 0x10E7E); (0x10E80, 0x10EA9); (0x10EB0, 0x10EB1); (0x10F00, 0x10F27);
   (0x10F30, 0x10F45); (0x10F51, 0x10F54); (0x10F70, 0x10F81); (0x10FB0, 0x10FCB);
   (0x10FE0, 0x10FF6); (0x11003, 0x11037); (0x11052, 0x1106F); (0x11071, 0x11072);
   (0x11075, 0x11075); (0x11083, 0x110AF); (0x110D0, 0x110E8); (0x110F0, 0x110F9);
   (0x11103, 0x11126); (0x11136, 0x1113F); (0x11144, 0x11144); (0x11147, 0x11147);
   (0x11150, 0x11172); (0x11176, 0x11176); (0x11183, 0x111B2); (0x111C1, 0x111C4);
   (0x111D0, 0x111DA); (0x111DC, 0x111DC); (0x111E1, 0x111F4); (0x11200, 0x11211);
   (0x11213, 0x1122B); (0x11280, 0x11286); (0x11288, 0x11288); (0x1128A, 0x1128D);
   (0x1128F, 0x1129D); (0x1129F, 0x112A8); (0x112B0, 0x112DE); (0x112F0, 0x112F9);
   (0x11305, 0x1130C); (0x1130F, 0x11310); (0x11313, 0x11328); (0x1132A, 0x11330);
   (0x11332, 0x11333); (0x11335, 0x11339); (0x1133D, 0x1133D); (0x11350, 0x11350);
   (0x1135D, 0x11361); (0x11400, 0x11434); (0x11447, 0x1144A); (0x11450, 0x11459);
   (0x1145F, 0x11461); (0x11480, 0x114AF); (0x114C4, 0x114C5); (0x114C7, 0x114C7);
   (0x114D0, 0x114D9); (0x11580, 0x115AE); (0x115D8, 0x115DB); (0x11600, 0x1162F);
   (0x11644, 0x11644); (0x11650, 0x11659); (0x11680, 0x116AA); (0x116B8, 0x116B8);
   (0x116C0, 0x116C9); (0x11700, 0x1171A); (0x11730, 0x1173B); (0x11740, 0x11746);
   (0x11800, 0x1182B); (0x118A0, 0x118F2); (0x118FF, 0x11906); (0x11909, 0x11909);
   (0x1190C, 0x11913); (0x11915, 0x11916); (0x11918, 0x1192F); (0x1193F, 0x1193F);
   (0x11941, 0x11941); (0x11950, 0x11959); (0x119A0, 0x119A7); (0x119AA, 0x119D0);
   (0x119E1, 0x119E1); (0x119E3, 0x119E3); (0x11A00, 0x11A00); (0x11A0B, 0x11A32);
   (0x11A3A, 0x11A3A); (0x11A50, 0x11A50); (0x11A5C, 0x11A89); (0x11A9D, 0x11A9D);
   (0x11AB0, 0x11AF8); (0x11C00, 0x11C08); (0x11C0A, 0x11C2E); (0x11C40, 0x11C40);
   (0x11C50, 0x11C6C); (0x11C72, 0x11C8F); (0x11D00, 0x11D06); (0x11D08, 0x11D09);
   (0x11D0B, 0x11D30); (0x11D46, 0x11D46); (0x11D50, 0x11D59); (0x11D60, 0x11D65);
   (0x11D67, 0x11D68); (0x11D6A, 0x11D89); (0x11D98, 0x11D98); (0x11DA0, 0x11DA9);
   (0x11EE0, 0x11EF2); (0x11FB0, 0x11FB0); (0x11FC0, 0x11FD4); (0x12000, 0x12399);
   (0x12400, 0x1246E); (0x12480, 0x12543); (0x12F90, 0x12FF0); (0x13000, 0x1342E);
   (0x14400, 0x14646); (0x16800, 0x16A38); (0x16A40, 0x16A5E); (0x16A60, 0x16A69);
   (0x16A70, 0x16ABE); (0x16AC0, 0x16AC9); (0x16AD0, 0x16AED); (0x16B00, 0x16B2F);
   (0x16B40, 0x16B43); (0x16B50, 0x16B59); (0x16B5B, 0x16B61); (0x16B63, 0x16B77);
   (0x16B7D, 0x16B8F); (0x16E40, 0x16E96); (0x16F00, 0x16F4A); (0x16F50, 0x16F50);
   (0x16F93, 0x16F9F); (0x16FE0, 0x16FE1); (0x16FE3, 0x16FE3); (0x17000, 0x187F7);
   (0x18800, 0x18CD5); (0x18D00, 0x18D08); (0x1AFF0, 0x1AFF3); (0x1AFF5, 0x1AFFB);
   (0x1AFFD, 0x1AFFE); (0x1B000, 0x1B122); (0x1B150, 0x1B152); (0x1B164, 0x1B167);
   (0x1B170, 0x1B2FB); (0x1BC00, 0x1BC6A); (0x1BC70, 0x1BC7C); (0x1BC80, 0x1BC88);
   (0x1BC90, 0x1BC99); (0x1D2E0, 0x1D2F3); (0x1D360, 0x1D378); (0x1D400, 0x1D454);
   (0x1D456, 0x1D49C); (0x1D49E, 0x1D49F); (0x1D4A2, 0x1D4A2); (0x1D4A5, 0x1D4A6);
   (0x1D4A9, 0x1D4AC); (0x1D4AE, 0x1D4B9); (0x1D4BB, 0x1D4BB); (0x1D4BD, 0x1D4C3);
   (0x1D4C5, 0x1D505); (0x1D507, 0x1D50A); (0x1D50D, 0x1D514); (0x1D516, 0x1D51C);
   (0x1D51E, 0x1D539); (0x1D53B, 0x1D53E); (0x1D540, 0x1D544); (0x1D546, 0x1D546);
   (0x1D54A, 0x1D550); (0x1D552, 0x1D6A5); (0x1D6A8, 0x1D6C0); (0x1D6C2, 0x1D6DA);
   (0x1D6DC, 0x1D6FA); (0x1D6FC, 0x1D714); (0x1D716, 0x1D734); (0x1D736, 0x1D74E);
   (0x1D750, 0x1D76E); (0x1D770, 0x1D788); (0x1D78A, 0x1D7A8); (0x1D7AA, 0x1D7C2);
   (0x1D7C4, 0x1D7CB); (0x1D7CE, 0x1D7FF); (0x1DF00, 0x1DF1E); (0x1E100, 0x1E12C);
   (0x1E137, 0x1E13D); (0x1E140, 0x1E149); (0x1E14E, 0x1E14E); (0x1E290, 0x1E2AD);
   (0x1E2C0, 0x1E2EB); (0x1E2F0, 0x1E2F9); (0x1E7E0, 0x1E7E6); (0x1E7E8, 0x1E7EB);
   (0x1E7ED, 0x1E7EE); (0x1E7F0, 0x1E7FE); (0x1E800, 0x1E8C4); (0x1E8C7, 0x1E8CF);
   (0x1E900, 0x1E943); (0x1E94B, 0x1E94B); (0x1E950, 0x1E959); (0x1EC71, 0x1ECAB);
   (0x1ECAD, 0x1ECAF); (0x1ECB1, 0x1ECB4); (0x1ED01, 0x1ED2D); (0x1ED2F, 0x1ED3D);
   (0x1EE00, 0x1EE03); (0x1EE05, 0x1EE1F); (0x1EE21, 0x1EE22); (0x1EE24, 0x1EE24);
   (0x1EE27, 0x1EE27); (0x1EE29, 0x1EE32); (0x1EE34, 0x1EE37); (0x1EE39, 0x1EE39);
   (0x1EE3B, 0x1EE3B); (0x1EE42, 0x1EE42); (0x1EE47, 0x1EE47); (0x1EE49, 0x1EE49);
   (0x1EE4B, 0x1EE4B); (0x1EE4D, 0x1EE4F); (0x1EE51, 0x1EE52); (0x1EE54, 0x1EE54);
   (0x1EE57, 0x1EE57); (0x1EE59, 0x1EE59); (0x1EE5B, 0x1EE5B); (0x1EE5D, 0x1EE5D);
   (0x1EE5F, 0x1EE5F); (0x1EE61, 0x1EE62); (0x1EE64, 0x1EE64); (0x1EE67, 0x1EE6A);
   (0x1EE6C, 0x1EE72); (0x1EE74, 0x1EE77); (0x1EE79, 0x1EE7C); (0x1EE7E, 0x1EE7E);
   (0x1EE80, 0x1EE89); (0x1EE8B, 0x1EE9B); (0x1EEA1, 0x1EEA3); (0x1EEA5, 0x1EEA9);
   (0x1EEAB, 0x1EEBB); (0x1F100, 0x1F10C); (0x1FBF0, 0x1FBF9); (0x20000, 0x2A6DF);
   (0x2A700, 0x2B738); (0x2B740, 0x2B81D); (0x2B820, 0x2CEA1); (0x2CEB0, 0x2EBE0);
   (0x2F800, 0x2FA1D); (0x30000, 0x3134A) ].

Definition is_word (c : char) : bool :=
  existsb (fun r : N * N => (fst r <=? c) && (c <=? snd r)) word_ranges.

(** The two shapes of pattern the function builds; [re.escape] makes the
    query match literally. *)
Inductive pattern : Type :=
| Pat_word (escaped_query : pystr)    (* \b escaped_query \b *)
| Pat_literal (escaped_query : pystr) (* escaped_query *).

Definition create_search_pattern (query : pystr) (exact_word : bool)
  : pattern :=
  let escaped_query := normalize_text (PyStr query) in
  if exact_word then Pat_word escaped_query else Pat_literal escaped_query.

Definition is_word_opt (o : option char) : bool :=
  match o with
  | Some c => is_word c
  | None => false
  end.

(** [\b] between two neighbouring positions ([None]: outside the text). *)
Definition at_boundary (prev next : option char) : bool :=
  xorb (is_word_opt prev) (is_word_opt next).

Definition last_or (prev : option char) (q : pystr) : option char :=
  match q with
  | [] => prev
  | c :: _ => Some (last q c)
  end.

(** Is there a position of [s] where [\b q \b] matches; [prev] is the
    character before [s]. *)
Fixpoint word_search (q : pystr) (prev : option char) (s : pystr) : bool :=
  (at_boundary prev (hd_error s) && starts_with q s
   && at_boundary (last_or prev q) (hd_error (skipn (List.length q) s)))
  || match s with
     | [] => false
     | c :: t => word_search q (Some c) t
     end.

(** [Series.str.contains(pattern, regex=True, na=False)] on one value. *)
Definition str_contains (p : pattern) (s : pystr) : bool :=
  match p with
  | Pat_word q => word_search q None s
  | Pat_literal q => contains q s
  end.

(* ================================================================== *)
(** ** find_commision_rate.py: TrendyolCommissionLookup *)

Definition MIN_SIMILARITY_THRESHOLD : Q := (6 # 10)%Q.
Definition MAX_FUZZY_RESULTS : N := 10.

Definition _kategori_norm (r : Flat4) : pystr :=
  normalize_text (PyStr (Kategori r)).
Definition _alt_kategori_norm (r : Flat4) : pystr :=
  normalize_text (PyStr (Alt_Kategori r)).
Definition _urun_grubu_norm (r : Flat4) : pystr :=
  normalize_text (PyStr (Urun_Grubu r)).

Fixpoint unique_from (seen : list pystr) (l : list pystr) : list pystr :=
  match l with
  | [] => []
  | x :: l' =>
    if in_strs x seen then unique_from seen l'
    else x :: unique_from (x :: seen) l'
  end.

Fixpoint insert_str (x : pystr) (l : list pystr) : list pystr :=
  match l with
  | [] => [x]
  | y :: l' => if str_leb x y then x :: l else y :: insert_str x l'
  end.

(** [sorted(values)] *)
Definition sorted_strs (l : list pystr) : list pystr :=
  fold_right insert_str [] l.

(** utils.get_unique_values_from_column(df, "Urun Grubu") *)
Definition get_unique_values_from_column (df : list Flat4) : list pystr :=
  let values := unique_from [] (map Urun_Grubu df) in
  let clean_values :=
    filter (fun val =>
              negb (is_empty val)
              && (2 <=? List.length (strip val))%nat
              && negb (in_strs (lower (strip val))
                         [lit "nan"; lit "none"; lit "null"; lit ""]))
           values in
  sorted_strs clean_values.

Section Lookup.

(** [difflib.get_close_matches(word, possibilities, n, cutoff)]: the
    similarity ranking of the Python library, not code of this program. *)
Variable get_close_matches : pystr -> list pystr -> N -> Q -> list pystr.

(** The five row masks of [search_products]. *)
Definition mask_exact (query_norm : pystr) (r : Flat4) : bool :=
  str_contains (create_search_pattern query_norm true) (_urun_grubu_norm r).

Definition mask_partial (query_norm : pystr) (r : Flat4) : bool :=
  str_contains (create_search_pattern query_norm false) (_urun_grubu_norm r).

Definition mask_category (query_norm : pystr) (r : Flat4) : bool :=
  str_contains (create_search_pattern query_norm false) (_kategori_norm r)
  || str_contains (create_search_pattern query_norm false)
       (_alt_kategori_norm r).

Definition fuzzy_matches (df : list Flat4) (query : pystr) : list pystr :=
  get_close_matches query (get_unique_values_from_column df)
    MAX_FUZZY_RESULTS MIN_SIMILARITY_THRESHOLD.

Definition mask_fuzzy (df : list Flat4) (query : pystr) (r : Flat4) : bool :=
  in_strs (Urun_Grubu r) (fuzzy_matches df query).

Definition broad_mask (query_norm : pystr) (r : Flat4) : bool :=
  str_contains (create_search_pattern query_norm false) (_kategori_norm r)
  || str_contains (create_search_pattern query_norm false)
       (_alt_kategori_norm r)
  || str_contains (create_search_pattern query_norm false)
       (_urun_grubu_norm r).

Definition df_empty {A : Type} (l : list A) : bool :=
  match l with
  | [] => true
  | _ :: _ => false
  end.

Definition search_products (df : list Flat4) (query : pystr) : list Flat4 :=
  let query_norm := normalize_text (PyStr query) in
  if is_empty query_norm then []
  else
    (* 1. exact word match in product groups *)
    let exact_results := filter (mask_exact query_norm) df in
    if negb (df_empty exact_results) then exact_results
    else
      (* 2. partial match in product groups *)
      let partial_results := filter (mask_partial query_norm) df in
      if negb (df_empty partial_results) then partial_results
      else
        (* 3. category and subcategory search *)
        let category_results := filter (mask_category query_norm) df in
        if negb (df_empty category_results) then category_results
        else
          (* 4. fuzzy matching *)
          if negb (df_empty (fuzzy_matches df query))
          then filter (mask_fuzzy df query) df
          else
            (* 5. broad search across all text fields *)
            let broad_results := filter (broad_mask query_norm) df in
            if negb (df_empty broad_results) then broad_results
            else [].

End Lookup.

(** *** get_best_match *)

Definition same_key (a b : Flat4) : bool :=
  str_eqb (Kategori a) (Kategori b)
  && str_eqb (Alt_Kategori a) (Alt_Kategori b)
  && str_eqb (Urun_Grubu a) (Urun_Grubu b).

(** Order of the group keys (tuples of three strings). *)
Definition key_leb (a b : Flat4) : bool :=
  if str_eqb (Kategori a) (Kategori b) then
    if str_eqb (Alt_Kategori a) (Alt_Kategori b) then
      str_leb (Urun_Grubu a) (Urun_Grubu b)
    else str_leb (Alt_Kategori a) (Alt_Kategori b)
  else str_leb (Kategori a) (Kategori b).

Definition Qmax_bool (x y : Q) : Q := if Qle_bool x y then y else x.

(** [max] of two cells, a missing value being skipped. *)
Definition opt_max (a b : option Q) : option Q :=
  match a, b with
  | Some x, Some y => Some (Qmax_bool x y)
  | Some x, None => Some x
  | None, _ => b
  end.

(** [.max()] of the commissions of the rows carrying the key of [k]. *)
Definition group_max (results : list Flat4) (k : Flat4) : option Q :=
  fold_right opt_max None (map Komisyon (filter (same_key k) results)).

Fixpoint group_keys_from (seen : list Flat4) (l : list Flat4) : list Flat4 :=
  match l with
  | [] => []
  | r :: l' =>
    if existsb (same_key r) seen then group_keys_from seen l'
    else r :: group_keys_from (r :: seen) l'
  end.

Fixpoint insert_key (x : Flat4) (l : list Flat4) : list Flat4 :=
  match l with
  | [] => [x]
  | y :: l' => if key_leb x y then x :: l else y :: insert_key x l'
  end.

(** [groupby([...], dropna=False)[col].max().reset_index()]: one row per
    key, in key order, carrying the maximum of the group. *)
Definition groupby_max (results : list Flat4) : list Flat4 :=
  map (fun k => {| Kategori := Kategori k;
                   Alt_Kategori := Alt_Kategori k;
                   Urun_Grubu := Urun_Grubu k;
                   Komisyon := group_max results k |})
      (fold_right insert_key [] (group_keys_from [] results)).

(** Does [a] come no later than [b] in a descending sort with missing
    values last. *)
Definition comm_geb (a b : option Q) : bool :=
  match a, b with
  | Some x, Some y => Qle_bool y x
  | Some _, None => true
  | None, Some _ => false
  | None, None => true
  end.

Fixpoint insert_desc (x : Flat4) (l : list Flat4) : list Flat4 :=
  match l with
  | [] => [x]
  | y :: l' =>
    if comm_geb (Komisyon x) (Komisyon y) then x :: l
    else y :: insert_desc x l'
  end.

(** [sort_values(col, ascending=False)].  The order pandas gives to rows
    of equal commission is not fixed by the source; rows of equal
    commission keep their order here. *)
Definition sort_values_desc (l : list Flat4) : list Flat4 :=
  fold_right insert_desc [] l.

Definition get_best_match (results : list Flat4) : option Flat4 :=
  if df_empty results then None
  else
    let grouped := sort_values_desc (groupby_max results) in
    hd_error grouped.

(* ================================================================== *)
(** ** Auxiliary predicates used in the proofs *)

(** No white space at the right end. *)
Fixpoint no_trailing_space (s : pystr) : bool :=
  match s with
  | [] => true
  | c :: t =>
    match t with
    | [] => negb (is_space c)
    | _ :: _ => no_trailing_space t
    end
  end.

(** Every white-space character is a single space followed by a
    character that is not white space. *)
Fixpoint collapsed (s : pystr) : bool :=
  match s with
  | [] => true
  | c :: t =>
    (if is_space c then (c =? 0x20) && negb (starts_with_space t) else true)
    && collapsed t
  end.

(** The facts about one code point [c] that the idempotence proof uses,
    as one decidable check. *)
Definition char_facts (c : char) : bool :=
  (if is_space c
   then str_eqb (lower_char c) [c] && (translate_char turkish_map c =? c)
   else negb (is_empty (lower_char c))
        && forallb (fun d => negb (is_space d)) (lower_char c)
        && negb (is_space (translate_char turkish_map c)))
  && forallb
       (fun d =>
          let d' := translate_char turkish_map d in
          str_eqb (lower_char d') [d']
          && (translate_char turkish_map d' =? d'))
       (lower_char c)
  && (if translate_char turkish_map c =? 0x6E then c =? 0x6E else true)
  && (if translate_char turkish_map c =? 0x61 then c =? 0x61 else true)
  && (if is_run_char c then str_eqb (lower_char c) [c] else true).

Definition is_ascii_lower_or_space (c : char) : bool :=
  ((0x61 <=? c) && (c <=? 0x7A)) || (c =? 0x20).

(* ================================================================== *)
(** ** app.py: the [columns_candidates] of the six marketplaces *)

Definition mk_candidates (c s g k : list string) : Candidates :=
  {| category := map lit c; sub_category := map lit s;
     product_group := map lit g; commission := map lit k |}.

Definition trendyol : Candidates :=
  mk_candidates
    ["Ana Kategori"; "Kategori"]%string
    ["Kategori"; "Alt Kategori"]%string
    ["Ürün Grubu"; "Urun Grubu"; "Urun_Grubu"]%string
    ["Komisyon_%_KDV_Dahil"; "komisyon"]%string.

Definition hepsiburada : Candidates :=
  mk_candidates
    ["Ana Kategori"; "Kategori"]%string
    ["Kategori"; "Alt Kategori"]%string
    ["Ürün Grubu"; "Urun Grubu"; "Urun_Grubu"]%string
    ["Komisyon_%_KDV_Dahil"; "Uygulanan_Komisyon_%_KDV_Dahil";
     "komisyon"]%string.

Definition n11 : Candidates :=
  mk_candidates
    ["Kategori"; "Ana Kategori"]%string
    ["Alt Kategori"; "Kategori"]%string
    ["Ürün Grubu"; "Urun Grubu"; "Urun_Grubu"]%string
    ["Komisyon_%_KDV_Dahil"; "komisyon"]%string.

Definition amazon : Candidates :=
  mk_candidates
    ["Kategori"]%string
    ["Alt Kategori"]%string
    ["Ürün Grubu"; "Kategori"]%string
    ["Komisyon_%_KDV_Dahil"; "Satış Komisyonu (+KDV)"]%string.

Definition ciceksepeti : Candidates :=
  mk_candidates
    ["Kategori"; "Ana Kategori"]%string
    ["Alt Kategori"; "Kategori"]%string
    ["Ürün Grubu"; "Kategori"]%string
    ["Komisyon_%_KDV_Dahil"; "Komisyon Oranı";
     "Revize Komisyon Oranı"]%string.

Definition pttavm : Candidates :=
  mk_candidates
    ["Kategori"; "Ana Kategori"]%string
    ["Alt Kategori"]%string
    ["Ürün Grubu"; "Alt Kategori"; "Kategori"]%string
    ["Komisyon_%_KDV_Dahil"; "Komisyon"; "Komisyon Oranları"]%string.

Definition marketplaces : list Candidates :=
  [trendyol; hepsiburada; n11; amazon; ciceksepeti; pttavm].

(** The aliases of the three text fields of a profile. *)
Definition text_aliases (cands : Candidates) : list pystr :=
  category cands ++ sub_category cands ++ product_group cands.

(* ================================================================== *)
(** ** Sample inputs *)

Definition mk_df (cols : list string) (rs : list (list string)) : DataFrame :=
  {| columns := map lit cols;
     rows := map (map (fun s => PyStr (lit s))) rs |}.

Definition mk_row (k a g : string) (c : option Q) : Flat4 :=
  {| Kategori := lit k; Alt_Kategori := lit a; Urun_Grubu := lit g;
     Komisyon := c |}.

(** An export with a category but no product-group column. *)
Definition df_no_group : DataFrame :=
  mk_df ["Kategori"; "komisyon"]%string
        [["Elektronik"; "%18"]; ["Ev"; "%8"]]%string.


(** An export with one flat category column. *)
Definition df_flat_category : DataFrame :=
  mk_df ["Kategori"; "Ürün Grubu"; "komisyon"]%string
        [[" Elektronik "; "Telefon"; "%18"];
         ["Ev"; "Tava"; "%8"]]%string.

Definition rec_phone_15 : Flat4 :=
  mk_row "Elektronik" "Telefon" "Akıllı Telefon" (Some (15 # 1)%Q).
Definition rec_phone_18 : Flat4 :=
  mk_row "Elektronik" "Telefon" "Akıllı Telefon" (Some (18 # 1)%Q).
Definition rec_case_10 : Flat4 :=
  mk_row "Elektronik" "Telefon" "Kılıf" (Some (10 # 1)%Q).
Definition rec_pan_8 : Flat4 :=
  mk_row "Ev" "Mutfak" "Tava" (Some (8 # 1)%Q).
Definition rec_phones : Flat4 :=
  mk_row "Telefon" "Telefonlar" "Telefonlar" (Some (9 # 1)%Q).

(** A record whose product group holds the word "none". *)
Definition rec_none_brand : Flat4 :=
  mk_row "Moda" "Giyim" "None Marka" (Some (20 # 1)%Q).

(** An export that repeats a row, once with other spacing. *)
Definition df_repeated : DataFrame :=
  mk_df ["Kategori"; "Ürün Grubu"; "komisyon"]%string
        [["Elektronik"; "Telefon"; "%18"];
         ["Ev"; "Tava"; "%8"];
         [" Elektronik"; "Telefon "; "18,0"]]%string.

(** An export with untidy text cells. *)
Definition df_untidy : DataFrame :=
  mk_df ["Kategori"; "Ürün Grubu"; "komisyon"]%string
        [["  Ev   ve  Yaşam "; " NULL "; " %8 "]]%string.

(** A similarity ranking that proposes nothing. *)
Definition no_close_matches (word : pystr) (possibilities : list pystr)
  (n : N) (cutoff : Q) : list pystr := [].

(* ================================================================== *)
(** ** Python containers used by the remaining functions *)

(** [sorted] and [list.sort]: a stable sort by a "less or equal" test on
    the sort keys. *)
Section SortBy.

Context {A : Type} (leb : A -> A -> bool).

Fixpoint insert_by (x : A) (l : list A) : list A :=
  match l with
  | [] => [x]
  | y :: l' => if leb x y then x :: l else y :: insert_by x l'
  end.

Definition sort_by (l : list A) : list A := fold_right insert_by [] l.

End SortBy.

(** A [dict] with [str] keys, in insertion order: assigning to a key that
    is present replaces its value in place. *)
Section Dict.

Context {V : Type}.

Fixpoint dict_get (k : pystr) (d : list (pystr * V)) : option V :=
  match d with
  | [] => None
  | (k', v) :: d' => if str_eqb k k' then Some v else dict_get k d'
  end.

Fixpoint dict_set (k : pystr) (v : V) (d : list (pystr * V))
  : list (pystr * V) :=
  match d with
  | [] => [(k, v)]
  | (k', v') :: d' =>
    if str_eqb k k' then (k, v) :: d' else (k', v') :: dict_set k v d'
  end.

End Dict.

Fixpoint set_nth {A : Type} (i : nat) (v : A) (l : list A) : list A :=
  match l, i with
  | [], _ => []
  | _ :: l', O => v :: l'
  | x :: l', S i' => x :: set_nth i' v l'
  end.

(* ================================================================== *)
(** ** utils.py: column lookup and text cleaning *)

(** [{normalize_text(str(col)): str(col) for col in df.columns}] *)
Definition df_columns_normalized (cols : list pystr)
  : list (pystr * pystr) :=
  fold_left (fun d col => dict_set (normalize_text (PyStr col)) col d)
            cols [].

(** The test of line 140 on one item of the dictionary. *)
Definition partial_match (alias_normalized : pystr)
           (item : pystr * pystr) : bool :=
  contains alias_normalized (fst item)
  || contains (fst item) alias_normalized.

Fixpoint find_in_normalized (d : list (pystr * pystr)) (aliases : list pystr)
  : option pystr :=
  match aliases with
  | [] => None
  | alias :: aliases' =>
    let alias_normalized := normalize_text (PyStr alias) in
    match dict_get alias_normalized d with
    | Some orig_col => Some orig_col
    | None =>
      match find (partial_match alias_normalized) d with
      | Some (_, orig_col) => Some orig_col
      | None => find_in_normalized d aliases'
      end
    end
  end.

Definition find_column_by_aliases (cols : list pystr) (aliases : list pystr)
  : option pystr :=
  find_in_normalized (df_columns_normalized cols) aliases.

(** The outcome of [validate_dataframe_columns]: the mapping, or the
    [ValueError] with the missing names and the columns of the table. *)
Inductive validation : Type :=
| Mapped (column_mapping : list (pystr * pystr))
| ValueError_missing (missing_columns : list pystr)
                     (available_cols : list pystr).

(** [str(col).strip() if col is not None else ''] *)
Definition strip_column (col : pyval) : pystr :=
  match col with
  | PyNone => []
  | _ => strip (astype_str col)
  end.

Fixpoint validate_loop (cols : list pystr)
         (required_columns : list (pystr * list pystr))
         (column_mapping : list (pystr * pystr))
         (missing_columns : list pystr)
  : list (pystr * pystr) * list pystr :=
  match required_columns with
  | [] => (column_mapping, missing_columns)
  | (required_name, aliases) :: rest =>
    match find_column_by_aliases cols aliases with
    | Some found_column =>
      if negb (is_empty found_column) then
        validate_loop cols rest
          (dict_set required_name found_column column_mapping)
          missing_columns
      else
        validate_loop cols rest column_mapping
          (missing_columns ++ [required_name])
    | None =>
      validate_loop cols rest column_mapping
        (missing_columns ++ [required_name])
    end
  end.

(** The test [if found_column:] of line 159 for one required name. *)
Definition found_column (cols : list pystr) (aliases : list pystr) : bool :=
  match find_column_by_aliases cols aliases with
  | Some found_column => negb (is_empty found_column)
  | None => false
  end.

Definition validate_dataframe_columns (df_columns : list pyval)
           (required_columns : list (pystr * list pystr)) : validation :=
  let cols := map strip_column df_columns in
  let (column_mapping, missing_columns) :=
    validate_loop cols required_columns [] [] in
  if negb (df_empty missing_columns)
  then ValueError_missing missing_columns cols
  else Mapped column_mapping.

(** Lines 184-192 on one cell. *)
Definition clean_text (v : pyval) : pystr :=
  let s := strip (re_sub_ws (astype_str v)) in
  if in_strs s [lit "nan"; lit "NaN"; lit "None"; lit "null"; lit "NULL"]
  then [] else s.

Definition clean_column (df : DataFrame) (col : pystr) : DataFrame :=
  match index_of col (columns df) with
  | Some i =>
    {| columns := columns df;
       rows := map (fun row =>
                      set_nth i (PyStr (clean_text (nth i row PyNaN))) row)
                   (rows df) |}
  | None => df
  end.

Definition clean_dataframe_text_columns (df : DataFrame)
           (cols : list pystr) : DataFrame :=
  fold_left clean_column cols df.

(* ================================================================== *)
(** ** find_commision_rate.py: get_alternative_matches *)

Section Alternatives.

(** [MAX_OTHER_RESULTS]: imported from the configuration, which does not
    define it in this repository. *)
Variable MAX_OTHER_RESULTS : nat.

Definition get_alternative_matches (results : list Flat4)
           (exclude_best : option Flat4) : list Flat4 :=
  match exclude_best with
  | None => []
  | Some best =>
    if df_empty results then []
    else
      let alternatives := filter (fun r => negb (same_key r best)) results in
      if df_empty alternatives then []
      else firstn MAX_OTHER_RESULTS
                  (sort_values_desc (groupby_max alternatives))
  end.

End Alternatives.

(* ================================================================== *)
(** ** app.py: MultiMarketplaceCommissionService, the queries *)

(** The commission cell of a served record: a number, [NaN], or the empty
    text that [fillna("")] leaves. *)
Inductive num_cell : Type :=
| Num (q : Q)
| NaN
| Blank.

(** A record of [self._data[...]]. *)
Record DataRow : Type := {
  row_Kategori : pystr;
  row_Alt_Kategori : pystr;
  row_Urun_Grubu : pystr;
  row_Komisyon : num_cell
}.

(** [out.fillna("").to_dict(orient="records")] *)
Definition to_dict_records (out : list Flat4) : list DataRow :=
  map (fun r => {| row_Kategori := Kategori r;
                   row_Alt_Kategori := Alt_Kategori r;
                   row_Urun_Grubu := Urun_Grubu r;
                   row_Komisyon := match Komisyon r with
                                   | Some q => Num q
                                   | None => Blank
                                   end |}) out.

Module App.

Definition repl : list (char * char) :=
  combine (lit "ğĞüÜşŞıİöÖçÇ") (lit "gGuUsSiIoOcC").

(** [_normalize_turkish] (and [_ascii_tr], which has the same body). *)
Definition _normalize_turkish (text : pystr) : pystr :=
  fold_left (fun t (on : char * char) => replace_char (fst on) [snd on] t)
            repl text.

Definition arrow : pystr := [0x20; 0x2192; 0x20].

(** The sort key [(priority, path_for_sort)] of a row, [None] for a row
    that is skipped. *)
Definition rank_of (q : pystr) (r : DataRow) : option (N * pystr) :=
  let cat := _normalize_turkish (lower (row_Kategori r)) in
  let sub := _normalize_turkish (lower (row_Alt_Kategori r)) in
  let grp := _normalize_turkish (lower (row_Urun_Grubu r)) in
  let in_cat := contains q cat in
  let in_sub := contains q sub in
  let in_grp := contains q grp in
  if negb (in_cat || in_sub || in_grp) then None
  else
    let priority := if in_cat then 0 else if in_sub then 1 else 2 in
    let path_for_sort :=
      lower (row_Kategori r ++ arrow ++ row_Alt_Kategori r ++ arrow
             ++ row_Urun_Grubu r) in
    Some (priority, path_for_sort).

(** Order of the keys [(x[0], x[1])]. *)
Definition ranked_leb (a b : N * pystr * DataRow) : bool :=
  if fst (fst a) <? fst (fst b) then true
  else if fst (fst b) <? fst (fst a) then false
  else str_leb (snd (fst a)) (snd (fst b)).

Definition search_products (rows : list DataRow) (query : pystr)
  : list DataRow :=
  let q := strip (_normalize_turkish (lower query)) in
  if is_empty q then rows
  else
    let ranked :=
      flat_map (fun r => match rank_of q r with
                         | Some (priority, path_for_sort) =>
                           [(priority, path_for_sort, r)]
                         | None => []
                         end) rows in
    map snd (sort_by ranked_leb ranked).

(** [sorted({...})]: the distinct values in ascending order. *)
Definition sorted_set (l : list pystr) : list pystr :=
  sort_by str_leb (unique_from [] l).

Definition list_categories (rows : list DataRow) : list pystr :=
  sorted_set (filter (fun x => negb (is_empty x)) (map row_Kategori rows)).

Definition list_subcategories (rows : list DataRow) (category : pystr)
  : list pystr :=
  let rows := filter (fun r => str_eqb (row_Kategori r) category) rows in
  sorted_set
    (filter (fun x => negb (is_empty x)) (map row_Alt_Kategori rows)).

Definition list_product_groups (rows : list DataRow) (category sub : pystr)
  : list pystr :=
  let rows := filter (fun r => str_eqb (row_Kategori r) category
                               && str_eqb (row_Alt_Kategori r) sub) rows in
  sorted_set (filter (fun x => negb (is_empty x)) (map row_Urun_Grubu rows)).

(** The value returned is [Blank] for Python's [None] (no row, or a row
    whose commission is the empty text, on which [float] raises). *)
Fixpoint find_commission (rows : list DataRow) (category sub group : pystr)
  : num_cell :=
  match rows with
  | [] => Blank
  | r :: rows' =>
    if str_eqb (row_Kategori r) category
       && str_eqb (row_Alt_Kategori r) sub
       && str_eqb (row_Urun_Grubu r) group
    then row_Komisyon r
    else find_commission rows' category sub group
  end.

(** The body of the route [commission_site]: the pair
    [(commission, found)]. *)
Definition commission_site (rows : list DataRow) (category sub group : pystr)
  : Q * bool :=
  match find_commission rows category sub group with
  | Num q => (q, true)
  | NaN | Blank => (0%Q, false)
  end.

(** An item of [list_pg_commissions]. *)
Record PgItem : Type := {
  productGroup : pystr;
  commissionPercent : num_cell;
  commissionText : pystr
}.

(** [val or 0.0] *)
Definition or_zero (val : num_cell) : num_cell :=
  match val with
  | Blank => Num 0
  | Num q => if Qeq_bool q 0 then Num 0 else Num q
  | NaN => NaN
  end.

(** [a > b] on floats: false as soon as one side is [NaN]. *)
Definition gt (a b : num_cell) : bool :=
  match a, b with
  | Num x, Num y => Qlt_bool y x
  | _, _ => false
  end.

Section PgCommissions.

(** [fmt]: the text [f"{float(val):.2f}%"] with "." turned into ","; the
    rendering of a float is left to the caller. *)
Variable fmt : num_cell -> pystr.

Definition pg_step (norm_q : pystr) (seen : list (pystr * PgItem))
           (r : DataRow) : list (pystr * PgItem) :=
  let pg := strip (row_Urun_Grubu r) in
  if is_empty pg then seen
  else if negb (is_empty norm_q)
          && negb (contains norm_q (_normalize_turkish (lower pg)))
  then seen
  else
    let val := row_Komisyon r in
    let item := {| productGroup := pg; commissionPercent := val;
                   commissionText := fmt val |} in
    match dict_get pg seen with
    | None => dict_set pg item seen
    | Some current =>
      if gt (or_zero val) (or_zero (commissionPercent current))
      then dict_set pg item seen
      else seen
    end.

Definition list_pg_commissions (rows : list DataRow) (q : pystr)
  : list PgItem :=
  let norm_q := if negb (is_empty q) then _normalize_turkish (lower q)
                else [] in
  let seen := fold_left (pg_step norm_q) rows [] in
  sort_by (fun a b => str_leb (lower (productGroup a))
                              (lower (productGroup b)))
          (map snd seen).

End PgCommissions.

End App.

(* ================================================================== *)
(** ** app.py: the key helpers [_ascii_tr] and [_to_camel_from_any] *)

(** [_ascii_tr]: the replacement loop of [_normalize_turkish]. *)
Definition _ascii_tr (s : pystr) : pystr :=
  fold_left (fun t (on : char * char) => replace_char (fst on) [snd on] t)
            App.repl s.

(** The class [[A-Za-z0-9]]. *)
Definition is_ascii_alnum (c : char) : bool :=
  ((0x30 <=? c) && (c <=? 0x39)) || ((0x41 <=? c) && (c <=? 0x5A))
  || ((0x61 <=? c) && (c <=? 0x7A)).

Definition starts_alnum (s : pystr) : bool :=
  match s with
  | [] => false
  | c :: _ => is_ascii_alnum c
  end.

(** [[p for p in re.split(r"[^A-Za-z0-9]+", s) if p]]: the maximal runs of
    ASCII letters and digits. *)
Fixpoint alnum_parts (s : pystr) : list pystr :=
  match s with
  | [] => []
  | c :: t =>
    if is_ascii_alnum c then
      if starts_alnum t then
        match alnum_parts t with
        | p :: ps => (c :: p) :: ps
        | [] => [[c]]
        end
      else [c] :: alnum_parts t
    else alnum_parts t
  end.

(** [str.upper] on one character of a part (an ASCII letter or digit). *)
Definition ascii_upper_char (c : char) : char :=
  if (0x61 <=? c) && (c <=? 0x7A) then c - 32 else c.

(** [str.capitalize] on a part. *)
Definition capitalize (p : pystr) : pystr :=
  match p with
  | [] => []
  | c :: t => ascii_upper_char c :: lower t
  end.

Definition _to_camel_from_any (s : pystr) : pystr :=
  let s := _ascii_tr s in
  let parts := alnum_parts (strip s) in
  match parts with
  | [] => s
  | first :: rest => lower first ++ List.concat (map capitalize rest)
  end.

(* ================================================================== *)
(** ** Auxiliary predicates for [list_pg_commissions] *)

(** The number a cell stands for in the comparison of line 454 ([NaN]
    apart): a missing value counts as 0. *)
Definition value_or_zero (val : num_cell) : Q :=
  match val with
  | Num q => q
  | NaN | Blank => 0%Q
  end.

(** A product group (stripped) that the loop does not skip. *)
Definition pg_kept (norm_q pg : pystr) : bool :=
  negb (is_empty pg)
  && (is_empty norm_q
      || contains norm_q (App._normalize_turkish (lower pg))).

(** What holds of the dictionary [seen] once the rows [done] have been
    processed. *)
Definition pg_inv (fmt : num_cell -> pystr) (norm_q : pystr)
           (done : list DataRow) (seen : list (pystr * App.PgItem)) : Prop :=
  NoDup (map fst seen)
  /\ (forall k it, In (k, it) seen ->
        App.productGroup it = k /\ pg_kept norm_q k = true
        /\ exists r, In r done /\ strip (row_Urun_Grubu r) = k
             /\ App.commissionPercent it = row_Komisyon r
             /\ App.commissionText it = fmt (row_Komisyon r))
  /\ (forall r, In r done ->
        pg_kept norm_q (strip (row_Urun_Grubu r)) = true ->
        exists it, In (strip (row_Urun_Grubu r), it) seen)
  /\ ((forall r, In r done -> row_Komisyon r <> NaN) ->
      forall k it r, In (k, it) seen -> In r done ->
        strip (row_Urun_Grubu r) = k ->
        (value_or_zero (row_Komisyon r)
         <= value_or_zero (App.commissionPercent it))%Q).

(* ================================================================== *)
(** ** Sample inputs for the service queries *)

(** Served records. *)
Definition data_sample : list DataRow :=
  to_dict_records [rec_phone_15; rec_case_10; rec_pan_8; rec_phones].

(** Served records whose product groups repeat, one row without a
    commission. *)
Definition data_groups : list DataRow :=
  [ {| row_Kategori := lit "Ev"; row_Alt_Kategori := lit "";
       row_Urun_Grubu := lit "Tava "; row_Komisyon := Num (8 # 1)%Q |};
    {| row_Kategori := lit "Ev"; row_Alt_Kategori := lit "";
       row_Urun_Grubu := lit "Çaydanlık"; row_Komisyon := Blank |};
    {| row_Kategori := lit "Mutfak"; row_Alt_Kategori := lit "";
       row_Urun_Grubu := lit "Tava"; row_Komisyon := Num (12 # 1)%Q |};
    {| row_Kategori := lit "Ev"; row_Alt_Kategori := lit "";
       row_Urun_Grubu := lit "  "; row_Komisyon := Num (30 # 1)%Q |} ].

(** A rendering of the commission text that shows nothing. *)
Definition no_text (val : num_cell) : pystr := [].

(** Served records with one key under two commissions. *)
Definition data_duplicates : list DataRow :=
  to_dict_records [rec_pan_8; rec_phone_15; rec_phone_18].

(* ================================================================== *)
(** * Theorems *)

(** ** Strings *)

Lemma str_eqb_eq (a b : pystr) : str_eqb a b = true <-> a = b.
Proof.
  revert b; induction a as [|x a IH]; intros [|y b]; simpl;
    try (split; [discriminate | discriminate]); try tauto.
  unfold char_eqb. rewrite andb_true_iff, N.eqb_eq, IH.
  split; [intros [-> ->]; reflexivity | intros H; inversion H; auto].
Qed.

Lemma str_eqb_refl (a : pystr) : str_eqb a a = true.
Proof. apply str_eqb_eq; reflexivity. Qed.

Lemma str_eqb_neq (a b : pystr) : str_eqb a b = false <-> a <> b.
Proof.
  rewrite <- str_eqb_eq. destruct (str_eqb a b); split; congruence.
Qed.

Lemma in_strs_In (x : pystr) (l : list pystr) :
  in_strs x l = true <-> In x l.
Proof.
  unfold in_strs. rewrite existsb_exists. split.
  - intros [y [Hy E]]. apply str_eqb_eq in E. subst. exact Hy.
  - intros H. exists x. split; [exact H | apply str_eqb_refl].
Qed.

Lemma forall_below (P : N -> bool) (n : nat) :
  forallb P (map N.of_nat (seq 0 n)) = true ->
  forall c, c < N.of_nat n -> P c = true.
Proof.
  intros H c Hc. rewrite forallb_forall in H. apply H.
  apply in_map_iff. exists (N.to_nat c). split.
  - apply N2Nat.id.
  - apply in_seq. lia.
Qed.

Lemma turkish_map_eq :
  turkish_map =
  [(0x131, 0x69); (0x11F, 0x67); (0xFC, 0x75); (0x15F, 0x73); (0xF6, 0x6F);
   (0xE7, 0x63); (0x130, 0x49); (0x11E, 0x47); (0xDC, 0x55); (0x15E, 0x53);
   (0xD6, 0x4F); (0xC7, 0x43)].
Proof. reflexivity. Qed.

Ltac bool_prop :=
  repeat match goal with
  | H : _ && _ = true |- _ => apply andb_true_iff in H; destruct H
  | H : _ || _ = false |- _ => apply orb_false_iff in H; destruct H
  | H : negb _ = true |- _ => apply negb_true_iff in H
  | H : negb _ = false |- _ => apply negb_false_iff in H
  | H : (_ <=? _) = true |- _ => apply N.leb_le in H
  | H : (_ <=? _) = false |- _ => apply N.leb_gt in H
  | H : (_ <? _) = true |- _ => apply N.ltb_lt in H
  | H : (_ <? _) = false |- _ => apply N.ltb_ge in H
  | H : (_ =? _) = true |- _ => apply N.eqb_eq in H
  | H : (_ =? _) = false |- _ => apply N.eqb_neq in H
  | H : _ || _ = true |- _ => apply orb_true_iff in H; destruct H
  | H : _ && _ = false |- _ => apply andb_false_iff in H; destruct H
  end.

Lemma lower_char_high (c : char) : 0x180 <= c -> lower_char c = [c].
Proof.
  intros Hc. unfold lower_char.
  repeat match goal with
  | |- (if ?b then _ else _) = _ =>
    let E := fresh "E" in
    destruct b eqn:E; [exfalso; bool_prop; lia | clear E]
  end.
  reflexivity.
Qed.

Lemma translate_char_high (c : char) :
  0x180 <= c -> translate_char turkish_map c = c.
Proof.
  intros Hc. rewrite turkish_map_eq. unfold translate_char, char_eqb.
  repeat match goal with
  | |- (if ?b then _ else _) = _ =>
    let E := fresh "E" in
    destruct b eqn:E; [exfalso; bool_prop; lia | clear E]
  end.
  reflexivity.
Qed.

Lemma char_facts_low : forall c, c < 0x180 -> char_facts c = true.
Proof.
  apply (forall_below char_facts 384). vm_compute. reflexivity.
Qed.

Lemma char_facts_all (c : char) : char_facts c = true.
Proof.
  destruct (N.lt_ge_cases c 0x180) as [Hlo|Hhi].
  - apply char_facts_low; exact Hlo.
  - unfold char_facts.
    rewrite (lower_char_high c Hhi), (translate_char_high c Hhi).
    cbn [forallb is_empty negb].
    rewrite !(translate_char_high c Hhi), ?(lower_char_high c Hhi).
    rewrite !str_eqb_refl, !N.eqb_refl.
    replace (c =? 0x6E) with false by (symmetry; apply N.eqb_neq; lia).
    replace (c =? 0x61) with false by (symmetry; apply N.eqb_neq; lia).
    destruct (is_run_char c); destruct (is_space c); reflexivity.
Qed.

Lemma char_facts_space (c : char) :
  is_space c = true ->
  lower_char c = [c] /\ translate_char turkish_map c = c.
Proof.
  intros Hs. pose proof (char_facts_all c) as H. unfold char_facts in H.
  rewrite Hs in H. bool_prop.
  split; [apply str_eqb_eq; assumption | assumption].
Qed.

Lemma char_facts_nonspace (c : char) :
  is_space c = false ->
  lower_char c <> []
  /\ forallb (fun d => negb (is_space d)) (lower_char c) = true
  /\ is_space (translate_char turkish_map c) = false.
Proof.
  intros Hs. pose proof (char_facts_all c) as H. unfold char_facts in H.
  rewrite Hs in H. bool_prop.
  repeat split; try assumption.
  destruct (lower_char c); [discriminate | discriminate].
Qed.

Lemma char_facts_fixed (c d : char) :
  In d (lower_char c) ->
  let d' := translate_char turkish_map d in
  lower_char d' = [d'] /\ translate_char turkish_map d' = d'.
Proof.
  intros Hd. pose proof (char_facts_all c) as H. unfold char_facts in H.
  bool_prop.
  match goal with
  | F : forallb _ (lower_char c) = true |- _ =>
    rewrite forallb_forall in F; specialize (F d Hd); cbv zeta in F
  end.
  bool_prop. split; [apply str_eqb_eq; assumption | assumption].
Qed.

Lemma translate_char_inv_n (c : char) :
  translate_char turkish_map c = 0x6E -> c = 0x6E.
Proof.
  intros E. pose proof (char_facts_all c) as H. unfold char_facts in H.
  rewrite E in H. cbn [N.eqb Pos.eqb] in H. bool_prop. assumption.
Qed.

Lemma translate_char_inv_a (c : char) :
  translate_char turkish_map c = 0x61 -> c = 0x61.
Proof.
  intros E. pose proof (char_facts_all c) as H. unfold char_facts in H.
  rewrite E in H. cbn [N.eqb Pos.eqb] in H. bool_prop. assumption.
Qed.

Lemma lower_char_run (c : char) : is_run_char c = true -> lower_char c = [c].
Proof.
  intros E. pose proof (char_facts_all c) as H. unfold char_facts in H.
  rewrite E in H. bool_prop. apply str_eqb_eq. assumption.
Qed.

Lemma lower_char_nonempty (c : char) : lower_char c <> [].
Proof.
  destruct (is_space c) eqn:Hs.
  - destruct (char_facts_space c Hs) as [-> _]. discriminate.
  - apply (char_facts_nonspace c Hs).
Qed.

Lemma is_space_translate (c : char) :
  is_space (translate_char turkish_map c) = is_space c.
Proof.
  destruct (is_space c) eqn:Hs.
  - destruct (char_facts_space c Hs) as [_ ->]. exact Hs.
  - apply (char_facts_nonspace c Hs).
Qed.

(** *** strip *)

Lemma lstrip_fixed (s : pystr) : starts_with_space s = false -> lstrip s = s.
Proof. destruct s as [|c t]; simpl; [reflexivity | intros ->; reflexivity]. Qed.

Lemma lstrip_no_space (s : pystr) : starts_with_space (lstrip s) = false.
Proof.
  induction s as [|c t IH]; simpl; [reflexivity|].
  destruct (is_space c) eqn:Hs; [exact IH | simpl; exact Hs].
Qed.

Lemma rstrip_fixed (s : pystr) : no_trailing_space s = true -> rstrip s = s.
Proof.
  induction s as [|c t IH]; [reflexivity|].
  intros H. cbn [rstrip]. destruct t as [|c' t'].
  - cbn in *. apply negb_true_iff in H. rewrite H. reflexivity.
  - cbn [no_trailing_space] in H. rewrite (IH H). reflexivity.
Qed.

Lemma rstrip_no_trailing (s : pystr) : no_trailing_space (rstrip s) = true.
Proof.
  induction s as [|c t IH]; [reflexivity|].
  cbn [rstrip]. destruct (rstrip t) as [|c' t'] eqn:E.
  - destruct (is_space c) eqn:Hs; simpl; [reflexivity | rewrite Hs; reflexivity].
  - exact IH.
Qed.

Lemma rstrip_head (s : pystr) :
  starts_with_space s = false -> starts_with_space (rstrip s) = false.
Proof.
  destruct s as [|c t]; [reflexivity|]. cbn [starts_with_space rstrip].
  intros Hs. destruct (rstrip t); [rewrite Hs; simpl; exact Hs | exact Hs].
Qed.

Lemma strip_head (s : pystr) : starts_with_space (strip s) = false.
Proof. apply rstrip_head, lstrip_no_space. Qed.

Lemma strip_tail (s : pystr) : no_trailing_space (strip s) = true.
Proof. apply rstrip_no_trailing. Qed.

Lemma strip_fixed (s : pystr) :
  starts_with_space s = false -> no_trailing_space s = true -> strip s = s.
Proof.
  intros H1 H2. unfold strip. rewrite (lstrip_fixed s H1).
  apply rstrip_fixed, H2.
Qed.

Lemma no_trailing_space_app (a b : pystr) :
  b <> [] -> no_trailing_space (a ++ b) = no_trailing_space b.
Proof.
  intros Hb. induction a as [|c a IH]; [reflexivity|].
  cbn [app no_trailing_space]. destruct (a ++ b) eqn:E.
  - destruct a; [simpl in E; contradiction | discriminate].
  - exact IH.
Qed.

Lemma no_trailing_space_all (l : pystr) :
  forallb (fun d => negb (is_space d)) l = true -> no_trailing_space l = true.
Proof.
  induction l as [|c t IH]; [reflexivity|].
  cbn [forallb no_trailing_space]. intros H. apply andb_true_iff in H.
  destruct H as [Hc Ht]. destruct t; [exact Hc | apply IH, Ht].
Qed.

(** *** lower, translate and re.sub keep a stripped text stripped *)

Lemma lower_nonempty (s : pystr) : s <> [] -> lower s <> [].
Proof.
  destruct s as [|c t]; [congruence|]. intros _. unfold lower. simpl.
  pose proof (lower_char_nonempty c). destruct (lower_char c);
    [contradiction | discriminate].
Qed.

Lemma lower_head (s : pystr) :
  starts_with_space s = false -> starts_with_space (lower s) = false.
Proof.
  destruct s as [|c t]; [reflexivity|]. cbn [starts_with_space]. intros Hs.
  destruct (char_facts_nonspace c Hs) as [Hne [Hall _]].
  unfold lower. simpl. destruct (lower_char c) as [|d l]; [contradiction|].
  simpl in *. apply andb_true_iff in Hall. destruct Hall as [Hd _].
  apply negb_true_iff in Hd. exact Hd.
Qed.

Lemma lower_tail (s : pystr) :
  no_trailing_space s = true -> no_trailing_space (lower s) = true.
Proof.
  induction s as [|c t IH]; [reflexivity|].
  intros H. unfold lower. cbn [flat_map]. fold (lower t).
  destruct t as [|c' t'].
  - cbn in H. apply negb_true_iff in H. simpl. rewrite app_nil_r.
    apply no_trailing_space_all, (char_facts_nonspace c H).
  - rewrite no_trailing_space_app by (apply lower_nonempty; discriminate).
    apply IH. exact H.
Qed.

Lemma translate_head (s : pystr) :
  starts_with_space (translate turkish_map s) = starts_with_space s.
Proof.
  destruct s; [reflexivity|].
  cbn [translate map starts_with_space]. apply is_space_translate.
Qed.

Lemma translate_tail (s : pystr) :
  no_trailing_space (translate turkish_map s) = no_trailing_space s.
Proof.
  induction s as [|c t IH]; [reflexivity|].
  cbn [translate map no_trailing_space]. fold (translate turkish_map t).
  destruct t as [|c' t'].
  - cbn [map]. rewrite is_space_translate. reflexivity.
  - exact IH.
Qed.

Lemma is_space_0x20 : is_space 0x20 = true.
Proof. reflexivity. Qed.

Lemma re_sub_ws_head (s : pystr) :
  starts_with_space (re_sub_ws s) = starts_with_space s.
Proof.
  induction s as [|c t IH]; [reflexivity|]. cbn [re_sub_ws starts_with_space].
  destruct (is_space c) eqn:Hs.
  - destruct (starts_with_space t) eqn:Ht; [rewrite IH; reflexivity | reflexivity].
  - simpl. exact Hs.
Qed.

Lemma re_sub_ws_nonempty (s : pystr) : s <> [] -> re_sub_ws s <> [].
Proof.
  induction s as [|c t IH]; [congruence|]. intros _. cbn [re_sub_ws].
  destruct (is_space c); [|discriminate].
  destruct (starts_with_space t) eqn:Ht; [|discriminate].
  apply IH. destruct t; [discriminate Ht | discriminate].
Qed.

Lemma re_sub_ws_tail (s : pystr) :
  no_trailing_space s = true -> no_trailing_space (re_sub_ws s) = true.
Proof.
  induction s as [|c t IH]; [reflexivity|]. intros H.
  destruct t as [|c' t'].
  - cbn in H. apply negb_true_iff in H. simpl. rewrite H. simpl.
    rewrite H. reflexivity.
  - cbn [no_trailing_space] in H. specialize (IH H).
    assert (Hne : re_sub_ws (c' :: t') <> [])
      by (apply re_sub_ws_nonempty; discriminate).
    remember (c' :: t') as t eqn:Et. clear Et H.
    cbn [re_sub_ws].
    destruct (is_space c); [destruct (starts_with_space t)|];
      try exact IH.
    + rewrite <- IH. exact (no_trailing_space_app [0x20] _ Hne).
    + rewrite <- IH. exact (no_trailing_space_app [c] _ Hne).
Qed.

Lemma re_sub_ws_collapsed (s : pystr) : collapsed (re_sub_ws s) = true.
Proof.
  induction s as [|c t IH]; [reflexivity|]. cbn [re_sub_ws].
  destruct (is_space c) eqn:Hs.
  - destruct (starts_with_space t) eqn:Ht; [exact IH|].
    cbn [collapsed]. rewrite is_space_0x20, re_sub_ws_head, Ht, IH.
    reflexivity.
  - cbn [collapsed]. rewrite Hs, IH. reflexivity.
Qed.

Lemma collapsed_fixed (s : pystr) : collapsed s = true -> re_sub_ws s = s.
Proof.
  induction s as [|c t IH]; [reflexivity|]. cbn [collapsed re_sub_ws].
  intros H. apply andb_true_iff in H. destruct H as [Hc Ht].
  rewrite (IH Ht). destruct (is_space c); [|reflexivity].
  bool_prop. subst c.
  match goal with E : starts_with_space t = false |- _ => rewrite E end.
  reflexivity.
Qed.

Lemma re_sub_ws_Forall (P : char -> Prop) (s : pystr) :
  P 0x20 -> Forall P s -> Forall P (re_sub_ws s).
Proof.
  intros H0 H. induction H as [|c t Hc Ht IH]; [constructor|].
  cbn [re_sub_ws]. destruct (is_space c);
    [destruct (starts_with_space t)|]; auto.
Qed.

Lemma re_sub_ws_no_space (s : pystr) :
  Forall (fun d => is_space d = false) (re_sub_ws s) -> re_sub_ws s = s.
Proof.
  induction s as [|c t IH]; [reflexivity|]. cbn [re_sub_ws].
  destruct (is_space c) eqn:Hs.
  - destruct (starts_with_space t) eqn:Ht.
    + intros H. exfalso. pose proof (IH H) as E. rewrite E in H.
      destruct t as [|c' t']; [discriminate|]. simpl in Ht.
      inversion H; congruence.
    + intros H. inversion H. discriminate.
  - intros H. inversion H; subst. f_equal. auto.
Qed.

Lemma lower_fixed (s : pystr) :
  Forall (fun d => lower_char d = [d]) s -> lower s = s.
Proof.
  induction 1 as [|c t Hc Ht IH]; [reflexivity|].
  unfold lower in *. simpl. rewrite Hc, IH. reflexivity.
Qed.

Lemma translate_fixed (s : pystr) :
  Forall (fun d => translate_char turkish_map d = d) s ->
  translate turkish_map s = s.
Proof.
  induction 1 as [|c t Hc Ht IH]; [reflexivity|].
  unfold translate in *. cbn [map]. rewrite Hc, IH. reflexivity.
Qed.

Lemma translate_lower_Forall (s : pystr) :
  Forall (fun d => lower_char d = [d] /\ translate_char turkish_map d = d)
         (translate turkish_map (lower s)).
Proof.
  unfold translate, lower. apply Forall_forall. intros d' Hd'.
  apply in_map_iff in Hd'. destruct Hd' as [d [<- Hd]].
  apply in_flat_map in Hd. destruct Hd as [c [_ Hc]].
  exact (char_facts_fixed c d Hc).
Qed.

(** ** normalize_text *)

Lemma lit_nan : lit "nan" = [0x6E; 0x61; 0x6E].
Proof. reflexivity. Qed.

Lemma lit_none : lit "none" = [0x6E; 0x6F; 0x6E; 0x65].
Proof. reflexivity. Qed.

Lemma lit_empty : lit "" = [].
Proof. reflexivity. Qed.

Lemma normalize_text_PyStr (s : pystr) :
  normalize_text (PyStr s) =
  if in_strs (lower (strip s)) [lit "nan"; lit "none"; lit ""] then []
  else re_sub_ws (translate turkish_map (lower (strip s))).
Proof. reflexivity. Qed.

Lemma normalize_text_empty : normalize_text (PyStr []) = [].
Proof. reflexivity. Qed.

(** The folded text is never ["nan"] unless the lowered text already was. *)
Lemma folded_not_nan (t : pystr) :
  re_sub_ws (translate turkish_map t) = lit "nan" -> t = lit "nan".
Proof.
  intros E. rewrite lit_nan in *.
  assert (Hw : re_sub_ws (translate turkish_map t) = translate turkish_map t).
  { apply re_sub_ws_no_space. rewrite E.
    repeat constructor. }
  rewrite Hw in E. unfold translate in E.
  pose proof translate_char_inv_n as Hn. pose proof translate_char_inv_a as Ha.
  remember (translate_char turkish_map) as f eqn:Ef. clear Ef Hw.
  destruct t as [|c1 [|c2 [|c3 [|c4 t]]]]; try discriminate E.
  cbn [map] in E. injection E as E1 E2 E3.
  apply Hn in E1, E3. apply Ha in E2. subst. reflexivity.
Qed.

(** A text produced by the folding steps is left unchanged by each of
    them. *)
Lemma folded_stable (t : pystr) :
  starts_with_space t = false ->
  no_trailing_space t = true ->
  let u := re_sub_ws (translate turkish_map (lower t)) in
  strip u = u /\ lower u = u /\ re_sub_ws (translate turkish_map u) = u.
Proof.
  intros Hh Ht u.
  assert (HF := translate_lower_Forall t).
  assert (HFu : Forall (fun d => lower_char d = [d]
                                 /\ translate_char turkish_map d = d) u).
  { apply re_sub_ws_Forall; [|exact HF]. split; reflexivity. }
  split; [|split].
  - apply strip_fixed.
    + unfold u. rewrite re_sub_ws_head, translate_head. apply lower_head, Hh.
    + unfold u. apply re_sub_ws_tail. rewrite translate_tail.
      apply lower_tail, Ht.
  - apply lower_fixed. eapply Forall_impl; [|exact HFu]. intros d [H _]; exact H.
  - rewrite translate_fixed.
    + apply collapsed_fixed. apply re_sub_ws_collapsed.
    + eapply Forall_impl; [|exact HFu]. intros d [_ H]; exact H.
Qed.

Lemma normalize_text_stable (x : pyval) :
  normalize_text x <> lit "none" ->
  normalize_text (PyStr (normalize_text x)) = normalize_text x.
Proof.
  destruct x as [| |s]; try (intros _; reflexivity).
  rewrite (normalize_text_PyStr s).
  set (t := lower (strip s)).
  destruct (in_strs t [lit "nan"; lit "none"; lit ""]) eqn:E;
    [intros _; reflexivity|].
  intros Hnone.
  assert (Hin : ~ In t [lit "nan"; lit "none"; lit ""]).
  { intros Hin. apply in_strs_In in Hin. congruence. }
  assert (Hh : starts_with_space (strip s) = false) by apply strip_head.
  assert (Ht : no_trailing_space (strip s) = true) by apply strip_tail.
  destruct (folded_stable (strip s) Hh Ht) as [Hs [Hl Hr]].
  fold t in Hs, Hl, Hr.
  set (u := re_sub_ws (translate turkish_map t)) in *.
  rewrite (normalize_text_PyStr u), Hs, Hl.
  destruct (in_strs u [lit "nan"; lit "none"; lit ""]) eqn:Eu; [|exact Hr].
  exfalso. apply in_strs_In in Eu.
  destruct Eu as [Eu|[Eu|[Eu|[]]]].
  - apply Hin. left. symmetry. apply folded_not_nan. symmetry. exact Eu.
  - apply Hnone. symmetry. exact Eu.
  - rewrite lit_empty in Eu. symmetry in Eu.
    assert (Hne : t <> []).
    { intros Et. apply Hin. right. right. left. rewrite lit_empty.
      symmetry. exact Et. }
    unfold u in Eu. apply (re_sub_ws_nonempty (translate turkish_map t)).
    + unfold translate. destruct t; [congruence | discriminate].
    + exact Eu.
Qed.

(** C7.  On the text "İstanbul Şöyle Çeşit" the function returns
    "i" U+0307 "stanbul soyle cesit": lowering comes before the character
    table, so the capital dotted I has already become "i" followed by the
    combining dot above (U+0307), which the table does not hold.  The
    result is therefore not made of ASCII letters and spaces only.  The
    table itself has the 12 entries of the source. *)
Theorem C7_normalize_istanbul_keeps_combining_dot :
  normalize_text (PyStr (lit "İstanbul Şöyle Çeşit"))
  = [0x69; 0x307] ++ lit "stanbul soyle cesit"
  /\ forallb is_ascii_lower_or_space
       (normalize_text (PyStr (lit "İstanbul Şöyle Çeşit"))) = false
  /\ existsb (fun c => 0x7F <? c)
       (normalize_text (PyStr (lit "İstanbul Şöyle Çeşit"))) = true
  /\ List.length turkish_map = 12%nat.
Proof. repeat split; vm_compute; reflexivity. Qed.

(** C9, as stated, fails: "nöne" normalises to "none", and "none" is one
    of the texts the function maps to the empty string. *)
Lemma C9_normalize_not_idempotent :
  ~ (forall x : pyval,
       normalize_text (PyStr (normalize_text x)) = normalize_text x).
Proof.
  intros H. specialize (H (PyStr (lit "nöne"))).
  vm_compute in H. discriminate H.
Qed.

(** C9, amended.  normalize(normalize(x)) = normalize(x) for every input
    whose normalised text is not "none". *)
Theorem C9_normalize_idempotent_unless_none (x : pyval) :
  normalize_text x <> lit "none" ->
  normalize_text (PyStr (normalize_text x)) = normalize_text x.
Proof. apply normalize_text_stable. Qed.

Lemma C9_normalize_idempotent_witness :
  normalize_text (PyStr (lit "  Akıllı   TELEFON ")) <> lit "none"
  /\ normalize_text
       (PyStr (normalize_text (PyStr (lit "  Akıllı   TELEFON "))))
     = normalize_text (PyStr (lit "  Akıllı   TELEFON ")).
Proof.
  split.
  - vm_compute. discriminate.
  - apply (C9_normalize_idempotent_unless_none
             (PyStr (lit "  Akıllı   TELEFON "))).
    vm_compute. discriminate.
Defined.

(** ** parse_commission_to_float *)

Lemma first_run_has_run_char (s r : pystr) :
  first_run s = Some r -> exists c, In c s /\ is_run_char c = true.
Proof.
  unfold first_run. induction s as [|c t IH]; [discriminate|].
  cbn [drop_while]. destruct (is_run_char c) eqn:Ec; cbn [negb].
  - intros _. exists c. split; [left; reflexivity | exact Ec].
  - intros H. destruct (IH H) as [d [Hd Ed]]. exists d.
    split; [right; exact Hd | exact Ed].
Qed.

Lemma In_lower (c : char) (s : pystr) :
  In c s -> lower_char c = [c] -> In c (lower s).
Proof.
  intros Hin E. unfold lower. apply in_flat_map. exists c.
  split; [exact Hin | rewrite E; left; reflexivity].
Qed.

(** A text holding a numeric run passes the guard of lines 82-84. *)
Lemma guard_passes (s r : pystr) :
  first_run s = Some r ->
  is_empty s || in_strs (lower s) [lit "nan"; lit "none"; lit ""] = false.
Proof.
  intros H. destruct (first_run_has_run_char s r H) as [c [Hin Ec]].
  apply orb_false_iff. split.
  - destruct s; [destruct Hin | reflexivity].
  - destruct (in_strs (lower s) [lit "nan"; lit "none"; lit ""]) eqn:E;
      [|reflexivity].
    exfalso. apply in_strs_In in E.
    pose proof (In_lower c s Hin (lower_char_run c Ec)) as Hl.
    assert (Hbad : forall l, In l [lit "nan"; lit "none"; lit ""] ->
                   forallb (fun d => negb (is_run_char d)) l = true).
    { intros l [<-|[<-|[<-|[]]]]; reflexivity. }
    specialize (Hbad _ E). rewrite forallb_forall in Hbad.
    specialize (Hbad c Hl). rewrite Ec in Hbad. discriminate.
Qed.

Lemma parse_of_run (s r : pystr) :
  first_run (strip s) = Some r ->
  parse_commission_to_float (PyStr s) =
  match py_float (fix_separators r) with
  | Some result =>
    if Qle_bool 0 (scale_correct result)
       && Qle_bool (scale_correct result) 100
    then (Some (scale_correct result), [])
    else (Some (scale_correct result), [LogAnomalous])
  | None => (None, [LogUnparseable])
  end.
Proof.
  intros H. unfold parse_commission_to_float.
  rewrite (guard_passes _ _ H), H. reflexivity.
Qed.

Lemma fst_parse_of_run (s r : pystr) :
  first_run (strip s) = Some r ->
  fst (parse_commission_to_float (PyStr s)) =
  option_map scale_correct (py_float (fix_separators r)).
Proof.
  intros H. rewrite (parse_of_run s r H).
  destruct (py_float (fix_separators r)) as [v|]; [|reflexivity].
  cbn [option_map].
  destruct (Qle_bool 0 (scale_correct v) && Qle_bool (scale_correct v) 100);
    reflexivity.
Qed.

Lemma Qlt_bool_iff (a b : Q) : Qlt_bool a b = true <-> (a < b)%Q.
Proof.
  unfold Qlt_bool. rewrite negb_true_iff. split.
  - intros H. apply Qnot_le_lt. intros Hle.
    apply Qle_bool_iff in Hle. congruence.
  - intros H. destruct (Qle_bool b a) eqn:E; [|reflexivity].
    apply Qle_bool_iff in E. exfalso. exact (Qlt_not_le _ _ H E).
Qed.

Lemma scale_correct_fraction (v : Q) :
  (0 < v)%Q -> (v <= 1)%Q -> scale_correct v = (v * 100)%Q.
Proof.
  intros H0 H1. unfold scale_correct.
  apply Qlt_bool_iff in H0. apply Qle_bool_iff in H1.
  rewrite H0, H1. reflexivity.
Qed.

Lemma scale_correct_other (v : Q) :
  ~ ((0 < v)%Q /\ (v <= 1)%Q) -> scale_correct v = v.
Proof.
  intros H. unfold scale_correct.
  destruct (Qlt_bool 0 v && Qle_bool v 1) eqn:E; [|reflexivity].
  exfalso. apply H. apply andb_true_iff in E. destruct E as [E0 E1].
  split; [apply Qlt_bool_iff, E0 | apply Qle_bool_iff, E1].
Qed.

(** C5.  When the first numeric run of the text holds both "," and ".",
    the value returned is the float of the run with every "." removed and
    every "," turned into "."; when it holds "," only, every "," is turned
    into ".".  parse("18%") = 18, parse("%18") = 18, and
    parse("1.234,56") = 1234.56, which is above 100 and is returned as it
    is, with a warning logged and no error. *)
Theorem C5_parse_separators :
  (forall s r : pystr,
     first_run (strip s) = Some r ->
     contains_char c_comma r = true ->
     contains_char c_dot r = true ->
     fst (parse_commission_to_float (PyStr s)) =
     option_map scale_correct
       (py_float (replace_char c_comma [c_dot] (replace_char c_dot [] r))))
  /\ (forall s r : pystr,
        first_run (strip s) = Some r ->
        contains_char c_comma r = true ->
        contains_char c_dot r = false ->
        fst (parse_commission_to_float (PyStr s)) =
        option_map scale_correct (py_float (replace_char c_comma [c_dot] r)))
  /\ parse_commission_to_float (PyStr (lit "18%")) = (Some (18 # 1)%Q, [])
  /\ parse_commission_to_float (PyStr (lit "%18")) = (Some (18 # 1)%Q, [])
  /\ parse_commission_to_float (PyStr (lit "1.234,56"))
     = (Some (123456 # 100)%Q, [LogAnomalous])
  /\ (100 < 123456 # 100)%Q.
Proof.
  split; [|split]; [| |repeat split].
  - intros s r Hr Hc Hd. rewrite (fst_parse_of_run s r Hr).
    unfold fix_separators. rewrite Hc, Hd. reflexivity.
  - intros s r Hr Hc Hd. rewrite (fst_parse_of_run s r Hr).
    unfold fix_separators. rewrite Hc, Hd. reflexivity.
Qed.

Lemma C5_parse_separators_witness :
  first_run (strip (lit " 1.234,56 TL")) = Some (lit "1.234,56")
  /\ contains_char c_comma (lit "1.234,56") = true
  /\ contains_char c_dot (lit "1.234,56") = true
  /\ fst (parse_commission_to_float (PyStr (lit " 1.234,56 TL")))
     = option_map scale_correct (py_float (lit "1234.56")).
Proof.
  split; [reflexivity|]. split; [reflexivity|]. split; [reflexivity|].
  exact (proj1 C5_parse_separators (lit " 1.234,56 TL") (lit "1.234,56")
           eq_refl eq_refl eq_refl).
Defined.

(** C6.  When the numeric run parses to a value v, the value returned is
    v * 100 if 0 < v <= 1 and v itself otherwise; in particular a value
    above 1 is returned unscaled, and parse("0,18") is 18. *)
Theorem C6_parse_scale :
  (forall (s r : pystr) (v : Q),
     first_run (strip s) = Some r ->
     py_float (fix_separators r) = Some v ->
     exists v' : Q,
       fst (parse_commission_to_float (PyStr s)) = Some v'
       /\ ((0 < v)%Q /\ (v <= 1)%Q -> v' = (v * 100)%Q)
       /\ (~ ((0 < v)%Q /\ (v <= 1)%Q) -> v' = v)
       /\ ((1 < v)%Q -> v' = v))
  /\ (exists v' : Q,
        parse_commission_to_float (PyStr (lit "0,18")) = (Some v', [])
        /\ (v' == 18 # 1)%Q).
Proof.
  split.
  - intros s r v Hr Hv. exists (scale_correct v).
    rewrite (fst_parse_of_run s r Hr), Hv. cbn [option_map].
    split; [reflexivity|]. split; [|split].
    + intros [H0 H1]. apply scale_correct_fraction; assumption.
    + apply scale_correct_other.
    + intros H. apply scale_correct_other. intros [_ H1].
      exact (Qlt_not_le _ _ H H1).
  - exists (1800 # 100)%Q. split; reflexivity.
Qed.

Lemma C6_parse_scale_witness :
  first_run (strip (lit "0,18")) = Some (lit "0,18")
  /\ py_float (fix_separators (lit "0,18")) = Some (18 # 100)%Q
  /\ exists v' : Q,
       fst (parse_commission_to_float (PyStr (lit "0,18"))) = Some v'
       /\ ((0 < 18 # 100)%Q /\ (18 # 100 <= 1)%Q -> v' = ((18 # 100) * 100)%Q)
       /\ (~ ((0 < 18 # 100)%Q /\ (18 # 100 <= 1)%Q) -> v' = (18 # 100)%Q)
       /\ ((1 < 18 # 100)%Q -> v' = (18 # 100)%Q).
Proof.
  split; [reflexivity|]. split; [reflexivity|].
  exact (proj1 C6_parse_scale (lit "0,18") (lit "0,18") (18 # 100)%Q
           eq_refl eq_refl).
Defined.

(** ** _normalize_to_flat4 *)

Lemma pick_None_iff (df : DataFrame) (l : list pystr) :
  _pick_first_present df l = None <->
  forall c, In c l -> ~ In c (columns df).
Proof.
  unfold _pick_first_present. split.
  - intros H c Hc Hin.
    pose proof (find_none _ _ H c Hc) as E. cbv beta in E.
    apply in_strs_In in Hin. congruence.
  - intros H. destruct (find _ l) as [c|] eqn:E; [|reflexivity].
    apply find_some in E. destruct E as [Hc Hin].
    apply in_strs_In in Hin. exfalso. exact (H c Hc Hin).
Qed.

Lemma pick_Some_In (df : DataFrame) (l : list pystr) (c : pystr) :
  _pick_first_present df l = Some c -> In c l /\ In c (columns df).
Proof.
  unfold _pick_first_present. intros E. apply find_some in E.
  destruct E as [Hc Hin]. apply in_strs_In in Hin. split; assumption.
Qed.

Lemma is_empty_true (s : pystr) : is_empty s = true <-> s = [].
Proof. destruct s; simpl; split; congruence. Qed.

(** With aliases that are not empty names, the column chosen for a field
    is falsy exactly when no alias is a column of the table. *)
Lemma picked_empty_iff (df : DataFrame) (l : list pystr) :
  ~ In [] l ->
  (is_empty (or_empty (_pick_first_present df l)) = true <->
   forall c, In c l -> ~ In c (columns df)).
Proof.
  intros Hl. rewrite <- pick_None_iff.
  destruct (_pick_first_present df l) as [c|] eqn:E; simpl.
  - apply pick_Some_In in E. destruct E as [Hc _].
    destruct c; [contradiction | split; discriminate].
  - split; reflexivity.
Qed.

Lemma normalize_raise_iff (df : DataFrame) (cands : Candidates) :
  (exists e, _normalize_to_flat4 df cands = Raise e) <->
  is_empty (or_empty (_pick_first_present df (product_group cands))) = true
  \/ (is_empty (or_empty (_pick_first_present df (category cands))) = true
      /\ is_empty (or_empty (_pick_first_present df (sub_category cands)))
         = true).
Proof.
  unfold _normalize_to_flat4.
  destruct (is_empty (or_empty (_pick_first_present df (product_group cands)))).
  - split; [intros _; left; reflexivity | intros _; eexists; reflexivity].
  - destruct (is_empty (or_empty (_pick_first_present df (category cands))));
    destruct (is_empty (or_empty (_pick_first_present df (sub_category cands))));
      cbn [andb]; split;
      try (intros _; (right; split; reflexivity) || (eexists; reflexivity));
      try (intros [e He]; discriminate He);
      try (intros [H|[H1 H2]]; discriminate).
Qed.

Lemma drop_duplicates_from_In (seen l : list Flat4) (r : Flat4) :
  In r (drop_duplicates_from seen l) -> In r l.
Proof.
  revert seen. induction l as [|x l IH]; intros seen; [intros []|].
  cbn [drop_duplicates_from]. destruct (existsb (flat4_eqb x) seen).
  - intros H. right. exact (IH _ H).
  - intros [<-|H]; [left; reflexivity | right; exact (IH _ H)].
Qed.

(** What a row of a successful reconciliation looks like. *)
Lemma normalize_ok_rows (df : DataFrame) (cands : Candidates)
      (recs : list Flat4) :
  _normalize_to_flat4 df cands = Ok recs ->
  let cat_col := or_empty (_pick_first_present df (category cands)) in
  let sub_col := or_empty (_pick_first_present df (sub_category cands)) in
  let grp_col := or_empty (_pick_first_present df (product_group cands)) in
  forall r, In r recs ->
    keep_row r = true
    /\ exists row, In row (rows df)
       /\ Urun_Grubu r = text_cell df grp_col row
       /\ ((negb (is_empty cat_col) && negb (is_empty sub_col)
            && negb (str_eqb cat_col sub_col) = true
            /\ Kategori r = text_cell df cat_col row
            /\ Alt_Kategori r = text_cell df sub_col row)
           \/ (negb (is_empty cat_col) && negb (is_empty sub_col)
               && negb (str_eqb cat_col sub_col) = false
               /\ Kategori r = text_cell df (str_or cat_col sub_col) row
               /\ Alt_Kategori r = [])).
Proof.
  unfold _normalize_to_flat4. intros H. cbv zeta.
  set (cat_col := or_empty (_pick_first_present df (category cands))) in *.
  set (sub_col := or_empty (_pick_first_present df (sub_category cands))) in *.
  set (grp_col := or_empty (_pick_first_present df (product_group cands))) in *.
  destruct (is_empty grp_col); [discriminate H|].
  destruct (is_empty cat_col && is_empty sub_col); [discriminate H|].
  injection H as <-. intros r Hr.
  apply drop_duplicates_from_In in Hr. apply filter_In in Hr.
  destruct Hr as [Hr Hk]. split; [exact Hk|].
  apply in_map_iff in Hr. destruct Hr as [[row v] [Er Hrv]].
  apply in_combine_l in Hrv. exists row. split; [exact Hrv|].
  destruct (negb (is_empty cat_col) && negb (is_empty sub_col)
            && negb (str_eqb cat_col sub_col)); subst r; cbn;
    (split; [reflexivity|]); [left | right]; repeat split.
Qed.

Lemma opt_Q_eqb_refl (a : option Q) : opt_Q_eqb a a = true.
Proof. destruct a; [apply Qeq_bool_refl | reflexivity]. Qed.

Lemma flat4_eqb_refl (r : Flat4) : flat4_eqb r r = true.
Proof.
  unfold flat4_eqb. rewrite !str_eqb_refl, opt_Q_eqb_refl. reflexivity.
Qed.

Lemma drop_duplicates_from_distinct (l seen : list Flat4) :
  ForallOrdPairs (fun a b => flat4_eqb b a = false)
                 (drop_duplicates_from seen l)
  /\ forall x, In x (drop_duplicates_from seen l) ->
               existsb (flat4_eqb x) seen = false.
Proof.
  revert seen. induction l as [|r l IH]; intros seen;
    cbn [drop_duplicates_from].
  - split; [constructor | intros x []].
  - destruct (existsb (flat4_eqb r) seen) eqn:E; [apply IH|].
    destruct (IH (r :: seen)) as [Hp Hs]. split.
    + constructor; [|exact Hp].
      apply Forall_forall. intros x Hx. specialize (Hs x Hx).
      cbn [existsb] in Hs. apply orb_false_iff in Hs. apply Hs.
    + intros x [<-|Hx]; [exact E|]. specialize (Hs x Hx).
      cbn [existsb] in Hs. apply orb_false_iff in Hs. apply Hs.
Qed.

Lemma drop_duplicates_from_covers (l seen : list Flat4) (x : Flat4) :
  In x l ->
  existsb (flat4_eqb x) seen = true
  \/ exists y, In y (drop_duplicates_from seen l) /\ flat4_eqb x y = true.
Proof.
  revert seen. induction l as [|r l IH]; intros seen; [intros []|].
  cbn [drop_duplicates_from]. intros [->|Hx].
  - destruct (existsb (flat4_eqb x) seen) eqn:E; [left; reflexivity|].
    right. exists x. split; [left; reflexivity | apply flat4_eqb_refl].
  - destruct (existsb (flat4_eqb r) seen) eqn:E; [exact (IH seen Hx)|].
    destruct (IH (r :: seen) Hx) as [H|[y [Hy Hxy]]].
    + cbn [existsb] in H. apply orb_true_iff in H. destruct H as [H|H].
      * right. exists r. split; [left; reflexivity | exact H].
      * left; exact H.
    + right. exists y. split; [right; exact Hy | exact Hxy].
Qed.

Lemma fix_scale_length (series : list (option Q)) :
  List.length (_fix_scale series) = List.length series.
Proof.
  unfold _fix_scale. destruct (quantile95 series) as [q|]; [|reflexivity].
  destruct (Qle_bool q 1); [apply length_map | reflexivity].
Qed.

Lemma combine_In_left {A B : Type} (l : list A) (l' : list B) (x : A) :
  List.length l = List.length l' -> In x l ->
  exists y, In (x, y) (combine l l').
Proof.
  revert l'. induction l as [|a l IH]; intros [|b l'] Hlen; try discriminate;
    [intros []|].
  intros [->|Hx].
  - exists b. left; reflexivity.
  - injection Hlen as Hlen. destruct (IH l' Hlen Hx) as [y Hy].
    exists y. right; exact Hy.
Qed.

Lemma reconcile_values_length (df : DataFrame) (com_col : pystr) :
  List.length
    (if negb (is_empty com_col) then
       _fix_scale
         (map (fun row => _extract_number (astype_str (cell df com_col row)))
              (rows df))
     else map (fun _ => None) (rows df))
  = List.length (rows df).
Proof.
  destruct (negb (is_empty com_col)).
  - rewrite fix_scale_length, length_map. reflexivity.
  - rewrite length_map. reflexivity.
Qed.

(** No row with a non-empty text field is lost by a successful
    reconciliation: some record carries its three text fields. *)
Lemma normalize_ok_covers (df : DataFrame) (cands : Candidates)
      (recs : list Flat4) :
  _normalize_to_flat4 df cands = Ok recs ->
  let cat_col := or_empty (_pick_first_present df (category cands)) in
  let sub_col := or_empty (_pick_first_present df (sub_category cands)) in
  let grp_col := or_empty (_pick_first_present df (product_group cands)) in
  let split := negb (is_empty cat_col) && negb (is_empty sub_col)
               && negb (str_eqb cat_col sub_col) in
  forall row, In row (rows df) ->
    let k := text_cell df (if split then cat_col else str_or cat_col sub_col)
                       row in
    let a := if split then text_cell df sub_col row else [] in
    let g := text_cell df grp_col row in
    k <> [] \/ a <> [] \/ g <> [] ->
    exists r, In r recs
      /\ Kategori r = k /\ Alt_Kategori r = a /\ Urun_Grubu r = g.
Proof.
  unfold _normalize_to_flat4.
  set (cat_col := or_empty (_pick_first_present df (category cands))).
  set (sub_col := or_empty (_pick_first_present df (sub_category cands))).
  set (grp_col := or_empty (_pick_first_present df (product_group cands))).
  set (com_col := or_empty (_pick_first_present df (commission cands))).
  destruct (is_empty grp_col); [discriminate|].
  destruct (is_empty cat_col && is_empty sub_col); [discriminate|].
  set (vals := if negb (is_empty com_col) then _ else _).
  set (F := fun rv : list pyval * option Q => _).
  intros H. injection H as <-. cbv zeta. intros row Hrow Hne.
  assert (Hlen : List.length (rows df) = List.length vals)
    by (symmetry; apply reconcile_values_length).
  destruct (combine_In_left _ _ row Hlen Hrow) as [v Hv].
  assert (HF : Kategori (F (row, v))
               = text_cell df
                   (if negb (is_empty cat_col) && negb (is_empty sub_col)
                       && negb (str_eqb cat_col sub_col)
                    then cat_col else str_or cat_col sub_col) row
               /\ Alt_Kategori (F (row, v))
                  = (if negb (is_empty cat_col) && negb (is_empty sub_col)
                        && negb (str_eqb cat_col sub_col)
                     then text_cell df sub_col row else [])
               /\ Urun_Grubu (F (row, v)) = text_cell df grp_col row).
  { unfold F.
    destruct (negb (is_empty cat_col) && negb (is_empty sub_col)
              && negb (str_eqb cat_col sub_col)); repeat split. }
  destruct HF as [Hk [Ha Hg]].
  assert (Hin : In (F (row, v))
                   (filter keep_row (map F (combine (rows df) vals)))).
  { apply filter_In. split; [apply in_map, Hv|].
    unfold keep_row. rewrite Hk, Ha, Hg.
    destruct Hne as [Hn|[Hn|Hn]];
      match type of Hn with
      | ?t <> [] => destruct t; [congruence|]
      end; cbn [is_empty negb]; rewrite ?orb_true_r; reflexivity. }
  destruct (drop_duplicates_from_covers _ [] _ Hin) as [Hx|[y [Hy Hxy]]];
    [discriminate Hx|].
  exists y. split; [exact Hy|].
  unfold flat4_eqb in Hxy.
  apply andb_true_iff in Hxy. destruct Hxy as [Hxy _].
  apply andb_true_iff in Hxy. destruct Hxy as [Hxy E3].
  apply andb_true_iff in Hxy. destruct Hxy as [E1 E2].
  apply str_eqb_eq in E1, E2, E3.
  rewrite <- E1, <- E2, <- E3. auto.
Qed.

Lemma marketplaces_aliases_nonempty :
  Forall (fun cands => ~ In [] (text_aliases cands)) marketplaces.
Proof.
  repeat constructor; intros H; vm_compute in H;
    repeat (destruct H as [H|H]; [discriminate H|]); exact H.
Qed.

(** C3.  The aliases being column names (none is the empty name),
    reconciliation raises exactly when no product-group alias is a column
    of the table, or when no category alias and no sub-category alias is
    one; and a table with none of the product-group aliases always
    raises. *)
Theorem C3_reconcile_raises (df : DataFrame) (cands : Candidates) :
  ~ In [] (text_aliases cands) ->
  ((exists e, _normalize_to_flat4 df cands = Raise e) <->
   (forall c, In c (product_group cands) -> ~ In c (columns df))
   \/ ((forall c, In c (category cands) -> ~ In c (columns df))
       /\ (forall c, In c (sub_category cands) -> ~ In c (columns df))))
  /\ ((forall c, In c (product_group cands) -> ~ In c (columns df)) ->
      _normalize_to_flat4 df cands = Raise ValueError_no_product_group).
Proof.
  intros Hne. unfold text_aliases in Hne.
  assert (Hc : ~ In [] (category cands))
    by (intros H; apply Hne; apply in_or_app; left; exact H).
  assert (Hs : ~ In [] (sub_category cands))
    by (intros H; apply Hne; apply in_or_app; right;
        apply in_or_app; left; exact H).
  assert (Hg : ~ In [] (product_group cands))
    by (intros H; apply Hne; apply in_or_app; right;
        apply in_or_app; right; exact H).
  split.
  - rewrite normalize_raise_iff.
    rewrite (picked_empty_iff df _ Hc), (picked_empty_iff df _ Hs),
            (picked_empty_iff df _ Hg).
    reflexivity.
  - intros H. apply pick_None_iff in H. unfold _normalize_to_flat4.
    rewrite H. reflexivity.
Qed.

Lemma C3_reconcile_raises_witness :
  ~ In [] (text_aliases trendyol)
  /\ _normalize_to_flat4 df_no_group trendyol
     = Raise ValueError_no_product_group.
Proof.
  assert (H : ~ In [] (text_aliases trendyol)).
  { intros H; vm_compute in H;
      repeat (destruct H as [H|H]; [discriminate H|]); exact H. }
  split; [exact H|].
  apply (proj2 (C3_reconcile_raises df_no_group trendyol H)).
  intros c Hc Hin. vm_compute in Hc, Hin.
  repeat (destruct Hc as [Hc|Hc];
          [subst c;
           repeat (destruct Hin as [Hin|Hin]; [discriminate Hin|]);
           exact Hin|]).
  exact Hc.
Defined.




(** C8.  When the category field and the sub-category field resolve to
    the same column, reconciliation succeeds (the product-group field
    being resolved); every record has an empty sub-category and takes its
    category and its product group, trimmed, from one row of the table,
    the category from the shared column; and every row of the table with
    a non-empty category or product group has such a record. *)
Theorem C8_reconcile_shared_column (df : DataFrame) (cands : Candidates)
        (c g : pystr) :
  c <> [] -> g <> [] ->
  _pick_first_present df (category cands) = Some c ->
  _pick_first_present df (sub_category cands) = Some c ->
  _pick_first_present df (product_group cands) = Some g ->
  exists recs,
    _normalize_to_flat4 df cands = Ok recs
    /\ (forall r, In r recs ->
          Alt_Kategori r = []
          /\ exists row, In row (rows df)
             /\ Kategori r = strip (astype_str (cell df c row))
             /\ Urun_Grubu r = strip (astype_str (cell df g row)))
    /\ (forall row, In row (rows df) ->
          strip (astype_str (cell df c row)) <> []
          \/ strip (astype_str (cell df g row)) <> [] ->
          exists r, In r recs
            /\ Kategori r = strip (astype_str (cell df c row))
            /\ Alt_Kategori r = []
            /\ Urun_Grubu r = strip (astype_str (cell df g row))).
Proof.
  intros Hc Hg Ec Es Eg.
  assert (Hsplit : negb (is_empty c) && negb (is_empty c)
                   && negb (str_eqb c c) = false)
    by (rewrite str_eqb_refl; apply andb_false_r).
  assert (Huse : str_or c c = c) by (unfold str_or; destruct c; reflexivity).
  destruct (_normalize_to_flat4 df cands) as [recs|e] eqn:E.
  - exists recs. split; [reflexivity|]. split.
    + intros r Hr.
      pose proof (normalize_ok_rows df cands recs E r Hr) as H.
      cbv zeta in H. rewrite Ec, Es, Eg in H. cbn [or_empty] in H.
      destruct H as [_ [row [Hrow [Hu H]]]].
      rewrite Hsplit, Huse in H.
      destruct H as [[H _]|[_ [Hk Ha]]]; [discriminate H|].
      split; [exact Ha|]. exists row. split; [exact Hrow|].
      split; [exact Hk | exact Hu].
    + intros row Hrow Hne.
      pose proof (normalize_ok_covers df cands recs E row Hrow) as H.
      cbv zeta in H. rewrite Ec, Es, Eg in H. cbn [or_empty] in H.
      rewrite Hsplit, Huse in H. apply H.
      destruct Hne as [Hn|Hn]; [left | right; right]; exact Hn.
  - exfalso.
    assert (Hr : exists e, _normalize_to_flat4 df cands = Raise e)
      by (exists e; exact E).
    apply normalize_raise_iff in Hr. rewrite Ec, Eg in Hr.
    cbn [or_empty] in Hr.
    destruct c; [congruence|]. destruct g; [congruence|].
    destruct Hr as [Hr|[Hr _]]; discriminate Hr.
Qed.

Lemma C8_reconcile_shared_column_witness :
  lit "Kategori" <> [] /\ lit "Ürün Grubu" <> []
  /\ _pick_first_present df_flat_category (category trendyol)
     = Some (lit "Kategori")
  /\ _pick_first_present df_flat_category (sub_category trendyol)
     = Some (lit "Kategori")
  /\ _pick_first_present df_flat_category (product_group trendyol)
     = Some (lit "Ürün Grubu")
  /\ _normalize_to_flat4 df_flat_category trendyol
     = Ok [mk_row "Elektronik" "" "Telefon" (Some (18 # 1)%Q);
           mk_row "Ev" "" "Tava" (Some (8 # 1)%Q)]
  /\ exists recs,
       _normalize_to_flat4 df_flat_category trendyol = Ok recs
       /\ (forall r, In r recs ->
             Alt_Kategori r = []
             /\ exists row, In row (rows df_flat_category)
                /\ Kategori r
                   = strip (astype_str (cell df_flat_category
                                             (lit "Kategori") row))
                /\ Urun_Grubu r
                   = strip (astype_str (cell df_flat_category
                                             (lit "Ürün Grubu") row)))
       /\ (forall row, In row (rows df_flat_category) ->
             strip (astype_str (cell df_flat_category (lit "Kategori") row))
             <> []
             \/ strip (astype_str (cell df_flat_category
                                        (lit "Ürün Grubu") row)) <> [] ->
             exists r, In r recs
               /\ Kategori r
                  = strip (astype_str (cell df_flat_category
                                            (lit "Kategori") row))
               /\ Alt_Kategori r = []
               /\ Urun_Grubu r
                  = strip (astype_str (cell df_flat_category
                                            (lit "Ürün Grubu") row))).
Proof.
  assert (H1 : lit "Kategori" <> []) by (vm_compute; discriminate).
  assert (H2 : lit "Ürün Grubu" <> []) by (vm_compute; discriminate).
  repeat (split; [first [exact H1 | exact H2 | reflexivity]|]).
  exact (C8_reconcile_shared_column df_flat_category trendyol
           (lit "Kategori") (lit "Ürün Grubu") H1 H2
           eq_refl eq_refl eq_refl).
Defined.

(** The commission helpers of app.py differ from the parser above:
    [_extract_number] turns "," into "." without removing ".", and
    [_fix_scale] scales a column as a whole, by its 95th percentile. *)
Example extract_number_keeps_dots :
  _extract_number (lit "1.234,56") = Some (1234 # 1000)%Q.
Proof. reflexivity. Qed.

Example fix_scale_is_column_wise :
  _fix_scale [Some (5 # 10)%Q; Some (18 # 1)%Q]
  = [Some (5 # 10)%Q; Some (18 # 1)%Q]
  /\ _fix_scale [Some (5 # 10)%Q; Some (18 # 100)%Q]
     = [Some ((5 # 10) * 100)%Q; Some ((18 # 100) * 100)%Q].
Proof. split; reflexivity. Qed.

Example reconcile_flat_category :
  _normalize_to_flat4 df_flat_category trendyol
  = Ok [mk_row "Elektronik" "" "Telefon" (Some (18 # 1)%Q);
        mk_row "Ev" "" "Tava" (Some (8 # 1)%Q)].
Proof. vm_compute. reflexivity. Qed.

(** ** get_best_match *)

Lemma Qmax_bool_l (x y : Q) : (x <= Qmax_bool x y)%Q.
Proof.
  unfold Qmax_bool. destruct (Qle_bool x y) eqn:E.
  - apply Qle_bool_iff. exact E.
  - apply Qle_refl.
Qed.

Lemma Qmax_bool_r (x y : Q) : (y <= Qmax_bool x y)%Q.
Proof.
  unfold Qmax_bool. destruct (Qle_bool x y) eqn:E.
  - apply Qle_refl.
  - apply Qlt_le_weak. apply Qlt_bool_iff. unfold Qlt_bool. rewrite E.
    reflexivity.
Qed.

Lemma Qmax_bool_cases (x y : Q) : Qmax_bool x y = x \/ Qmax_bool x y = y.
Proof. unfold Qmax_bool. destruct (Qle_bool x y); auto. Qed.

Lemma fold_opt_max_upper (l : list (option Q)) (c : Q) :
  In (Some c) l ->
  exists m, fold_right opt_max None l = Some m /\ (c <= m)%Q.
Proof.
  induction l as [|a l IH]; [intros []|].
  cbn [fold_right]. intros [->|Hin].
  - destruct (fold_right opt_max None l) as [y|]; cbn [opt_max].
    + exists (Qmax_bool c y). split; [reflexivity | apply Qmax_bool_l].
    + exists c. split; [reflexivity | apply Qle_refl].
  - destruct (IH Hin) as [m [E Hm]]. rewrite E.
    destruct a as [x|]; cbn [opt_max].
    + exists (Qmax_bool x m). split; [reflexivity|].
      eapply Qle_trans; [exact Hm | apply Qmax_bool_r].
    + exists m. split; [reflexivity | exact Hm].
Qed.

Lemma fold_opt_max_attained (l : list (option Q)) (m : Q) :
  fold_right opt_max None l = Some m -> In (Some m) l.
Proof.
  revert m. induction l as [|a l IH]; intros m; [discriminate|].
  cbn [fold_right].
  destruct a as [x|], (fold_right opt_max None l) as [y|]; cbn [opt_max];
    intros E.
  - injection E as <-. destruct (Qmax_bool_cases x y) as [->| ->].
    + left; reflexivity.
    + right. apply IH. reflexivity.
  - left. exact E.
  - right. apply IH. exact E.
  - discriminate E.
Qed.

Lemma same_key_iff (a b : Flat4) :
  same_key a b = true <->
  Kategori a = Kategori b /\ Alt_Kategori a = Alt_Kategori b
  /\ Urun_Grubu a = Urun_Grubu b.
Proof.
  unfold same_key. rewrite !andb_true_iff, !str_eqb_eq. tauto.
Qed.

Lemma same_key_refl (a : Flat4) : same_key a a = true.
Proof. apply same_key_iff. auto. Qed.

Lemma same_key_sym (a b : Flat4) : same_key a b = same_key b a.
Proof.
  destruct (same_key a b) eqn:E1, (same_key b a) eqn:E2; try reflexivity.
  - apply same_key_iff in E1. destruct E1 as [? [? ?]].
    assert (same_key b a = true) by (apply same_key_iff; auto). congruence.
  - apply same_key_iff in E2. destruct E2 as [? [? ?]].
    assert (same_key a b = true) by (apply same_key_iff; auto). congruence.
Qed.

Lemma same_key_trans (a b c : Flat4) :
  same_key a b = true -> same_key b c = true -> same_key a c = true.
Proof.
  rewrite !same_key_iff. intros [-> [-> ->]] [-> [-> ->]]. auto.
Qed.

(** The maximum of a group bounds every commission of the group and is
    one of them. *)
Lemma group_max_upper (results : list Flat4) (k r : Flat4) (c : Q) :
  In r results -> same_key k r = true -> Komisyon r = Some c ->
  exists m, group_max results k = Some m /\ (c <= m)%Q.
Proof.
  intros Hin Hk Hc. unfold group_max. apply fold_opt_max_upper.
  rewrite <- Hc. apply in_map. apply filter_In. split; assumption.
Qed.

Lemma group_max_attained (results : list Flat4) (k : Flat4) (m : Q) :
  group_max results k = Some m ->
  exists r, In r results /\ same_key k r = true /\ Komisyon r = Some m.
Proof.
  unfold group_max. intros H. apply fold_opt_max_attained in H.
  apply in_map_iff in H. destruct H as [r [Hc Hr]].
  apply filter_In in Hr. destruct Hr as [Hin Hk].
  exists r. auto.
Qed.

Lemma group_max_key (results : list Flat4) (k k' : Flat4) :
  same_key k k' = true -> group_max results k = group_max results k'.
Proof.
  intros H. unfold group_max. f_equal. f_equal.
  apply filter_ext. intros r.
  destruct (same_key k' r) eqn:E.
  - exact (same_key_trans _ _ _ H E).
  - destruct (same_key k r) eqn:E'; [|reflexivity].
    rewrite same_key_sym in H. rewrite (same_key_trans _ _ _ H E') in E.
    discriminate E.
Qed.

Lemma group_keys_from_covers (l seen : list Flat4) (r : Flat4) :
  In r l ->
  existsb (same_key r) seen = true
  \/ exists k, In k (group_keys_from seen l) /\ same_key k r = true.
Proof.
  revert seen. induction l as [|x l IH]; intros seen; [intros []|].
  cbn [group_keys_from]. intros [->|Hin].
  - destruct (existsb (same_key r) seen) eqn:E; [left; reflexivity|].
    right. exists r. split; [left; reflexivity | apply same_key_refl].
  - destruct (existsb (same_key x) seen) eqn:E.
    + exact (IH seen Hin).
    + destruct (IH (x :: seen) Hin) as [H|[k [Hk Hs]]].
      * cbn [existsb] in H. apply orb_true_iff in H. destruct H as [H|H].
        -- right. exists x. split; [left; reflexivity|].
           rewrite same_key_sym. exact H.
        -- left. exact H.
      * right. exists k. split; [right; exact Hk | exact Hs].
Qed.

Lemma group_keys_from_In (l seen : list Flat4) (k : Flat4) :
  In k (group_keys_from seen l) -> In k l.
Proof.
  revert seen. induction l as [|x l IH]; intros seen; [intros []|].
  cbn [group_keys_from]. destruct (existsb (same_key x) seen).
  - intros H. right. exact (IH _ H).
  - intros [<-|H]; [left; reflexivity | right; exact (IH _ H)].
Qed.

Lemma insert_key_In (x y : Flat4) (l : list Flat4) :
  In x (insert_key y l) <-> x = y \/ In x l.
Proof.
  induction l as [|z l IH]; cbn [insert_key].
  - simpl. intuition congruence.
  - destruct (key_leb y z); simpl in *; intuition congruence.
Qed.

Lemma sorted_keys_In (x : Flat4) (l : list Flat4) :
  In x (fold_right insert_key [] l) <-> In x l.
Proof.
  induction l as [|y l IH]; [reflexivity|].
  cbn [fold_right]. rewrite insert_key_In, IH. simpl. intuition congruence.
Qed.

Lemma insert_desc_In (x y : Flat4) (l : list Flat4) :
  In x (insert_desc y l) <-> x = y \/ In x l.
Proof.
  induction l as [|z l IH]; cbn [insert_desc].
  - simpl. intuition congruence.
  - destruct (comm_geb (Komisyon y) (Komisyon z)); simpl in *;
      intuition congruence.
Qed.

Lemma sort_values_desc_In (x : Flat4) (l : list Flat4) :
  In x (sort_values_desc l) <-> In x l.
Proof.
  unfold sort_values_desc. induction l as [|y l IH]; [reflexivity|].
  cbn [fold_right]. rewrite insert_desc_In, IH. simpl. intuition congruence.
Qed.

Lemma comm_geb_refl (a : option Q) : comm_geb a a = true.
Proof.
  destruct a as [x|]; [|reflexivity]. apply Qle_bool_iff, Qle_refl.
Qed.

Lemma comm_geb_total (a b : option Q) :
  comm_geb a b = false -> comm_geb b a = true.
Proof.
  destruct a as [x|], b as [y|]; cbn; try congruence.
  intros H. apply Qle_bool_iff. apply Qlt_le_weak.
  apply Qlt_bool_iff. unfold Qlt_bool. rewrite H. reflexivity.
Qed.

Lemma comm_geb_trans (a b c : option Q) :
  comm_geb a b = true -> comm_geb b c = true -> comm_geb a c = true.
Proof.
  destruct a as [x|], b as [y|], c as [z|]; cbn; try congruence.
  rewrite !Qle_bool_iff. intros H1 H2. eapply Qle_trans; eassumption.
Qed.

(** The first row of the sorted table comes no later than any row. *)
Lemma sort_values_desc_head (l : list Flat4) :
  l <> [] ->
  exists g, hd_error (sort_values_desc l) = Some g
    /\ In g l
    /\ forall x, In x l -> comm_geb (Komisyon g) (Komisyon x) = true.
Proof.
  unfold sort_values_desc. induction l as [|x l IH]; [congruence|].
  intros _. cbn [fold_right]. destruct l as [|x' l'].
  - exists x. cbn. split; [reflexivity|]. split; [left; reflexivity|].
    intros y [<-|[]]. apply comm_geb_refl.
  - destruct IH as [g [Eg [Hg Hall]]]; [discriminate|].
    remember (x' :: l') as l eqn:El. clear El.
    destruct (fold_right insert_desc [] l) as [|y rest] eqn:Es;
      [discriminate Eg|].
    cbn in Eg. injection Eg as ->. cbn [insert_desc].
    destruct (comm_geb (Komisyon x) (Komisyon g)) eqn:E.
    + exists x. split; [reflexivity|]. split; [left; reflexivity|].
      intros z [<-|Hz]; [apply comm_geb_refl|].
      eapply comm_geb_trans; [exact E | exact (Hall z Hz)].
    + exists g. split; [reflexivity|]. split; [right; exact Hg|].
      intros z [<-|Hz]; [apply comm_geb_total; exact E | exact (Hall z Hz)].
Qed.

Lemma groupby_max_In (results : list Flat4) (g : Flat4) :
  In g (groupby_max results) <->
  exists k, In k (group_keys_from [] results)
    /\ g = {| Kategori := Kategori k; Alt_Kategori := Alt_Kategori k;
              Urun_Grubu := Urun_Grubu k;
              Komisyon := group_max results k |}.
Proof.
  unfold groupby_max. rewrite in_map_iff. split.
  - intros [k [E Hk]]. exists k.
    apply (proj1 (sorted_keys_In _ _)) in Hk.
    split; [exact Hk | symmetry; exact E].
  - intros [k [Hk E]]. exists k.
    split; [symmetry; exact E | apply sorted_keys_In, Hk].
Qed.

Lemma best_match_is_group_max (results : list Flat4) :
  results <> [] ->
  exists g,
    get_best_match results = Some g
    /\ (exists r, In r results /\ same_key g r = true)
    /\ Komisyon g = group_max results g
    /\ (forall g', In g' (groupby_max results) ->
          comm_geb (Komisyon g) (Komisyon g') = true).
Proof.
  intros Hne.
  assert (Hg : groupby_max results <> []).
  { destruct results as [|r0 rest]; [congruence|].
    destruct (group_keys_from_covers (r0 :: rest) [] r0 (or_introl eq_refl))
      as [H|[k [Hk _]]]; [discriminate H|].
    intros E.
    assert (Hin : In {| Kategori := Kategori k;
                        Alt_Kategori := Alt_Kategori k;
                        Urun_Grubu := Urun_Grubu k;
                        Komisyon := group_max (r0 :: rest) k |}
                     (groupby_max (r0 :: rest)))
      by (apply groupby_max_In; exists k; auto).
    rewrite E in Hin. destruct Hin. }
  destruct (sort_values_desc_head _ Hg) as [g [Eg [Hin Hall]]].
  exists g. split.
  - unfold get_best_match. destruct results; [congruence | exact Eg].
  - apply groupby_max_In in Hin. destruct Hin as [k [Hk ->]].
    split; [|split].
    + exists k. split; [exact (group_keys_from_In _ _ _ Hk)|].
      apply same_key_iff. auto.
    + cbn [Komisyon]. apply group_max_key. apply same_key_iff. auto.
    + exact Hall.
Qed.

(** C1.  For a non-empty result set the function returns a group of the
    result set whose commission is the maximum of the commissions observed
    under its (category, sub-category, product group) key (it bounds each
    of them and is one of them) and is at least every commission of the
    result set; for two records of one key with commissions 15 and 18, in
    either order, the commission returned is 18. *)
Theorem C1_best_match_is_group_maximum :
  (forall results : list Flat4,
     results <> [] ->
     exists g,
       get_best_match results = Some g
       /\ (exists r, In r results /\ same_key g r = true)
       /\ Komisyon g = group_max results g
       /\ (forall m, Komisyon g = Some m ->
             exists r, In r results /\ same_key g r = true
                       /\ Komisyon r = Some m)
       /\ (forall r c, In r results -> Komisyon r = Some c ->
             exists m, Komisyon g = Some m /\ (c <= m)%Q))
  /\ get_best_match [rec_phone_15; rec_phone_18] = Some rec_phone_18
  /\ get_best_match [rec_phone_18; rec_phone_15] = Some rec_phone_18
  /\ get_best_match [rec_case_10; rec_phone_15; rec_pan_8; rec_phone_18]
     = Some rec_phone_18.
Proof.
  split; [|repeat split].
  intros results Hne.
  destruct (best_match_is_group_max results Hne) as [g [Eg [Hr [Hm Hall]]]].
  exists g. split; [exact Eg|]. split; [exact Hr|]. split; [exact Hm|].
  split.
  - intros m E. rewrite Hm in E. exact (group_max_attained _ _ _ E).
  - intros r c Hin Hc.
    destruct (group_keys_from_covers results [] r Hin)
      as [H|[k [Hk Hs]]]; [discriminate H|].
    destruct (group_max_upper results k r c Hin Hs Hc) as [m' [Em' Hle]].
    assert (Hg' : In {| Kategori := Kategori k;
                        Alt_Kategori := Alt_Kategori k;
                        Urun_Grubu := Urun_Grubu k;
                        Komisyon := group_max results k |}
                     (groupby_max results))
      by (apply groupby_max_In; exists k; auto).
    specialize (Hall _ Hg'). cbn [Komisyon] in Hall. rewrite Em' in Hall.
    destruct (Komisyon g) as [m|]; [|discriminate Hall].
    exists m. split; [reflexivity|].
    cbn in Hall. apply Qle_bool_iff in Hall.
    eapply Qle_trans; eassumption.
Qed.

Lemma C1_best_match_witness :
  [rec_phone_15; rec_phone_18; rec_pan_8] <> []
  /\ exists g,
       get_best_match [rec_phone_15; rec_phone_18; rec_pan_8] = Some g
       /\ (exists r, In r [rec_phone_15; rec_phone_18; rec_pan_8]
                     /\ same_key g r = true)
       /\ Komisyon g = group_max [rec_phone_15; rec_phone_18; rec_pan_8] g
       /\ (forall m, Komisyon g = Some m ->
             exists r, In r [rec_phone_15; rec_phone_18; rec_pan_8]
                       /\ same_key g r = true /\ Komisyon r = Some m)
       /\ (forall r c, In r [rec_phone_15; rec_phone_18; rec_pan_8] ->
             Komisyon r = Some c ->
             exists m, Komisyon g = Some m /\ (c <= m)%Q).
Proof.
  assert (H : [rec_phone_15; rec_phone_18; rec_pan_8] <> [])
    by discriminate.
  split; [exact H|].
  exact (proj1 C1_best_match_is_group_maximum
           [rec_phone_15; rec_phone_18; rec_pan_8] H).
Defined.

(** ** search_products *)

Lemma filter_nil_iff {A : Type} (f : A -> bool) (l : list A) :
  filter f l = [] <-> forall x, In x l -> f x = false.
Proof.
  induction l as [|a l IH]; simpl.
  - split; [intros _ x [] | reflexivity].
  - destruct (f a) eqn:E.
    + split; [discriminate|]. intros H.
      specialize (H a (or_introl eq_refl)). congruence.
    + rewrite IH. split.
      * intros H x [<-|Hx]; [exact E | exact (H x Hx)].
      * intros H x Hx. apply H. right. exact Hx.
Qed.

Lemma df_empty_true {A : Type} (l : list A) : df_empty l = true <-> l = [].
Proof. destruct l; simpl; split; congruence. Qed.






Lemma contains_nil (s : pystr) : contains [] s = true.
Proof. destruct s; reflexivity. Qed.

Lemma filter_true {A : Type} (l : list A) : filter (fun _ => true) l = l.
Proof.
  induction l as [|x l IH]; [reflexivity|]. cbn [filter]. rewrite IH.
  reflexivity.
Qed.

(** The pattern [\b\b] matches where the text has a word boundary, that
    is, in every text that holds a word character. *)
Lemma word_search_nil (prev : option char) (s : pystr) :
  word_search [] prev s = is_word_opt prev || existsb is_word s.
Proof.
  revert prev. induction s as [|c t IH]; intros prev.
  - cbn [word_search starts_with last_or List.length skipn hd_error existsb].
    unfold at_boundary. cbn [is_word_opt].
    destruct (is_word_opt prev); reflexivity.
  - cbn [word_search]. rewrite IH.
    cbn [starts_with last_or List.length skipn hd_error existsb].
    unfold at_boundary. cbn [is_word_opt].
    destruct (is_word_opt prev); destruct (is_word c); reflexivity.
Qed.

(** What the masks test for a normalised query other than "none": the
    second normalisation of [create_search_pattern] changes nothing. *)
Lemma masks_normalized (query : pystr) (r : Flat4) :
  normalize_text (PyStr query) <> lit "none" ->
  mask_exact (normalize_text (PyStr query)) r
  = word_search (normalize_text (PyStr query)) None (_urun_grubu_norm r)
  /\ mask_partial (normalize_text (PyStr query)) r
     = contains (normalize_text (PyStr query)) (_urun_grubu_norm r)
  /\ mask_category (normalize_text (PyStr query)) r
     = contains (normalize_text (PyStr query)) (_kategori_norm r)
       || contains (normalize_text (PyStr query)) (_alt_kategori_norm r)
  /\ broad_mask (normalize_text (PyStr query)) r
     = contains (normalize_text (PyStr query)) (_kategori_norm r)
       || contains (normalize_text (PyStr query)) (_alt_kategori_norm r)
       || contains (normalize_text (PyStr query)) (_urun_grubu_norm r).
Proof.
  intros H.
  unfold mask_exact, mask_partial, mask_category, broad_mask,
         create_search_pattern, str_contains.
  rewrite (normalize_text_stable _ H). repeat split.
Qed.

(** For the normalised query "none" the patterns are built from the empty
    text. *)
Lemma masks_none (r : Flat4) :
  mask_exact (lit "none") r = existsb is_word (_urun_grubu_norm r)
  /\ mask_partial (lit "none") r = true
  /\ mask_category (lit "none") r = true.
Proof.
  unfold mask_exact, mask_partial, mask_category, create_search_pattern,
         str_contains.
  change (normalize_text (PyStr (lit "none"))) with (@nil char).
  rewrite word_search_nil, !contains_nil. repeat split.
Qed.

(** The tiers of [search_products] in the order of the code: each one is
    returned when it is the first with a row (the fourth: when the
    similarity ranking proposes a name). *)
Lemma search_products_tiers
      (gcm : pystr -> list pystr -> N -> Q -> list pystr)
      (df : list Flat4) (query : pystr) :
  normalize_text (PyStr query) <> [] ->
  (filter (mask_exact (normalize_text (PyStr query))) df <> [] ->
   search_products gcm df query
   = filter (mask_exact (normalize_text (PyStr query))) df)
  /\ (filter (mask_exact (normalize_text (PyStr query))) df = [] ->
      filter (mask_partial (normalize_text (PyStr query))) df <> [] ->
      search_products gcm df query
      = filter (mask_partial (normalize_text (PyStr query))) df)
  /\ (filter (mask_exact (normalize_text (PyStr query))) df = [] ->
      filter (mask_partial (normalize_text (PyStr query))) df = [] ->
      filter (mask_category (normalize_text (PyStr query))) df <> [] ->
      search_products gcm df query
      = filter (mask_category (normalize_text (PyStr query))) df)
  /\ (filter (mask_exact (normalize_text (PyStr query))) df = [] ->
      filter (mask_partial (normalize_text (PyStr query))) df = [] ->
      filter (mask_category (normalize_text (PyStr query))) df = [] ->
      fuzzy_matches gcm df query <> [] ->
      search_products gcm df query = filter (mask_fuzzy gcm df query) df)
  /\ (filter (mask_exact (normalize_text (PyStr query))) df = [] ->
      filter (mask_partial (normalize_text (PyStr query))) df = [] ->
      filter (mask_category (normalize_text (PyStr query))) df = [] ->
      fuzzy_matches gcm df query = [] ->
      search_products gcm df query
      = filter (broad_mask (normalize_text (PyStr query))) df).
Proof.
  intros Hq. unfold search_products.
  destruct (is_empty (normalize_text (PyStr query))) eqn:Ee;
    [apply is_empty_true in Ee; congruence|].
  split; [|split; [|split; [|split]]].
  - intros H1.
    destruct (filter (mask_exact (normalize_text (PyStr query))) df);
      [congruence | reflexivity].
  - intros H1 H2. rewrite H1. cbn [df_empty negb].
    destruct (filter (mask_partial (normalize_text (PyStr query))) df);
      [congruence | reflexivity].
  - intros H1 H2 H3. rewrite H1, H2. cbn [df_empty negb].
    destruct (filter (mask_category (normalize_text (PyStr query))) df);
      [congruence | reflexivity].
  - intros H1 H2 H3 H4. rewrite H1, H2, H3. cbn [df_empty negb].
    destruct (fuzzy_matches gcm df query); [congruence | reflexivity].
  - intros H1 H2 H3 H4. rewrite H1, H2, H3, H4. cbn [df_empty negb].
    destruct (filter (broad_mask (normalize_text (PyStr query))) df);
      reflexivity.
Qed.

(** A letter of any script is a word character, so no word boundary
    separates it from a digit. *)
Example word_boundary_any_script :
  word_search (lit "10") None (lit "10Ω") = false
  /\ word_search (lit "10") None (lit "a 10 b") = true.
Proof. split; vm_compute; reflexivity. Qed.




(** C10.  The broad mask is the union of the category mask and the
    partial mask; when the first four tiers produce no row the broad tier
    produces none and the search returns no row; a non-empty search result
    is the result of one of the first four tiers. *)
Theorem C10_broad_tier_never_contributes :
  (forall (query_norm : pystr) (r : Flat4),
     broad_mask query_norm r
     = mask_category query_norm r || mask_partial query_norm r)
  /\ (forall (gcm : pystr -> list pystr -> N -> Q -> list pystr)
             (df : list Flat4) (query : pystr),
        filter (mask_exact (normalize_text (PyStr query))) df = [] ->
        filter (mask_partial (normalize_text (PyStr query))) df = [] ->
        filter (mask_category (normalize_text (PyStr query))) df = [] ->
        filter (mask_fuzzy gcm df query) df = [] ->
        filter (broad_mask (normalize_text (PyStr query))) df = []
        /\ search_products gcm df query = [])
  /\ (forall (gcm : pystr -> list pystr -> N -> Q -> list pystr)
             (df : list Flat4) (query : pystr),
        search_products gcm df query <> [] ->
        search_products gcm df query
        = filter (mask_exact (normalize_text (PyStr query))) df
        \/ search_products gcm df query
           = filter (mask_partial (normalize_text (PyStr query))) df
        \/ search_products gcm df query
           = filter (mask_category (normalize_text (PyStr query))) df
        \/ search_products gcm df query = filter (mask_fuzzy gcm df query) df).
Proof.
  assert (Hmask : forall query_norm r,
             broad_mask query_norm r
             = mask_category query_norm r || mask_partial query_norm r)
    by reflexivity.
  assert (Hbroad : forall df qn,
             filter (mask_partial qn) df = [] ->
             filter (mask_category qn) df = [] ->
             filter (broad_mask qn) df = []).
  { intros df qn Hp Hc. rewrite filter_nil_iff in *. intros x Hx.
    rewrite Hmask, (Hp x Hx), (Hc x Hx). reflexivity. }
  split; [exact Hmask|]. split.
  - intros gcm df query He Hp Hc Hf.
    pose proof (Hbroad df _ Hp Hc) as Hb. split; [exact Hb|].
    unfold search_products. rewrite He, Hp, Hc, Hf, Hb. cbn [df_empty negb].
    destruct (is_empty (normalize_text (PyStr query))); [reflexivity|].
    destruct (negb (df_empty (fuzzy_matches gcm df query))); reflexivity.
  - intros gcm df query. unfold search_products.
    destruct (is_empty (normalize_text (PyStr query))); [congruence|].
    destruct (filter (mask_exact (normalize_text (PyStr query))) df)
      as [|x1 l1] eqn:E1; cbn [df_empty negb]; [|intros _; left; reflexivity].
    destruct (filter (mask_partial (normalize_text (PyStr query))) df)
      as [|x2 l2] eqn:E2; cbn [df_empty negb];
      [|intros _; right; left; reflexivity].
    destruct (filter (mask_category (normalize_text (PyStr query))) df)
      as [|x3 l3] eqn:E3; cbn [df_empty negb];
      [|intros _; right; right; left; reflexivity].
    destruct (negb (df_empty (fuzzy_matches gcm df query)));
      [intros _; right; right; right; reflexivity|].
    rewrite (Hbroad df _ E2 E3). cbn [df_empty negb]. congruence.
Qed.

Lemma C10_broad_tier_never_contributes_witness :
  filter (mask_exact (normalize_text (PyStr (lit "zzz"))))
         [rec_phone_15; rec_pan_8] = []
  /\ filter (mask_partial (normalize_text (PyStr (lit "zzz"))))
            [rec_phone_15; rec_pan_8] = []
  /\ filter (mask_category (normalize_text (PyStr (lit "zzz"))))
            [rec_phone_15; rec_pan_8] = []
  /\ filter (mask_fuzzy no_close_matches [rec_phone_15; rec_pan_8] (lit "zzz"))
            [rec_phone_15; rec_pan_8] = []
  /\ filter (broad_mask (normalize_text (PyStr (lit "zzz"))))
            [rec_phone_15; rec_pan_8] = []
  /\ search_products no_close_matches [rec_phone_15; rec_pan_8] (lit "zzz")
     = [].
Proof.
  do 4 (split; [reflexivity|]).
  exact (proj1 (proj2 C10_broad_tier_never_contributes)
           no_close_matches [rec_phone_15; rec_pan_8] (lit "zzz")
           eq_refl eq_refl eq_refl eq_refl).
Defined.

(* ================================================================== *)
(** * Further properties of the code *)

(** ** Sorting and dictionaries *)

Section SortByFacts.

Context {A : Type} (leb : A -> A -> bool).

Lemma insert_by_perm (x : A) (l : list A) :
  Permutation (insert_by leb x l) (x :: l).
Proof.
  induction l as [|y l IH]; cbn [insert_by]; [reflexivity|].
  destruct (leb x y); [reflexivity|].
  rewrite IH. apply perm_swap.
Qed.

Lemma sort_by_perm (l : list A) : Permutation (sort_by leb l) l.
Proof.
  unfold sort_by. induction l as [|x l IH]; cbn [fold_right]; [reflexivity|].
  rewrite insert_by_perm. constructor. exact IH.
Qed.

Lemma sort_by_In (x : A) (l : list A) : In x (sort_by leb l) <-> In x l.
Proof.
  split; apply Permutation_in;
    [apply sort_by_perm | apply Permutation_sym, sort_by_perm].
Qed.

Hypothesis leb_total : forall a b, leb a b = false -> leb b a = true.
Hypothesis leb_trans :
  forall a b c, leb a b = true -> leb b c = true -> leb a c = true.

Lemma insert_by_sorted (x : A) (l : list A) :
  StronglySorted (fun a b => leb a b = true) l ->
  StronglySorted (fun a b => leb a b = true) (insert_by leb x l).
Proof.
  induction 1 as [|y l Hs IH Hy]; cbn [insert_by].
  - constructor; constructor.
  - destruct (leb x y) eqn:E.
    + constructor; [constructor; assumption|].
      constructor; [exact E|].
      eapply Forall_impl; [|exact Hy]. intros z Hz.
      exact (leb_trans _ _ _ E Hz).
    + constructor; [exact IH|].
      apply Forall_forall. intros z Hz.
      apply (Permutation_in _ (insert_by_perm x l)) in Hz.
      destruct Hz as [<-|Hz]; [apply leb_total, E|].
      rewrite Forall_forall in Hy. exact (Hy z Hz).
Qed.

Lemma sort_by_sorted (l : list A) :
  StronglySorted (fun a b => leb a b = true) (sort_by leb l).
Proof.
  unfold sort_by. induction l as [|x l IH]; cbn [fold_right];
    [constructor | apply insert_by_sorted, IH].
Qed.

End SortByFacts.

Lemma str_leb_refl (a : pystr) : str_leb a a = true.
Proof.
  induction a as [|x a IH]; [reflexivity|]. cbn [str_leb].
  rewrite N.ltb_irrefl. exact IH.
Qed.

Lemma str_leb_total (a b : pystr) : str_leb a b = false -> str_leb b a = true.
Proof.
  revert b. induction a as [|x a IH]; intros [|y b]; cbn [str_leb];
    try congruence.
  destruct (x <? y) eqn:E1; [congruence|].
  destruct (y <? x) eqn:E2; [reflexivity|]. apply IH.
Qed.

Lemma str_leb_trans (a b c : pystr) :
  str_leb a b = true -> str_leb b c = true -> str_leb a c = true.
Proof.
  revert b c. induction a as [|x a IH]; intros [|y b] [|z c];
    cbn [str_leb]; try congruence.
  destruct (x <? y) eqn:E1, (y <? x) eqn:E2, (y <? z) eqn:E3,
           (z <? y) eqn:E4, (x <? z) eqn:E5, (z <? x) eqn:E6;
    try congruence; try (intros; reflexivity); bool_prop; try lia.
  apply IH.
Qed.

Lemma str_leb_antisym (a b : pystr) :
  str_leb a b = true -> str_leb b a = true -> a = b.
Proof.
  revert b. induction a as [|x a IH]; intros [|y b]; cbn [str_leb];
    try congruence.
  destruct (x <? y) eqn:E1, (y <? x) eqn:E2; try congruence;
    bool_prop; try lia.
  intros H1 H2. assert (x = y) by lia. subst. f_equal. exact (IH _ H1 H2).
Qed.

Lemma sorted_strs_sort_by (l : list pystr) :
  sorted_strs l = sort_by str_leb l.
Proof.
  unfold sorted_strs, sort_by. induction l as [|x l IH]; [reflexivity|].
  cbn [fold_right]. rewrite IH. generalize (fold_right (insert_by str_leb) [] l).
  intros m. induction m as [|y m IHm]; [reflexivity|].
  cbn [insert_str insert_by]. rewrite IHm. reflexivity.
Qed.

Lemma unique_from_In (l seen : list pystr) (x : pystr) :
  In x (unique_from seen l) <-> In x l /\ ~ In x seen.
Proof.
  revert seen. induction l as [|y l IH]; intros seen; cbn [unique_from].
  - simpl. tauto.
  - destruct (in_strs y seen) eqn:E.
    + rewrite IH. apply in_strs_In in E. simpl.
      split; [tauto|]. intros [[->|H] Hn]; [contradiction | tauto].
    + assert (Hy : ~ In y seen).
      { intros H. apply in_strs_In in H. congruence. }
      simpl. rewrite IH. simpl. split.
      * intros [<-|[H Hn]]; [tauto|]. split; [tauto|]. tauto.
      * intros [[->|H] Hn]; [left; reflexivity|].
        destruct (str_eqb y x) eqn:Exy.
        -- apply str_eqb_eq in Exy. left; exact Exy.
        -- apply str_eqb_neq in Exy. right. split; [exact H|].
           intros [?|?]; contradiction.
Qed.

Lemma unique_from_NoDup (l seen : list pystr) : NoDup (unique_from seen l).
Proof.
  revert seen. induction l as [|y l IH]; intros seen; cbn [unique_from];
    [constructor|].
  destruct (in_strs y seen); [apply IH|].
  constructor; [|apply IH].
  rewrite unique_from_In. intros [_ H]. apply H. left; reflexivity.
Qed.

(** The distinct values of a list, in ascending order. *)
Lemma sorted_unique_spec (l : list pystr) :
  StronglySorted (fun a b => str_leb a b = true)
                 (sort_by str_leb (unique_from [] l))
  /\ NoDup (sort_by str_leb (unique_from [] l))
  /\ forall x, In x (sort_by str_leb (unique_from [] l)) <-> In x l.
Proof.
  split; [|split].
  - apply sort_by_sorted; [apply str_leb_total | apply str_leb_trans].
  - eapply Permutation_NoDup;
      [apply Permutation_sym, sort_by_perm | apply unique_from_NoDup].
  - intros x. rewrite sort_by_In, unique_from_In. simpl. tauto.
Qed.

(** ** normalize_text, parse_commission_to_float: further properties *)

(** X1.  The text returned by [normalize_text] is left unchanged by each
    of its steps: it has no white space at its ends, lowering and the
    character table do not change it, and each of its white-space runs is
    one space. *)
Theorem X1_normalize_text_is_folded (x : pyval) :
  strip (normalize_text x) = normalize_text x
  /\ lower (normalize_text x) = normalize_text x
  /\ translate turkish_map (normalize_text x) = normalize_text x
  /\ re_sub_ws (normalize_text x) = normalize_text x.
Proof.
  destruct x as [| |s]; try (repeat split; reflexivity).
  rewrite (normalize_text_PyStr s).
  destruct (in_strs (lower (strip s)) [lit "nan"; lit "none"; lit ""]);
    [repeat split; reflexivity|].
  destruct (folded_stable (strip s) (strip_head s) (strip_tail s))
    as [Hs [Hl _]].
  split; [exact Hs|]. split; [exact Hl|].
  assert (HF : Forall (fun d => translate_char turkish_map d = d)
                 (re_sub_ws (translate turkish_map (lower (strip s))))).
  { apply re_sub_ws_Forall; [reflexivity|].
    eapply Forall_impl; [|apply translate_lower_Forall].
    intros d [_ H]; exact H. }
  split; [apply translate_fixed, HF|].
  apply collapsed_fixed, re_sub_ws_collapsed.
Qed.

Lemma digit_value_None (c : char) :
  is_digit c = false -> digit_value c = None.
Proof.
  unfold is_digit. destruct (digit_value c); [discriminate | reflexivity].
Qed.

Lemma digit_value_Some (c : char) :
  is_digit c = true -> exists d, digit_value c = Some d.
Proof.
  unfold is_digit. destruct (digit_value c) as [d|]; [|discriminate].
  intros _. exists d. reflexivity.
Qed.

(** A decimal digit lies in one of the blocks of ten. *)
Lemma is_digit_block (c : char) :
  is_digit c = true ->
  exists b, In b decimal_blocks /\ b <= c /\ c <= b + 9.
Proof.
  unfold is_digit, digit_value. intros H.
  destruct (find (fun b => (b <=? c) && (c <=? b + 9)) decimal_blocks)
    as [b|] eqn:E; [|discriminate H].
  apply find_some in E. destruct E as [Hin Hb].
  apply andb_true_iff in Hb. destruct Hb as [H1 H2].
  apply N.leb_le in H1, H2. exists b. auto.
Qed.

Lemma py_float_nonneg (raw : pystr) (v : Q) :
  py_float raw = Some v -> (0 <= v)%Q.
Proof.
  unfold py_float.
  assert (H : forall (n : N) (d : positive), (0 <= Z.of_N n # d)%Q).
  { intros n d. unfold Qle. simpl. lia. }
  destruct (drop_while is_digit raw) as [|c fp].
  - destruct (take_while is_digit raw); [discriminate|].
    destruct (digits_value 0 (_ :: _)); [|discriminate].
    intros E. injection E as <-. apply H.
  - destruct (char_eqb c c_dot); [|discriminate].
    destruct (take_while is_digit raw ++ fp); [discriminate|].
    destruct (digits_value 0 (_ :: _)); [|discriminate].
    intros E. injection E as <-. apply H.
Qed.

Lemma scale_correct_nonneg (v : Q) : (0 <= v)%Q -> (0 <= scale_correct v)%Q.
Proof.
  intros H. unfold scale_correct.
  destruct (Qlt_bool 0 v && Qle_bool v 1); [|exact H].
  apply Qmult_le_0_compat; [exact H | discriminate].
Qed.

(** X2.  A value returned by [parse_commission_to_float] is never
    negative (a minus sign is not part of the numeric run), and the
    warning is logged exactly when the value is above 100. *)
Theorem X2_parse_never_negative (value : pyval) (v : Q)
        (log : list log_event) :
  parse_commission_to_float value = (Some v, log) ->
  (0 <= v)%Q
  /\ ((v <= 100)%Q -> log = [])
  /\ (~ (v <= 100)%Q -> log = [LogAnomalous]).
Proof.
  destruct value as [| |s]; try discriminate.
  unfold parse_commission_to_float.
  destruct (is_empty (strip s) || _); [discriminate|].
  destruct (first_run (strip s)) as [r|]; [|discriminate].
  destruct (py_float (fix_separators r)) as [w|] eqn:Ew; [|discriminate].
  pose proof (scale_correct_nonneg w (py_float_nonneg _ _ Ew)) as H0.
  destruct (Qle_bool 0 (scale_correct w)) eqn:E0.
  - destruct (Qle_bool (scale_correct w) 100) eqn:E1; cbn [andb];
      intros E; injection E as <- <-; (split; [exact H0|]).
    + split; [reflexivity|]. intros Hn. exfalso. apply Hn.
      apply Qle_bool_iff. exact E1.
    + split; [|reflexivity]. intros Hle. apply Qle_bool_iff in Hle.
      congruence.
  - apply Qle_bool_iff in H0. congruence.
Qed.

Lemma X2_parse_never_negative_witness :
  parse_commission_to_float (PyStr (lit "-%18,5"))
  = (Some (185 # 10)%Q, [])
  /\ (0 <= 185 # 10)%Q.
Proof.
  split; [reflexivity|].
  exact (proj1 (X2_parse_never_negative (PyStr (lit "-%18,5"))
                  (185 # 10)%Q [] eq_refl)).
Defined.

Lemma lstrip_incl (s : pystr) (c : char) : In c (lstrip s) -> In c s.
Proof.
  induction s as [|x s IH]; [intros []|]. cbn [lstrip].
  destruct (is_space x); [intros H; right; exact (IH H) | auto].
Qed.

Lemma rstrip_incl (s : pystr) (c : char) : In c (rstrip s) -> In c s.
Proof.
  induction s as [|x s IH]; [intros []|]. cbn [rstrip].
  destruct (rstrip s) as [|y t].
  - destruct (is_space x); [intros [] | intros [<-|[]]; left; reflexivity].
  - intros [<-|H]; [left; reflexivity | right; exact (IH H)].
Qed.

Lemma strip_incl (s : pystr) (c : char) : In c (strip s) -> In c s.
Proof. intros H. apply lstrip_incl, rstrip_incl, H. Qed.

Lemma take_while_incl (f : char -> bool) (s : pystr) (c : char) :
  In c (take_while f s) -> In c s.
Proof.
  induction s as [|x s IH]; [intros []|]. cbn [take_while].
  destruct (f x); [|intros []].
  intros [<-|H]; [left; reflexivity | right; exact (IH H)].
Qed.

Lemma drop_while_incl (f : char -> bool) (s : pystr) (c : char) :
  In c (drop_while f s) -> In c s.
Proof.
  induction s as [|x s IH]; [intros []|]. cbn [drop_while].
  destruct (f x); [intros H; right; exact (IH H) | auto].
Qed.

Lemma first_run_incl (s r : pystr) (c : char) :
  first_run s = Some r -> In c r -> In c s.
Proof.
  unfold first_run.
  destruct (drop_while (fun c => negb (is_run_char c)) s) as [|x t] eqn:E;
    [discriminate|].
  intros H Hc.
  assert (Hc' : In c (take_while is_run_char (x :: t)))
    by (injection H as <-; exact Hc).
  apply take_while_incl in Hc'. rewrite <- E in Hc'.
  exact (drop_while_incl _ _ _ Hc').
Qed.

Lemma replace_char_incl (old : char) (new s : pystr) (c : char) :
  In c (replace_char old new s) -> In c s \/ In c new.
Proof.
  unfold replace_char. intros H. apply in_flat_map in H.
  destruct H as [x [Hx Hc]]. destruct (char_eqb x old).
  - right; exact Hc.
  - destruct Hc as [<-|[]]. left; exact Hx.
Qed.

Lemma fix_separators_no_digit (r : pystr) :
  (forall c, In c r -> is_digit c = false) ->
  forall c, In c (fix_separators r) -> is_digit c = false.
Proof.
  intros H c. unfold fix_separators.
  destruct (contains_char c_comma r && contains_char c_dot r).
  - intros Hc. apply replace_char_incl in Hc. destruct Hc as [Hc|[<-|[]]].
    + apply replace_char_incl in Hc. destruct Hc as [Hc|[]]. exact (H c Hc).
    + reflexivity.
  - destruct (contains_char c_comma r); [|apply H].
    intros Hc. apply replace_char_incl in Hc.
    destruct Hc as [Hc|[<-|[]]]; [exact (H c Hc) | reflexivity].
Qed.

Lemma py_float_no_digit (raw : pystr) :
  (forall c, In c raw -> is_digit c = false) -> py_float raw = None.
Proof.
  intros H. unfold py_float. destruct raw as [|c fp]; [reflexivity|].
  cbn [take_while drop_while]. rewrite (H c (or_introl eq_refl)).
  destruct (char_eqb c c_dot); [|reflexivity].
  cbn [app]. destruct fp as [|d fp]; [reflexivity|].
  cbn [digits_value].
  rewrite (digit_value_None d (H d (or_intror (or_introl eq_refl)))).
  reflexivity.
Qed.

(** Digits of every script are read, as [\d] and [float] do. *)
Example parse_reads_digits_of_any_script :
  parse_commission_to_float (PyStr [0x663; 0x664]) = (Some (34 # 1)%Q, [])
  /\ _extract_number [0x663; 0x664] = Some (34 # 1)%Q
  /\ is_digit 0xB2 = false.
Proof. repeat split; vm_compute; reflexivity. Qed.

(** X3.  A text without any decimal digit (of any script) never yields a
    value: the result is [None] (no exception reaches the caller). *)
Theorem X3_parse_without_digit (s : pystr) :
  (forall c, In c s -> is_digit c = false) ->
  fst (parse_commission_to_float (PyStr s)) = None.
Proof.
  intros H. unfold parse_commission_to_float.
  destruct (is_empty (strip s) || _); [reflexivity|].
  destruct (first_run (strip s)) as [r|] eqn:Er; [|reflexivity].
  rewrite py_float_no_digit; [reflexivity|].
  apply fix_separators_no_digit. intros c Hc. apply H.
  apply strip_incl. exact (first_run_incl _ _ _ Er Hc).
Qed.

Lemma X3_parse_without_digit_witness :
  (forall c, In c (lit " % , ") -> is_digit c = false)
  /\ fst (parse_commission_to_float (PyStr (lit " % , "))) = None.
Proof.
  assert (H : forall c, In c (lit " % , ") -> is_digit c = false).
  { intros c Hc. vm_compute in Hc.
    repeat (destruct Hc as [<-|Hc]; [reflexivity|]). destruct Hc. }
  split; [exact H | exact (X3_parse_without_digit (lit " % , ") H)].
Defined.

(** ** _extract_number, _fix_scale *)

Lemma sort_Q_sort_by (l : list Q) : sort_Q l = sort_by Qle_bool l.
Proof.
  unfold sort_Q, sort_by. induction l as [|x l IH]; [reflexivity|].
  cbn [fold_right]. rewrite IH.
  generalize (fold_right (insert_by Qle_bool) [] l).
  intros m. induction m as [|y m IHm]; [reflexivity|].
  cbn [insert_sorted insert_by]. rewrite IHm. reflexivity.
Qed.

Lemma dropna_In (l : list (option Q)) (x : Q) :
  In x (dropna l) <-> In (Some x) l.
Proof.
  induction l as [|[y|] l IH]; cbn [dropna]; simpl.
  - tauto.
  - rewrite IH. split; intros [H|H]; auto; left; congruence.
  - rewrite IH. split; [auto | intros [H|H]; [discriminate | auto]].
Qed.

Lemma nth_In_default {A : Type} (n : nat) (l : list A) (d : A) :
  In d l -> In (nth n l d) l.
Proof.
  intros H. destruct (nth_in_or_default n l d) as [Hin| ->]; assumption.
Qed.

Lemma percent_fraction_bounds (h : N) :
  (0 <= Z.of_N (h mod 100) # 100)%Q /\ (Z.of_N (h mod 100) # 100 <= 1)%Q.
Proof.
  assert (Hm : h mod 100 < 100) by (apply N.mod_lt; discriminate).
  remember (h mod 100) as m eqn:Em. clear Em.
  unfold Qle. cbn [Qnum Qden]. split; lia.
Qed.

(** The 95th percentile lies between values of the series. *)
Lemma quantile95_between (ser : list (option Q)) (q : Q) :
  quantile95 ser = Some q ->
  exists a b fr,
    In (Some a) ser /\ In (Some b) ser
    /\ (0 <= fr)%Q /\ (fr <= 1)%Q /\ q = (a + fr * (b - a))%Q.
Proof.
  unfold quantile95.
  destruct (sort_Q (dropna ser)) as [|x0 xs] eqn:E; [discriminate|].
  intros H. injection H as <-.
  set (h := (N.of_nat (List.length (x0 :: xs)) - 1) * 95).
  set (lo := N.to_nat (h / 100)).
  assert (Hin : forall x, In x (x0 :: xs) -> In (Some x) ser).
  { intros x Hx. rewrite <- E, sort_Q_sort_by in Hx.
    apply sort_by_In in Hx. apply dropna_In. exact Hx. }
  assert (Ha : In (nth lo (x0 :: xs) x0) (x0 :: xs))
    by (apply nth_In_default; left; reflexivity).
  exists (nth lo (x0 :: xs) x0),
         (nth (S lo) (x0 :: xs) (nth lo (x0 :: xs) x0)),
         (Z.of_N (h mod 100) # 100)%Q.
  split; [apply Hin, Ha|].
  split; [apply Hin, nth_In_default, Ha|].
  destruct (percent_fraction_bounds h) as [H0 H1].
  split; [exact H0|]. split; [exact H1 | reflexivity].
Qed.

Lemma quantile95_Some (ser : list (option Q)) (x : Q) :
  In (Some x) ser -> exists q, quantile95 ser = Some q.
Proof.
  intros H. unfold quantile95.
  destruct (sort_Q (dropna ser)) as [|x0 xs] eqn:E; [|eexists; reflexivity].
  exfalso. apply dropna_In in H.
  apply (sort_by_In Qle_bool) in H. rewrite <- sort_Q_sort_by, E in H.
  destruct H.
Qed.

(** X4.  [_fix_scale] scales a column as a whole: the result is the
    column itself or the column with every value multiplied by 100.  A
    column whose values are all at most 1 (and which has a value) is
    scaled; a column whose values are all above 1 is not. *)
Theorem X4_fix_scale_whole_column (series : list (option Q)) :
  (_fix_scale series = series
   \/ _fix_scale series = map (option_map (fun x => (x * 100)%Q)) series)
  /\ ((exists x, In (Some x) series) ->
      (forall x, In (Some x) series -> (x <= 1)%Q) ->
      _fix_scale series = map (option_map (fun x => (x * 100)%Q)) series)
  /\ ((forall x, In (Some x) series -> (1 < x)%Q) ->
      _fix_scale series = series).
Proof.
  unfold _fix_scale. split; [|split].
  - destruct (quantile95 series) as [q|]; [|left; reflexivity].
    destruct (Qle_bool q 1); [right | left]; reflexivity.
  - intros [x Hx] Hall. destruct (quantile95_Some series x Hx) as [q Eq].
    rewrite Eq.
    destruct (quantile95_between series q Eq)
      as [a [b [fr [Ha [Hb [H0 [H1 ->]]]]]]].
    pose proof (Hall a Ha) as Ha1. pose proof (Hall b Hb) as Hb1.
    assert (P1 : (0 <= (1 - fr) * (1 - a))%Q)
      by (apply Qmult_le_0_compat; lra).
    assert (P2 : (0 <= fr * (1 - b))%Q)
      by (apply Qmult_le_0_compat; lra).
    assert (Hq : (a + fr * (b - a) <= 1)%Q) by lra.
    apply Qle_bool_iff in Hq. rewrite Hq. reflexivity.
  - intros Hall. destruct (quantile95 series) as [q|] eqn:Eq; [|reflexivity].
    destruct (quantile95_between series q Eq)
      as [a [b [fr [Ha [Hb [H0 [H1 ->]]]]]]].
    pose proof (Hall a Ha) as Ha1. pose proof (Hall b Hb) as Hb1.
    destruct (Qle_bool (a + fr * (b - a)) 1) eqn:E; [|reflexivity].
    apply Qle_bool_iff in E. exfalso.
    assert (P2 : (0 <= fr * (b - 1))%Q)
      by (apply Qmult_le_0_compat; lra).
    destruct (Qlt_le_dec fr 1) as [Hlt|Hge].
    + assert (P1 : (0 < (1 - fr) * (a - 1))%Q)
        by (apply Qmult_lt_0_compat; lra).
      lra.
    + assert (P1 : (0 <= (fr - 1) * (b - 1))%Q)
        by (apply Qmult_le_0_compat; lra).
      assert (P3 : (0 <= (1 - fr) * (a - 1))%Q).
      { assert (Hf : (1 - fr == 0)%Q) by lra. rewrite Hf. lra. }
      lra.
Qed.

Lemma X4_fix_scale_whole_column_witness :
  (forall x, In (Some x) [Some (15 # 1)%Q; None; Some (18 # 1)%Q] ->
             (1 < x)%Q)
  /\ _fix_scale [Some (15 # 1)%Q; None; Some (18 # 1)%Q]
     = [Some (15 # 1)%Q; None; Some (18 # 1)%Q].
Proof.
  assert (H : forall x,
             In (Some x) [Some (15 # 1)%Q; None; Some (18 # 1)%Q] ->
             (1 < x)%Q).
  { intros x [H|[H|[H|[]]]]; try discriminate H;
      injection H as <-; reflexivity. }
  split; [exact H|].
  exact (proj2 (proj2 (X4_fix_scale_whole_column
                         [Some (15 # 1)%Q; None; Some (18 # 1)%Q])) H).
Defined.

Lemma is_digit_not_space (c : char) : is_digit c = true -> is_space c = false.
Proof.
  intros H. destruct (is_digit_block c H) as [b [Hin [H1 H2]]].
  assert (A : forallb
                (fun b => forallb (fun k => negb (is_space (b + k)))
                                  (map N.of_nat (seq 0 10)))
                decimal_blocks = true) by (vm_compute; reflexivity).
  rewrite forallb_forall in A. specialize (A b Hin).
  rewrite forallb_forall in A. specialize (A (c - b)).
  replace (b + (c - b)) with c in A by lia.
  apply negb_true_iff, A. apply in_map_iff. exists (N.to_nat (c - b)).
  split; [apply N2Nat.id | apply in_seq; lia].
Qed.

Lemma lstrip_keeps (s : pystr) (c : char) :
  In c s -> is_space c = false -> In c (lstrip s).
Proof.
  induction s as [|x s IH]; [intros []|]. cbn [lstrip]. intros [->|H] Hc.
  - rewrite Hc. left; reflexivity.
  - destruct (is_space x); [exact (IH H Hc) | right; exact H].
Qed.

Lemma rstrip_keeps (s : pystr) (c : char) :
  In c s -> is_space c = false -> In c (rstrip s).
Proof.
  induction s as [|x s IH]; [intros []|]. cbn [rstrip]. intros [->|H] Hc.
  - destruct (rstrip s); [rewrite Hc|]; left; reflexivity.
  - specialize (IH H Hc). destruct (rstrip s); [destruct IH | right; exact IH].
Qed.

Lemma digits_value_all (s : pystr) (acc : N) :
  forallb is_digit s = true -> exists n, digits_value acc s = Some n.
Proof.
  revert acc. induction s as [|c s IH]; intros acc; cbn [forallb digits_value].
  - intros _. eexists; reflexivity.
  - intros H. apply andb_true_iff in H. destruct H as [Hc Hs].
    destruct (digit_value_Some c Hc) as [d ->]. apply IH, Hs.
Qed.

Lemma take_while_all (f : char -> bool) (s : pystr) :
  forallb f (take_while f s) = true.
Proof.
  induction s as [|c s IH]; [reflexivity|]. cbn [take_while].
  destruct (f c) eqn:E; [cbn [forallb]; rewrite E; exact IH | reflexivity].
Qed.

Lemma take_while_app_stop (f : char -> bool) (a : pystr) (c : char)
      (b : pystr) :
  forallb f a = true -> f c = false ->
  take_while f (a ++ c :: b) = a /\ drop_while f (a ++ c :: b) = c :: b.
Proof.
  intros Ha Hc. induction a as [|x a IH]; cbn [app take_while drop_while].
  - rewrite Hc. split; reflexivity.
  - cbn [forallb] in Ha. apply andb_true_iff in Ha. destruct Ha as [Hx Ha].
    rewrite Hx. destruct (IH Ha) as [-> ->]. split; reflexivity.
Qed.

Lemma take_while_full (f : char -> bool) (a : pystr) :
  forallb f a = true -> take_while f a = a /\ drop_while f a = [].
Proof.
  induction a as [|x a IH]; [split; reflexivity|].
  cbn [forallb take_while drop_while]. intros H.
  apply andb_true_iff in H. destruct H as [Hx Ha]. rewrite Hx.
  destruct (IH Ha) as [-> ->]. split; reflexivity.
Qed.

Lemma py_float_digits (ip : pystr) :
  ip <> [] -> forallb is_digit ip = true -> exists v, py_float ip = Some v.
Proof.
  intros Hne Hd. unfold py_float.
  destruct (take_while_full is_digit ip Hd) as [-> ->].
  destruct ip; [congruence|].
  destruct (digits_value_all _ 0 Hd) as [n ->]. eexists; reflexivity.
Qed.

Lemma py_float_decimal (ip fp : pystr) :
  ip <> [] -> forallb is_digit ip = true -> forallb is_digit fp = true ->
  exists v, py_float (ip ++ [c_dot] ++ fp) = Some v.
Proof.
  intros Hne Hi Hf. unfold py_float. cbn [app].
  destruct (take_while_app_stop is_digit ip c_dot fp Hi eq_refl) as [-> ->].
  change (char_eqb c_dot c_dot) with true. cbv iota.
  assert (Hd : forallb is_digit (ip ++ fp) = true)
    by (rewrite forallb_app, Hi, Hf; reflexivity).
  destruct (ip ++ fp) eqn:E; [destruct ip; [congruence | discriminate]|].
  destruct (digits_value_all _ 0 Hd) as [n ->]. eexists; reflexivity.
Qed.

Lemma re_search_number_None (s : pystr) :
  re_search_number s = None <-> forall c, In c s -> is_digit c = false.
Proof.
  unfold re_search_number. split.
  - destruct (drop_while (fun c => negb (is_digit c)) s) as [|x rest] eqn:E.
    + intros _. clear -E. induction s as [|c s IH]; [intros ? []|].
      cbn [drop_while] in E. destruct (is_digit c) eqn:Ec; cbn [negb] in E;
        [discriminate|].
      intros d [<-|Hd]; [exact Ec | exact (IH E d Hd)].
    + intros H. exfalso.
      assert (Hx : is_digit x = true).
      { clear -E. induction s as [|c s IH]; [discriminate|].
        cbn [drop_while] in E. destruct (is_digit c) eqn:Ec; cbn [negb] in E.
        - injection E as <- _. exact Ec.
        - exact (IH E). }
      set (ip := take_while is_digit (x :: rest)) in *.
      assert (Hi : forallb is_digit ip = true) by apply take_while_all.
      assert (Hne : ip <> []).
      { unfold ip. cbn [take_while]. rewrite Hx. discriminate. }
      destruct (py_float_digits ip Hne Hi) as [v Ev].
      destruct (drop_while is_digit (x :: rest)) as [|c after].
      * congruence.
      * destruct (char_eqb c c_dot) eqn:Ec; [|congruence].
        destruct (take_while is_digit after) as [|d fp] eqn:Ef; [congruence|].
        assert (Hf : forallb is_digit (d :: fp) = true)
          by (rewrite <- Ef; apply take_while_all).
        destruct (py_float_decimal ip (d :: fp) Hne Hi Hf) as [w Ew].
        congruence.
  - intros H.
    assert (E : drop_while (fun c => negb (is_digit c)) s = []).
    { induction s as [|c s IH]; [reflexivity|]. cbn [drop_while].
      rewrite (H c (or_introl eq_refl)). cbn [negb]. apply IH.
      intros d Hd. apply H. right; exact Hd. }
    rewrite E. reflexivity.
Qed.

Lemma re_search_number_nonneg (s : pystr) (v : Q) :
  re_search_number s = Some v -> (0 <= v)%Q.
Proof.
  unfold re_search_number.
  destruct (drop_while (fun c => negb (is_digit c)) s) as [|x rest];
    [discriminate|].
  destruct (drop_while is_digit (x :: rest)) as [|c after];
    [apply py_float_nonneg|].
  destruct (char_eqb c c_dot); [|apply py_float_nonneg].
  destruct (take_while is_digit after); apply py_float_nonneg.
Qed.

(** X5.  [_extract_number] returns a number exactly when the text holds a
    decimal digit (of any script), and that number is never negative. *)
Theorem X5_extract_number_total_on_digits (x : pystr) :
  (_extract_number x = None <-> forall c, In c x -> is_digit c = false)
  /\ forall v, _extract_number x = Some v -> (0 <= v)%Q.
Proof.
  unfold _extract_number. split; [|apply re_search_number_nonneg].
  rewrite re_search_number_None. split.
  - intros H c Hc. destruct (is_digit c) eqn:Ed; [|reflexivity].
    enough (Hin : In c (replace_char c_comma [c_dot] (strip x)))
      by (rewrite (H c Hin) in Ed; discriminate Ed).
    unfold replace_char. apply in_flat_map. exists c. split.
    + apply rstrip_keeps; [apply lstrip_keeps|]; try assumption;
        apply is_digit_not_space, Ed.
    + assert (Hn : char_eqb c c_comma = false).
      { destruct (char_eqb c c_comma) eqn:En; [|reflexivity].
        apply N.eqb_eq in En. subst c. vm_compute in Ed. discriminate Ed. }
      rewrite Hn. left; reflexivity.
  - intros H c Hc. apply replace_char_incl in Hc.
    destruct Hc as [Hc|[<-|[]]]; [|reflexivity].
    apply H. apply strip_incl. exact Hc.
Qed.

Lemma X5_extract_number_total_on_digits_witness :
  _extract_number (lit "-12,5 %") = Some (125 # 10)%Q
  /\ (0 <= 125 # 10)%Q.
Proof.
  split; [reflexivity|].
  exact (proj2 (X5_extract_number_total_on_digits (lit "-12,5 %"))
               (125 # 10)%Q eq_refl).
Defined.

(** ** _normalize_to_flat4: duplicates and completeness *)

(** X6.  A reconciled table has no two equal rows (the text fields
    compared as texts, the commissions as numbers), and no product group
    is lost: every input row whose trimmed product group is not empty has
    a record with that product group. *)
Theorem X6_reconcile_distinct_and_complete (df : DataFrame)
        (cands : Candidates) (recs : list Flat4) :
  _normalize_to_flat4 df cands = Ok recs ->
  ForallOrdPairs (fun a b => flat4_eqb b a = false) recs
  /\ forall row, In row (rows df) ->
       text_cell df (or_empty (_pick_first_present df (product_group cands)))
                 row <> [] ->
       exists r, In r recs
         /\ Urun_Grubu r
            = text_cell df
                (or_empty (_pick_first_present df (product_group cands))) row.
Proof.
  unfold _normalize_to_flat4.
  set (cat_col := or_empty (_pick_first_present df (category cands))).
  set (sub_col := or_empty (_pick_first_present df (sub_category cands))).
  set (grp_col := or_empty (_pick_first_present df (product_group cands))).
  set (com_col := or_empty (_pick_first_present df (commission cands))).
  destruct (is_empty grp_col); [discriminate|].
  destruct (is_empty cat_col && is_empty sub_col); [discriminate|].
  set (vals := if negb (is_empty com_col) then _ else _).
  set (F := fun rv : list pyval * option Q => _).
  intros H. injection H as <-. split.
  - apply drop_duplicates_from_distinct.
  - intros row Hrow Hg.
    assert (Hlen : List.length (rows df) = List.length vals).
    { unfold vals. destruct (negb (is_empty com_col)).
      - rewrite fix_scale_length, length_map. reflexivity.
      - rewrite length_map. reflexivity. }
    destruct (combine_In_left _ _ row Hlen Hrow) as [v Hv].
    assert (Hu : Urun_Grubu (F (row, v)) = text_cell df grp_col row).
    { unfold F. destruct (negb (is_empty cat_col) && _ && _); reflexivity. }
    assert (Hin : In (F (row, v)) (filter keep_row (map F (combine (rows df) vals)))).
    { apply filter_In. split; [apply in_map, Hv|].
      unfold keep_row. rewrite Hu.
      destruct (text_cell df grp_col row); [congruence|].
      cbn [is_empty negb]. apply orb_true_r. }
    destruct (drop_duplicates_from_covers _ [] _ Hin) as [Hx|[y [Hy Hxy]]];
      [discriminate Hx|].
    exists y. split; [exact Hy|].
    unfold flat4_eqb in Hxy. apply andb_true_iff in Hxy.
    destruct Hxy as [Hxy _]. apply andb_true_iff in Hxy.
    destruct Hxy as [_ Hxy]. apply str_eqb_eq in Hxy.
    rewrite <- Hxy. exact Hu.
Qed.

Lemma X6_reconcile_distinct_and_complete_witness :
  _normalize_to_flat4 df_repeated trendyol
  = Ok [mk_row "Elektronik" "" "Telefon" (Some (18 # 1)%Q);
        mk_row "Ev" "" "Tava" (Some (8 # 1)%Q)]
  /\ ForallOrdPairs (fun a b => flat4_eqb b a = false)
       [mk_row "Elektronik" "" "Telefon" (Some (18 # 1)%Q);
        mk_row "Ev" "" "Tava" (Some (8 # 1)%Q)].
Proof.
  split; [reflexivity|].
  exact (proj1 (X6_reconcile_distinct_and_complete df_repeated trendyol
                  _ eq_refl)).
Defined.

(** ** find_column_by_aliases, validate_dataframe_columns *)

Lemma dict_get_set_same {V : Type} (k : pystr) (v : V)
      (d : list (pystr * V)) :
  dict_get k (dict_set k v d) = Some v.
Proof.
  induction d as [|[k' v'] d IH]; cbn [dict_set dict_get].
  - rewrite str_eqb_refl. reflexivity.
  - destruct (str_eqb k k') eqn:E; cbn [dict_get].
    + rewrite str_eqb_refl. reflexivity.
    + rewrite E. exact IH.
Qed.

Lemma dict_get_set_other {V : Type} (k k' : pystr) (v : V)
      (d : list (pystr * V)) :
  k' <> k -> dict_get k' (dict_set k v d) = dict_get k' d.
Proof.
  intros Hne. induction d as [|[k0 v0] d IH]; cbn [dict_set dict_get].
  - apply str_eqb_neq in Hne. rewrite Hne. reflexivity.
  - destruct (str_eqb k k0) eqn:E; cbn [dict_get].
    + apply str_eqb_eq in E. subst k0.
      apply str_eqb_neq in Hne. rewrite Hne. reflexivity.
    + destruct (str_eqb k' k0); [reflexivity | exact IH].
Qed.

Lemma dict_set_In {V : Type} (k : pystr) (v : V) (d : list (pystr * V))
      (item : pystr * V) :
  In item (dict_set k v d) -> item = (k, v) \/ In item d.
Proof.
  induction d as [|[k0 v0] d IH]; cbn [dict_set].
  - intros [<-|[]]. left; reflexivity.
  - destruct (str_eqb k k0).
    + intros [<-|H]; [left; reflexivity | right; right; exact H].
    + intros [<-|H]; [right; left; reflexivity|].
      destruct (IH H) as [->|H']; [left; reflexivity | right; right; exact H'].
Qed.

Lemma dict_get_In {V : Type} (k : pystr) (v : V) (d : list (pystr * V)) :
  dict_get k d = Some v -> In (k, v) d.
Proof.
  induction d as [|[k0 v0] d IH]; cbn [dict_get]; [discriminate|].
  destruct (str_eqb k k0) eqn:E.
  - apply str_eqb_eq in E. subst. intros H. injection H as ->.
    left; reflexivity.
  - intros H. right. exact (IH H).
Qed.

Lemma dict_get_None_In {V : Type} (k : pystr) (d : list (pystr * V)) :
  dict_get k d = None -> forall v, ~ In (k, v) d.
Proof.
  induction d as [|[k0 v0] d IH]; cbn [dict_get]; [intros _ v []|].
  destruct (str_eqb k k0) eqn:E; [discriminate|].
  intros H v [Heq|Hin].
  - injection Heq as -> _. rewrite str_eqb_refl in E. discriminate.
  - exact (IH H v Hin).
Qed.

Lemma dict_get_Some_key {V : Type} (k : pystr) (d : list (pystr * V)) :
  (exists v, In (k, v) d) -> exists v, dict_get k d = Some v.
Proof.
  intros [v Hv]. destruct (dict_get k d) as [w|] eqn:E; [eexists; reflexivity|].
  exfalso. exact (dict_get_None_In k d E v Hv).
Qed.

(** The dictionary of normalised column names: its values are the
    columns, each under its normalised name, and every column has its
    normalised name as a key. *)
Lemma df_columns_normalized_spec (cols : list pystr) :
  (forall k v, In (k, v) (df_columns_normalized cols) ->
               In v cols /\ k = normalize_text (PyStr v))
  /\ (forall c, In c cols ->
        exists v, In (normalize_text (PyStr c), v) (df_columns_normalized cols)).
Proof.
  unfold df_columns_normalized.
  assert (H : forall (done : list pystr) (d : list (pystr * pystr)),
             (forall k v, In (k, v) d ->
                          In v done /\ k = normalize_text (PyStr v)) ->
             (forall c, In c done ->
                        exists v, In (normalize_text (PyStr c), v) d) ->
             let d' := fold_left
                         (fun d col =>
                            dict_set (normalize_text (PyStr col)) col d)
                         cols d in
             (forall k v, In (k, v) d' ->
                          In v (done ++ cols)
                          /\ k = normalize_text (PyStr v))
             /\ (forall c, In c (done ++ cols) ->
                   exists v, In (normalize_text (PyStr c), v) d')).
  { induction cols as [|col cols IH]; intros done d H1 H2; cbn [fold_left].
    - rewrite app_nil_r. split; assumption.
    - replace (done ++ col :: cols) with ((done ++ [col]) ++ cols)
        by (rewrite <- app_assoc; reflexivity).
      apply IH.
      + intros k v Hin. apply dict_set_In in Hin. destruct Hin as [E|Hin].
        * injection E as -> ->. split; [|reflexivity].
          apply in_or_app. right. left; reflexivity.
        * destruct (H1 k v Hin) as [Hv Hk]. split; [|exact Hk].
          apply in_or_app. left; exact Hv.
      + intros c Hc. apply in_app_or in Hc.
        destruct (str_eqb (normalize_text (PyStr c))
                          (normalize_text (PyStr col))) eqn:E.
        * apply str_eqb_eq in E. rewrite E. exists col.
          apply dict_get_In. apply dict_get_set_same.
        * apply str_eqb_neq in E.
          destruct Hc as [Hc|[->|[]]]; [|congruence].
          destruct (H2 c Hc) as [v Hv].
          destruct (dict_get_Some_key _ d (ex_intro _ v Hv)) as [w Hw].
          exists w. apply dict_get_In.
          rewrite dict_get_set_other by exact E. exact Hw. }
  specialize (H [] [] (fun k v (F : In (k, v) []) => match F with end)
                (fun c (F : In c []) => match F with end)).
  exact H.
Qed.

Lemma starts_with_refl (s : pystr) : starts_with s s = true.
Proof.
  induction s as [|c s IH]; [reflexivity|]. cbn [starts_with].
  unfold char_eqb. rewrite N.eqb_refl. exact IH.
Qed.

Lemma contains_refl (s : pystr) : contains s s = true.
Proof. destruct s; cbn [contains]; rewrite starts_with_refl; reflexivity. Qed.

Lemma find_in_normalized_app (d : list (pystr * pystr))
      (l1 l2 : list pystr) :
  find_in_normalized d (l1 ++ l2) =
  match find_in_normalized d l1 with
  | Some c => Some c
  | None => find_in_normalized d l2
  end.
Proof.
  induction l1 as [|a l1 IH]; [reflexivity|].
  cbn [app find_in_normalized].
  destruct (dict_get (normalize_text (PyStr a)) d); [reflexivity|].
  destruct (find (partial_match (normalize_text (PyStr a))) d) as [[k v]|];
    [reflexivity | exact IH].
Qed.

Lemma find_column_sound (cols aliases : list pystr) (c : pystr) :
  find_column_by_aliases cols aliases = Some c ->
  In c cols
  /\ exists a, In a aliases
       /\ partial_match (normalize_text (PyStr a))
                        (normalize_text (PyStr c), c) = true.
Proof.
  unfold find_column_by_aliases.
  destruct (df_columns_normalized_spec cols) as [Hs _].
  induction aliases as [|a aliases IH]; cbn [find_in_normalized];
    [discriminate|].
  destruct (dict_get (normalize_text (PyStr a)) (df_columns_normalized cols))
    as [v|] eqn:Eg.
  - intros H. injection H as ->. apply dict_get_In in Eg.
    destruct (Hs _ _ Eg) as [Hc Hk]. split; [exact Hc|].
    exists a. split; [left; reflexivity|].
    unfold partial_match. cbn [fst]. rewrite <- Hk, contains_refl.
    reflexivity.
  - destruct (find (partial_match (normalize_text (PyStr a)))
                   (df_columns_normalized cols)) as [[k v]|] eqn:Ef.
    + intros H. injection H as ->. apply find_some in Ef.
      destruct Ef as [Hin Hp]. destruct (Hs _ _ Hin) as [Hc Hk].
      split; [exact Hc|]. exists a. split; [left; reflexivity|].
      rewrite <- Hk. exact Hp.
    + intros H. destruct (IH H) as [Hc [a' [Ha' Hp]]].
      split; [exact Hc|]. exists a'. split; [right; exact Ha' | exact Hp].
Qed.

(** X7.  [find_column_by_aliases] returns a column of the table whose
    normalised name contains, or is contained in, the normalised text of
    one of the aliases; it returns [None] exactly when no alias and no
    column are related in this way. *)
Theorem X7_find_column_by_aliases_spec (cols aliases : list pystr) :
  (forall c, find_column_by_aliases cols aliases = Some c ->
     In c cols
     /\ exists a, In a aliases
          /\ (contains (normalize_text (PyStr a)) (normalize_text (PyStr c))
              || contains (normalize_text (PyStr c))
                          (normalize_text (PyStr a))) = true)
  /\ (find_column_by_aliases cols aliases = None <->
      forall a c, In a aliases -> In c cols ->
        (contains (normalize_text (PyStr a)) (normalize_text (PyStr c))
         || contains (normalize_text (PyStr c)) (normalize_text (PyStr a)))
        = false).
Proof.
  split; [intros c H; exact (find_column_sound cols aliases c H)|].
  destruct (df_columns_normalized_spec cols) as [Hs Hc].
  split.
  - unfold find_column_by_aliases.
    induction aliases as [|a aliases IH]; [intros _ a c []|].
    cbn [find_in_normalized].
    destruct (dict_get (normalize_text (PyStr a)) (df_columns_normalized cols));
      [discriminate|].
    destruct (find (partial_match (normalize_text (PyStr a)))
                   (df_columns_normalized cols)) as [[k v]|] eqn:Ef;
      [discriminate|].
    intros H a' c [<-|Ha'] Hin; [|exact (IH H a' c Ha' Hin)].
    destruct (Hc c Hin) as [v Hv].
    exact (find_none _ _ Ef _ Hv).
  - intros H.
    destruct (find_column_by_aliases cols aliases) as [c|] eqn:E;
      [|reflexivity].
    destruct (find_column_sound cols aliases c E) as [Hin [a [Ha Hp]]].
    unfold partial_match in Hp. cbn [fst] in Hp.
    rewrite (H a c Ha Hin) in Hp. discriminate.
Qed.

Lemma X7_find_column_by_aliases_witness :
  find_column_by_aliases [lit "Sıra"; lit " ÜRÜN  GRUBU Detayı"; lit "Oran"]
                         [lit "product group"; lit "ürün grubu"]
  = Some (lit " ÜRÜN  GRUBU Detayı")
  /\ In (lit " ÜRÜN  GRUBU Detayı")
        [lit "Sıra"; lit " ÜRÜN  GRUBU Detayı"; lit "Oran"].
Proof.
  split; [reflexivity|].
  exact (proj1 (proj1 (X7_find_column_by_aliases_spec
                         [lit "Sıra"; lit " ÜRÜN  GRUBU Detayı"; lit "Oran"]
                         [lit "product group"; lit "ürün grubu"])
                      (lit " ÜRÜN  GRUBU Detayı") eq_refl)).
Defined.

(** X8.  The order of the aliases is their priority: the lookup over
    [l1 ++ l2] is the lookup over [l1] and, only when that finds nothing,
    the lookup over [l2]; and when a column has the normalised name of the
    first alias, a column of that normalised name is returned. *)
Theorem X8_find_column_alias_priority (cols : list pystr) :
  (forall l1 l2,
     find_column_by_aliases cols (l1 ++ l2) =
     match find_column_by_aliases cols l1 with
     | Some c => Some c
     | None => find_column_by_aliases cols l2
     end)
  /\ (forall a rest c,
        In c cols ->
        normalize_text (PyStr c) = normalize_text (PyStr a) ->
        exists c', find_column_by_aliases cols (a :: rest) = Some c'
                   /\ In c' cols
                   /\ normalize_text (PyStr c') = normalize_text (PyStr a)).
Proof.
  split.
  - intros l1 l2. apply find_in_normalized_app.
  - intros a rest c Hin Hn.
    destruct (df_columns_normalized_spec cols) as [Hs Hc].
    destruct (Hc c Hin) as [v Hv]. rewrite Hn in Hv.
    destruct (dict_get_Some_key _ _ (ex_intro _ v Hv)) as [w Hw].
    exists w. unfold find_column_by_aliases. cbn [find_in_normalized].
    rewrite Hw. split; [reflexivity|].
    apply dict_get_In in Hw. destruct (Hs _ _ Hw) as [H1 H2].
    split; [exact H1 | symmetry; exact H2].
Qed.

Lemma X8_find_column_alias_priority_witness :
  In (lit "Kategori") [lit "Alt Kategori"; lit "Kategori"]
  /\ normalize_text (PyStr (lit "Kategori"))
     = normalize_text (PyStr (lit " KATEGORI "))
  /\ exists c',
       find_column_by_aliases [lit "Alt Kategori"; lit "Kategori"]
                              [lit " KATEGORI "; lit "Alt Kategori"]
       = Some c'
       /\ In c' [lit "Alt Kategori"; lit "Kategori"]
       /\ normalize_text (PyStr c')
          = normalize_text (PyStr (lit " KATEGORI ")).
Proof.
  assert (H1 : In (lit "Kategori") [lit "Alt Kategori"; lit "Kategori"])
    by (right; left; reflexivity).
  split; [exact H1|]. split; [reflexivity|].
  exact (proj2 (X8_find_column_alias_priority
                  [lit "Alt Kategori"; lit "Kategori"])
               (lit " KATEGORI ") [lit "Alt Kategori"] (lit "Kategori")
               H1 eq_refl).
Defined.

Example find_column_exact_before_partial :
  find_column_by_aliases [lit "Alt Kategori"; lit "Kategori"]
                         [lit " KATEGORI "; lit "Alt Kategori"]
  = Some (lit "Kategori")
  /\ find_column_by_aliases [lit "Alt Kategori"; lit "Ana Kategori"]
                            [lit "kategori"]
     = Some (lit "Alt Kategori").
Proof. split; reflexivity. Qed.

Lemma validate_loop_missing (cols : list pystr)
      (req : list (pystr * list pystr)) (m : list (pystr * pystr))
      (miss : list pystr) :
  snd (validate_loop cols req m miss) =
  miss ++ map fst (filter (fun p => negb (found_column cols (snd p))) req).
Proof.
  revert m miss. induction req as [|[name aliases] req IH]; intros m miss;
    cbn [validate_loop filter map snd].
  - rewrite app_nil_r. reflexivity.
  - unfold found_column at 1.
    destruct (find_column_by_aliases cols aliases) as [c|].
    + destruct (negb (is_empty c)); cbn [negb map].
      * apply IH.
      * rewrite IH, <- app_assoc. reflexivity.
    + cbn [negb map]. rewrite IH, <- app_assoc. reflexivity.
Qed.

Lemma validate_loop_mapping (cols : list pystr)
      (req : list (pystr * list pystr)) (m : list (pystr * pystr))
      (miss : list pystr) :
  let m' := fst (validate_loop cols req m miss) in
  (forall name c, dict_get name m' = Some c ->
     dict_get name m = Some c
     \/ exists aliases, In (name, aliases) req
          /\ find_column_by_aliases cols aliases = Some c /\ c <> [])
  /\ (forall name, dict_get name m <> None -> dict_get name m' <> None)
  /\ (forall name aliases, In (name, aliases) req ->
        found_column cols aliases = true -> dict_get name m' <> None).
Proof.
  revert m miss. induction req as [|[name0 aliases0] req IH]; intros m miss;
    cbn [validate_loop].
  - cbn [fst]. split; [auto|]. split; [auto | intros ? ? []].
  - assert (Hskip :
      forall miss',
        let m' := fst (validate_loop cols req m miss') in
        found_column cols aliases0 = false ->
        (forall name c, dict_get name m' = Some c ->
           dict_get name m = Some c
           \/ exists aliases, In (name, aliases) ((name0, aliases0) :: req)
                /\ find_column_by_aliases cols aliases = Some c /\ c <> [])
        /\ (forall name, dict_get name m <> None -> dict_get name m' <> None)
        /\ (forall name aliases, In (name, aliases) ((name0, aliases0) :: req) ->
              found_column cols aliases = true -> dict_get name m' <> None)).
    { intros miss' m' Hf. destruct (IH m miss') as [H1 [H2 H3]].
      fold m' in H1, H2, H3. split; [|split].
      - intros name c Hc. destruct (H1 name c Hc) as [H|[al [Hin H]]];
          [left; exact H | right; exists al; split; [right; exact Hin | exact H]].
      - exact H2.
      - intros name al [E|Hin] Hfc; [|exact (H3 name al Hin Hfc)].
        injection E as -> ->. congruence. }
    unfold found_column in Hskip.
    destruct (find_column_by_aliases cols aliases0) as [c0|] eqn:Ef;
      [|apply Hskip; reflexivity].
    destruct (is_empty c0) eqn:Ee; cbn [negb] in *;
      [apply Hskip; reflexivity|].
    destruct (IH (dict_set name0 c0 m) miss) as [H1 [H2 H3]].
    set (m' := fst (validate_loop cols req (dict_set name0 c0 m) miss)) in *.
    split; [|split].
    + intros name c Hc. destruct (H1 name c Hc) as [H|[al [Hin H]]].
      * destruct (str_eqb name name0) eqn:En.
        -- apply str_eqb_eq in En. subst name0.
           rewrite dict_get_set_same in H. injection H as ->.
           right. exists aliases0. split; [left; reflexivity|].
           split; [exact Ef|]. destruct c; [discriminate Ee | discriminate].
        -- apply str_eqb_neq in En.
           rewrite dict_get_set_other in H by exact En. left; exact H.
      * right. exists al. split; [right; exact Hin | exact H].
    + intros name Hn. apply H2.
      destruct (str_eqb name name0) eqn:En.
      * apply str_eqb_eq in En. subst. rewrite dict_get_set_same. discriminate.
      * apply str_eqb_neq in En. rewrite dict_get_set_other by exact En.
        exact Hn.
    + intros name al [E|Hin] Hfc; [|exact (H3 name al Hin Hfc)].
      injection E as -> ->. apply H2. rewrite dict_get_set_same. discriminate.
Qed.

(** X9.  [validate_dataframe_columns] succeeds exactly when every required
    name has an alias-matched column with a non-empty name.  The mapping
    then gives every required name such a column of the table; otherwise
    the error names exactly the required names that have none, with the
    (stripped) columns of the table. *)
Theorem X9_validate_dataframe_columns_spec (df_columns : list pyval)
        (required_columns : list (pystr * list pystr)) :
  ((exists m, validate_dataframe_columns df_columns required_columns
              = Mapped m) <->
   forall name aliases, In (name, aliases) required_columns ->
     found_column (map strip_column df_columns) aliases = true)
  /\ (forall m,
        validate_dataframe_columns df_columns required_columns = Mapped m ->
        forall name aliases, In (name, aliases) required_columns ->
        exists c aliases',
          dict_get name m = Some c
          /\ In (name, aliases') required_columns
          /\ find_column_by_aliases (map strip_column df_columns) aliases'
             = Some c
          /\ c <> [] /\ In c (map strip_column df_columns))
  /\ (forall missing available,
        validate_dataframe_columns df_columns required_columns
        = ValueError_missing missing available ->
        available = map strip_column df_columns
        /\ forall name, In name missing <->
             exists aliases, In (name, aliases) required_columns
               /\ found_column (map strip_column df_columns) aliases = false).
Proof.
  unfold validate_dataframe_columns.
  set (cols := map strip_column df_columns).
  pose proof (validate_loop_missing cols required_columns [] []) as Hmiss.
  pose proof (validate_loop_mapping cols required_columns [] []) as Hmap.
  destruct (validate_loop cols required_columns [] []) as [m miss].
  cbn [fst snd app] in Hmiss, Hmap. cbv zeta in Hmap.
  destruct Hmap as [H1 [_ H3]].
  assert (Hin : forall name, In name miss <->
            exists aliases, In (name, aliases) required_columns
              /\ found_column cols aliases = false).
  { intros name. rewrite Hmiss, in_map_iff. split.
    - intros [[n al] [E Hf]]. cbn [fst] in E. subst n.
      apply filter_In in Hf. destruct Hf as [Hf Hb]. cbn [snd] in Hb.
      exists al. split; [exact Hf|]. apply negb_true_iff. exact Hb.
    - intros [al [Hf Hb]]. exists (name, al). split; [reflexivity|].
      apply filter_In. split; [exact Hf|]. cbn [snd]. rewrite Hb.
      reflexivity. }
  split; [|split].
  - split.
    + intros [m0 E] name al Hal.
      destruct miss as [|x miss']; [|discriminate E].
      destruct (found_column cols al) eqn:Ef; [reflexivity|].
      exfalso. apply (proj2 (Hin name)). exists al. auto.
    + intros Hall. destruct miss as [|x miss']; [eexists; reflexivity|].
      exfalso. destruct (proj1 (Hin x) (or_introl eq_refl)) as [al [Hal Hf]].
      rewrite (Hall x al Hal) in Hf. discriminate.
  - intros m0 E name al Hal.
    destruct miss as [|x miss']; [|discriminate E].
    cbn [df_empty negb] in E. injection E as <-.
    assert (Hf : found_column cols al = true).
    { destruct (found_column cols al) eqn:Ef; [reflexivity|].
      exfalso. apply (proj2 (Hin name)). exists al. auto. }
    destruct (dict_get name m) as [c|] eqn:Eg;
      [|exfalso; exact (H3 name al Hal Hf Eg)].
    destruct (H1 name c Eg) as [H|[al' [Hal' [Hfc Hne]]]]; [discriminate H|].
    exists c, al'. split; [reflexivity|]. split; [exact Hal'|].
    split; [exact Hfc|]. split; [exact Hne|].
    exact (proj1 (find_column_sound cols al' c Hfc)).
  - intros missing available E.
    destruct miss as [|x miss']; [discriminate E|].
    cbn [df_empty negb] in E. injection E as <- <-.
    split; [reflexivity | exact Hin].
Qed.

Lemma X9_validate_dataframe_columns_witness :
  validate_dataframe_columns
    [PyStr (lit " Kategori "); PyNone; PyStr (lit "Oran")]
    [(lit "kategori", [lit "kategori"]);
     (lit "urun_grubu", [lit "ürün grubu"; lit "product group"])]
  = ValueError_missing [lit "urun_grubu"]
                       [lit "Kategori"; lit ""; lit "Oran"]
  /\ (In (lit "urun_grubu") [lit "urun_grubu"] <->
      exists aliases,
        In (lit "urun_grubu", aliases)
           [(lit "kategori", [lit "kategori"]);
            (lit "urun_grubu", [lit "ürün grubu"; lit "product group"])]
        /\ found_column
             (map strip_column
                  [PyStr (lit " Kategori "); PyNone; PyStr (lit "Oran")])
             aliases = false).
Proof.
  split; [reflexivity|].
  exact (proj2 (proj2 (proj2 (X9_validate_dataframe_columns_spec
                  [PyStr (lit " Kategori "); PyNone; PyStr (lit "Oran")]
                  [(lit "kategori", [lit "kategori"]);
                   (lit "urun_grubu", [lit "ürün grubu"; lit "product group"])]))
                  [lit "urun_grubu"] [lit "Kategori"; lit ""; lit "Oran"]
                  eq_refl)
               (lit "urun_grubu")).
Defined.

Example find_column_blank_name_matches_any_alias :
  find_column_by_aliases [lit "Kod"; lit "nan"] [lit "komisyon"]
  = Some (lit "nan").
Proof. reflexivity. Qed.

(** ** clean_dataframe_text_columns *)

Lemma collapsed_tail (c : char) (t : pystr) :
  collapsed (c :: t) = true -> collapsed t = true.
Proof. cbn [collapsed]. intros H. apply andb_true_iff in H. apply H. Qed.

Lemma collapsed_lstrip (s : pystr) :
  collapsed s = true -> collapsed (lstrip s) = true.
Proof.
  induction s as [|c t IH]; [reflexivity|]. intros H. cbn [lstrip].
  destruct (is_space c); [apply IH, (collapsed_tail c t H) | exact H].
Qed.

Lemma rstrip_head_space (s : pystr) :
  rstrip s <> [] -> starts_with_space (rstrip s) = starts_with_space s.
Proof.
  destruct s as [|c t]; [reflexivity|]. cbn [rstrip starts_with_space].
  destruct (rstrip t).
  - destruct (is_space c) eqn:Ec; [congruence|].
    intros _. cbn [starts_with_space]. exact Ec.
  - reflexivity.
Qed.

Lemma collapsed_rstrip (s : pystr) :
  collapsed s = true -> collapsed (rstrip s) = true.
Proof.
  induction s as [|c t IH]; [reflexivity|]. intros H.
  pose proof (collapsed_tail c t H) as Ht. specialize (IH Ht).
  cbn [rstrip]. destruct (rstrip t) as [|x t'] eqn:E.
  - destruct (is_space c) eqn:Ec; [reflexivity|].
    cbn [collapsed]. rewrite Ec. reflexivity.
  - cbn [collapsed] in H |- *. apply andb_true_iff in H.
    destruct H as [Hc _]. apply andb_true_iff. split; [|exact IH].
    destruct (is_space c); [|reflexivity].
    assert (Hh : starts_with_space (rstrip t) = starts_with_space t)
      by (apply rstrip_head_space; rewrite E; discriminate).
    rewrite E in Hh. rewrite Hh. exact Hc.
Qed.

Lemma strip_strip (s : pystr) : strip (strip s) = strip s.
Proof. apply strip_fixed; [apply strip_head | apply strip_tail]. Qed.

Lemma strip_re_sub_ws_stable (s : pystr) :
  strip (re_sub_ws (strip (re_sub_ws s))) = strip (re_sub_ws s).
Proof.
  rewrite (collapsed_fixed (strip (re_sub_ws s))).
  - apply strip_strip.
  - unfold strip. apply collapsed_rstrip, collapsed_lstrip,
      re_sub_ws_collapsed.
Qed.

Lemma clean_text_idempotent (v : pyval) :
  clean_text (PyStr (clean_text v)) = clean_text v.
Proof.
  unfold clean_text at 2 3.
  destruct (in_strs (strip (re_sub_ws (astype_str v))) _) eqn:E;
    [reflexivity|].
  unfold clean_text. cbn [astype_str].
  rewrite strip_re_sub_ws_stable, E. reflexivity.
Qed.

(** X10.  A cleaned cell has no white space at its ends, every white-space
    run in it is one space, it is none of the texts "nan", "NaN", "None",
    "null", "NULL", and cleaning it again changes nothing. *)
Theorem X10_clean_text_is_clean (v : pyval) :
  strip (clean_text v) = clean_text v
  /\ re_sub_ws (clean_text v) = clean_text v
  /\ ~ In (clean_text v)
          [lit "nan"; lit "NaN"; lit "None"; lit "null"; lit "NULL"]
  /\ clean_text (PyStr (clean_text v)) = clean_text v.
Proof.
  split; [|split; [|split]]; [| | |apply clean_text_idempotent].
  - unfold clean_text. destruct (in_strs _ _); [reflexivity|].
    apply strip_strip.
  - unfold clean_text. destruct (in_strs _ _); [reflexivity|].
    apply collapsed_fixed. unfold strip.
    apply collapsed_rstrip, collapsed_lstrip, re_sub_ws_collapsed.
  - unfold clean_text.
    destruct (in_strs (strip (re_sub_ws (astype_str v))) _) eqn:E.
    + intros H. vm_compute in H.
      repeat (destruct H as [H|H]; [discriminate H|]). exact H.
    + intros H. apply in_strs_In in H. congruence.
Qed.

Lemma set_nth_length {A : Type} (i : nat) (v : A) (l : list A) :
  List.length (set_nth i v l) = List.length l.
Proof.
  revert i. induction l as [|x l IH]; intros [|i]; simpl;
    try reflexivity. f_equal. apply IH.
Qed.

Lemma set_nth_nth {A : Type} (i j : nat) (v d : A) (l : list A) :
  (j < List.length l)%nat ->
  nth j (set_nth i v l) d = if Nat.eqb i j then v else nth j l d.
Proof.
  revert i j. induction l as [|x l IH]; intros i j Hj; [simpl in Hj; lia|].
  destruct i as [|i], j as [|j]; simpl; try reflexivity.
  apply IH. simpl in Hj. lia.
Qed.

Lemma clean_column_columns (df : DataFrame) (col : pystr) :
  columns (clean_column df col) = columns df.
Proof.
  unfold clean_column. destruct (index_of col (columns df)); reflexivity.
Qed.

Lemma clean_dataframe_columns (df : DataFrame) (cols : list pystr) :
  columns (clean_dataframe_text_columns df cols) = columns df.
Proof.
  unfold clean_dataframe_text_columns. revert df.
  induction cols as [|c cols IH]; intros df; cbn [fold_left]; [reflexivity|].
  rewrite IH. apply clean_column_columns.
Qed.

Lemma clean_rows_fold (cols : list pystr) (df : DataFrame) :
  rows (clean_dataframe_text_columns df cols) =
  map (fun row =>
         fold_left
           (fun r col =>
              match index_of col (columns df) with
              | Some i => set_nth i (PyStr (clean_text (nth i r PyNaN))) r
              | None => r
              end) cols row)
      (rows df).
Proof.
  unfold clean_dataframe_text_columns. revert df.
  induction cols as [|c cols IH]; intros df; cbn [fold_left].
  - symmetry. apply map_id.
  - rewrite IH, clean_column_columns. unfold clean_column.
    destruct (index_of c (columns df)) as [i|]; cbn [rows].
    + rewrite map_map. reflexivity.
    + reflexivity.
Qed.

Lemma clean_row_fold_spec (cs cols : list pystr) (row : list pyval) :
  let row' :=
    fold_left
      (fun r col =>
         match index_of col cs with
         | Some i => set_nth i (PyStr (clean_text (nth i r PyNaN))) r
         | None => r
         end) cols row in
  List.length row' = List.length row
  /\ forall i, (i < List.length row)%nat ->
       nth i row' PyNaN =
       if existsb (fun col => match index_of col cs with
                              | Some j => Nat.eqb j i
                              | None => false
                              end) cols
       then PyStr (clean_text (nth i row PyNaN))
       else nth i row PyNaN.
Proof.
  revert row. induction cols as [|c cols IH]; intros row; cbn [fold_left].
  - cbv zeta. split; [reflexivity | intros i _; reflexivity].
  - cbv zeta. cbn [existsb].
    destruct (index_of c cs) as [j|].
    + specialize (IH (set_nth j (PyStr (clean_text (nth j row PyNaN))) row)).
      cbv zeta in IH. destruct IH as [Hl Hn].
      rewrite set_nth_length in Hl, Hn. split; [exact Hl|].
      intros i Hi. rewrite (Hn i Hi), (set_nth_nth j i _ _ _ Hi).
      destruct (Nat.eqb j i) eqn:E; cbn [orb].
      * apply Nat.eqb_eq in E. subst j.
        destruct (existsb _ cols); [|reflexivity].
        rewrite clean_text_idempotent. reflexivity.
      * reflexivity.
    + cbn [orb]. apply IH.
Qed.

(** X11.  [clean_dataframe_text_columns] keeps the columns, the number of
    rows and the length of every row; a cell under a listed column becomes
    its cleaned text, and every other cell is left as it is. *)
Theorem X11_clean_dataframe_touches_listed_columns (df : DataFrame)
        (cols : list pystr) :
  columns (clean_dataframe_text_columns df cols) = columns df
  /\ List.length (rows (clean_dataframe_text_columns df cols))
     = List.length (rows df)
  /\ forall k i,
       (k < List.length (rows df))%nat ->
       List.length (nth k (rows (clean_dataframe_text_columns df cols)) [])
       = List.length (nth k (rows df) [])
       /\ ((i < List.length (nth k (rows df) []))%nat ->
           nth i (nth k (rows (clean_dataframe_text_columns df cols)) [])
               PyNaN =
           if existsb (fun col => match index_of col (columns df) with
                                  | Some j => Nat.eqb j i
                                  | None => false
                                  end) cols
           then PyStr (clean_text (nth i (nth k (rows df) []) PyNaN))
           else nth i (nth k (rows df) []) PyNaN).
Proof.
  split; [apply clean_dataframe_columns|].
  rewrite clean_rows_fold. split; [apply length_map|].
  intros k i Hk.
  set (f := fun row : list pyval => fold_left _ cols row).
  assert (E : nth k (map f (rows df)) [] = f (nth k (rows df) [])).
  { rewrite (nth_indep _ [] (f []))
      by (rewrite length_map; exact Hk).
    apply map_nth. }
  rewrite E.
  destruct (clean_row_fold_spec (columns df) cols (nth k (rows df) []))
    as [Hl Hn].
  split; [exact Hl | exact (Hn i)].
Qed.

Lemma X11_clean_dataframe_witness :
  (0 < List.length (rows df_untidy))%nat
  /\ rows (clean_dataframe_text_columns df_untidy
             [lit "Ürün Grubu"; lit "Yok"; lit "Kategori"])
     = [[PyStr (lit "Ev ve Yaşam"); PyStr (lit ""); PyStr (lit " %8 ")]]
  /\ nth 1 (nth 0 (rows (clean_dataframe_text_columns df_untidy
                           [lit "Ürün Grubu"; lit "Yok"; lit "Kategori"]))
                  []) PyNaN
     = PyStr (clean_text (nth 1 (nth 0 (rows df_untidy) []) PyNaN)).
Proof.
  split; [vm_compute; lia|]. split; [reflexivity|].
  assert (Hk : (0 < List.length (rows df_untidy))%nat) by (vm_compute; lia).
  assert (Hi : (1 < List.length (nth 0 (rows df_untidy) []))%nat)
    by (vm_compute; lia).
  exact (proj2 (proj2 (proj2 (X11_clean_dataframe_touches_listed_columns
                  df_untidy [lit "Ürün Grubu"; lit "Yok"; lit "Kategori"]))
                  0%nat 1%nat Hk) Hi).
Defined.

(** ** The legacy lookup: tiers, product-group list, alternatives *)

Lemma word_search_contains (q : pystr) (prev : option char) (s : pystr) :
  word_search q prev s = true -> contains q s = true.
Proof.
  revert prev. induction s as [|c t IH]; intros prev;
    cbn [word_search contains]; intros H;
    apply orb_true_iff in H; destruct H as [H|H].
  - apply andb_true_iff in H. destruct H as [H _].
    apply andb_true_iff in H. destruct H as [_ H]. rewrite H. reflexivity.
  - discriminate H.
  - apply andb_true_iff in H. destruct H as [H _].
    apply andb_true_iff in H. destruct H as [_ H]. rewrite H. reflexivity.
  - rewrite (IH _ H). apply orb_true_r.
Qed.

(** X12.  A row selected by the exact-word mask is selected by the partial
    mask and by the broad mask: the later tiers only widen the first. *)
Theorem X12_exact_mask_implies_partial (query_norm : pystr) (r : Flat4) :
  mask_exact query_norm r = true ->
  mask_partial query_norm r = true /\ broad_mask query_norm r = true.
Proof.
  intros H. assert (Hp : mask_partial query_norm r = true).
  { unfold mask_exact, mask_partial, create_search_pattern, str_contains in *.
    exact (word_search_contains _ _ _ H). }
  split; [exact Hp|].
  unfold broad_mask. unfold mask_partial in Hp. rewrite Hp.
  apply orb_true_r.
Qed.

Lemma X12_exact_mask_implies_partial_witness :
  mask_exact (lit "telefon") rec_phone_15 = true
  /\ mask_partial (lit "telefon") rec_phone_15 = true
  /\ broad_mask (lit "telefon") rec_phone_15 = true.
Proof.
  split; [reflexivity|].
  exact (X12_exact_mask_implies_partial (lit "telefon") rec_phone_15 eq_refl).
Defined.

(** X13.  The search returns rows of the table in table order, each at
    most as often as the table holds it (the result is the table filtered
    by some mask).  For a query whose normalised text is not "none", every
    row returned holds the normalised query in one of its three normalised
    fields or has a product group proposed by the similarity ranking.  For
    a query normalised to "none" the patterns are built from the empty
    text: the search returns the rows whose normalised product group has a
    word character, or the whole table when there is none. *)
Theorem X13_search_returns_filtered_rows
        (gcm : pystr -> list pystr -> N -> Q -> list pystr)
        (df : list Flat4) (query : pystr) :
  (exists mask, search_products gcm df query = filter mask df)
  /\ (normalize_text (PyStr query) <> lit "none" ->
      forall r, In r (search_products gcm df query) ->
        In r df
        /\ ((contains (normalize_text (PyStr query)) (_kategori_norm r)
             || contains (normalize_text (PyStr query))
                         (_alt_kategori_norm r)
             || contains (normalize_text (PyStr query))
                         (_urun_grubu_norm r)) = true
            \/ mask_fuzzy gcm df query r = true))
  /\ (normalize_text (PyStr query) = lit "none" ->
      search_products gcm df query
      = match filter (fun r => existsb is_word (_urun_grubu_norm r)) df with
        | [] => df
        | found => found
        end).
Proof.
  assert (Hsound :
            (exists mask, search_products gcm df query = filter mask df)
            /\ forall r, In r (search_products gcm df query) ->
                 In r df
                 /\ (broad_mask (normalize_text (PyStr query)) r = true
                     \/ mask_fuzzy gcm df query r = true)).
  { unfold search_products.
    set (qn := normalize_text (PyStr query)).
    assert (Hnil : @nil Flat4 = filter (fun _ => false) df).
    { clear. induction df as [|x df IH]; [reflexivity | exact IH]. }
    assert (Hcat : forall r,
               mask_category qn r = true -> broad_mask qn r = true).
    { intros r H. unfold broad_mask. unfold mask_category in H. rewrite H.
      reflexivity. }
    assert (Hpar : forall r,
               mask_partial qn r = true -> broad_mask qn r = true).
    { intros r H. unfold broad_mask. unfold mask_partial in H. rewrite H.
      apply orb_true_r. }
    destruct (is_empty qn); [split; [eexists; exact Hnil | intros r []]|].
    destruct (negb (df_empty (filter (mask_exact qn) df))).
    { split; [eexists; reflexivity|]. intros r Hr. apply filter_In in Hr.
      destruct Hr as [Hin Hm]. split; [exact Hin|]. left.
      exact (Hpar r (word_search_contains _ _ _ Hm)). }
    destruct (negb (df_empty (filter (mask_partial qn) df))).
    { split; [eexists; reflexivity|]. intros r Hr. apply filter_In in Hr.
      destruct Hr as [Hin Hm]. split; [exact Hin | left; exact (Hpar r Hm)]. }
    destruct (negb (df_empty (filter (mask_category qn) df))).
    { split; [eexists; reflexivity|]. intros r Hr. apply filter_In in Hr.
      destruct Hr as [Hin Hm]. split; [exact Hin | left; exact (Hcat r Hm)]. }
    destruct (negb (df_empty (fuzzy_matches gcm df query))).
    { split; [eexists; reflexivity|]. intros r Hr. apply filter_In in Hr.
      destruct Hr as [Hin Hm]. split; [exact Hin | right; exact Hm]. }
    destruct (negb (df_empty (filter (broad_mask qn) df)));
      [|split; [eexists; exact Hnil | intros r []]].
    split; [eexists; reflexivity|]. intros r Hr. apply filter_In in Hr.
    destruct Hr as [Hin Hm]. split; [exact Hin | left; exact Hm]. }
  destruct Hsound as [Hmask Hrows].
  split; [exact Hmask|]. split.
  - intros Hn r Hr. destruct (Hrows r Hr) as [Hin Hb].
    split; [exact Hin|].
    rewrite (proj2 (proj2 (proj2 (masks_normalized query r Hn)))) in Hb.
    exact Hb.
  - intros Hn.
    assert (Hq : normalize_text (PyStr query) <> [])
      by (rewrite Hn; vm_compute; discriminate).
    destruct (search_products_tiers gcm df query Hq) as [T1 [T2 [_ [_ _]]]].
    rewrite Hn in T1, T2.
    assert (E1 : filter (mask_exact (lit "none")) df
                 = filter (fun r => existsb is_word (_urun_grubu_norm r)) df)
      by (apply filter_ext; intros x; exact (proj1 (masks_none x))).
    assert (E2 : filter (mask_partial (lit "none")) df = df).
    { rewrite <- (filter_true df) at 2. apply filter_ext. intros x.
      exact (proj1 (proj2 (masks_none x))). }
    rewrite E1 in T1, T2. rewrite E2 in T2.
    destruct (filter (fun r => existsb is_word (_urun_grubu_norm r)) df)
      as [|x found] eqn:Ef.
    + destruct df as [|y df'].
      * destruct Hmask as [mask ->]. reflexivity.
      * apply T2; [reflexivity | discriminate].
    + apply T1. discriminate.
Qed.

Lemma X13_search_returns_filtered_rows_witness :
  normalize_text (PyStr (lit "telefon")) <> lit "none"
  /\ In rec_phone_15
        (search_products no_close_matches
           [rec_phones; rec_phone_15; rec_pan_8] (lit "telefon"))
  /\ In rec_phone_15 [rec_phones; rec_phone_15; rec_pan_8]
  /\ ((contains (normalize_text (PyStr (lit "telefon")))
                (_kategori_norm rec_phone_15)
       || contains (normalize_text (PyStr (lit "telefon")))
                   (_alt_kategori_norm rec_phone_15)
       || contains (normalize_text (PyStr (lit "telefon")))
                   (_urun_grubu_norm rec_phone_15)) = true
      \/ mask_fuzzy no_close_matches [rec_phones; rec_phone_15; rec_pan_8]
           (lit "telefon") rec_phone_15 = true)
  /\ normalize_text (PyStr (lit "nöne")) = lit "none"
  /\ search_products no_close_matches
       [rec_none_brand; rec_pan_8; rec_phone_15] (lit "nöne")
     = match filter (fun r => existsb is_word (_urun_grubu_norm r))
                    [rec_none_brand; rec_pan_8; rec_phone_15] with
       | [] => [rec_none_brand; rec_pan_8; rec_phone_15]
       | found => found
       end.
Proof.
  assert (Hn : normalize_text (PyStr (lit "telefon")) <> lit "none")
    by (vm_compute; discriminate).
  assert (H : In rec_phone_15
                (search_products no_close_matches
                   [rec_phones; rec_phone_15; rec_pan_8] (lit "telefon")))
    by (vm_compute; left; reflexivity).
  assert (E : normalize_text (PyStr (lit "nöne")) = lit "none")
    by (vm_compute; reflexivity).
  split; [exact Hn|]. split; [exact H|].
  pose proof (X13_search_returns_filtered_rows no_close_matches
                [rec_phones; rec_phone_15; rec_pan_8] (lit "telefon"))
    as [_ [Hrows _]].
  destruct (Hrows Hn rec_phone_15 H) as [Hin Hc].
  split; [exact Hin|]. split; [exact Hc|]. split; [exact E|].
  exact (proj2 (proj2 (X13_search_returns_filtered_rows no_close_matches
                         [rec_none_brand; rec_pan_8; rec_phone_15]
                         (lit "nöne"))) E).
Defined.

(** X14.  The product-group list offered to the similarity ranking is in
    ascending order without repetition, and holds exactly the product
    groups of the table that are not empty, have at least two characters
    once stripped, and are not "nan", "none" or "null". *)
Theorem X14_unique_values_sorted_distinct (df : list Flat4) :
  StronglySorted (fun a b => str_leb a b = true)
                 (get_unique_values_from_column df)
  /\ NoDup (get_unique_values_from_column df)
  /\ forall val, In val (get_unique_values_from_column df) <->
       In val (map Urun_Grubu df)
       /\ val <> []
       /\ (2 <= List.length (strip val))%nat
       /\ ~ In (lower (strip val))
               [lit "nan"; lit "none"; lit "null"; lit ""].
Proof.
  unfold get_unique_values_from_column. rewrite sorted_strs_sort_by.
  split; [|split].
  - apply sort_by_sorted; [apply str_leb_total | apply str_leb_trans].
  - eapply Permutation_NoDup; [apply Permutation_sym, sort_by_perm|].
    apply NoDup_filter, unique_from_NoDup.
  - intros val. rewrite sort_by_In, filter_In, unique_from_In.
    rewrite !andb_true_iff, !negb_true_iff, Nat.leb_le.
    split.
    + intros [[Hin _] [[Hne Hlen] Hw]]. split; [exact Hin|].
      split; [destruct val; [discriminate Hne | discriminate]|].
      split; [exact Hlen|]. intros H. apply in_strs_In in H. congruence.
    + intros [Hin [Hne [Hlen Hw]]]. split; [split; [exact Hin | intros []]|].
      split; [split; [destruct val; [congruence | reflexivity] | exact Hlen]|].
      destruct (in_strs _ _) eqn:E; [|reflexivity].
      apply in_strs_In in E. contradiction.
Qed.

Lemma sort_values_desc_sort_by (l : list Flat4) :
  sort_values_desc l
  = sort_by (fun x y => comm_geb (Komisyon x) (Komisyon y)) l.
Proof.
  unfold sort_values_desc, sort_by. induction l as [|x l IH]; [reflexivity|].
  cbn [fold_right]. rewrite IH.
  generalize (fold_right
                (insert_by (fun x y => comm_geb (Komisyon x) (Komisyon y)))
                [] l).
  intros m. induction m as [|y m IHm]; [reflexivity|].
  cbn [insert_desc insert_by]. rewrite IHm. reflexivity.
Qed.

Lemma sort_values_desc_sorted (l : list Flat4) :
  StronglySorted (fun a b => comm_geb (Komisyon a) (Komisyon b) = true)
                 (sort_values_desc l).
Proof.
  rewrite sort_values_desc_sort_by.
  apply (sort_by_sorted (fun x y => comm_geb (Komisyon x) (Komisyon y))).
  - intros a b. apply comm_geb_total.
  - intros a b c. apply comm_geb_trans.
Qed.

Lemma firstn_In_list {A : Type} (n : nat) (l : list A) (x : A) :
  In x (firstn n l) -> In x l.
Proof.
  revert n. induction l as [|y l IH]; intros n.
  - rewrite firstn_nil. intros [].
  - destruct n as [|n]; cbn [firstn]; [intros []|].
    intros [<-|H]; [left; reflexivity | right; exact (IH n H)].
Qed.

Lemma StronglySorted_firstn {A : Type} (R : A -> A -> Prop) (n : nat)
      (l : list A) :
  StronglySorted R l -> StronglySorted R (firstn n l).
Proof.
  revert n. induction l as [|x l IH]; intros n H.
  - rewrite firstn_nil. constructor.
  - destruct n as [|n]; [constructor|]. cbn [firstn].
    apply StronglySorted_inv in H. destruct H as [Hs Hx].
    constructor; [apply IH, Hs|].
    apply Forall_forall. intros y Hy. rewrite Forall_forall in Hx.
    apply Hx. exact (firstn_In_list _ _ _ Hy).
Qed.

Lemma filter_filter_implied {A : Type} (f g : A -> bool) (l : list A) :
  (forall x, f x = true -> g x = true) ->
  filter f (filter g l) = filter f l.
Proof.
  intros H. induction l as [|x l IH]; [reflexivity|]. cbn [filter].
  destruct (g x) eqn:Eg.
  - cbn [filter]. rewrite IH. reflexivity.
  - destruct (f x) eqn:Ef; [rewrite (H x Ef) in Eg; discriminate | exact IH].
Qed.

(** A group that is not the excluded one keeps all its rows among the
    alternatives, hence its maximum. *)
Lemma group_max_alternatives (results : list Flat4) (best k : Flat4) :
  same_key k best = false ->
  group_max (filter (fun r => negb (same_key r best)) results) k
  = group_max results k.
Proof.
  intros Hk. unfold group_max. f_equal. f_equal.
  apply filter_filter_implied. intros r Hr.
  destruct (same_key r best) eqn:E; [|reflexivity].
  rewrite (same_key_trans _ _ _ Hr E) in Hk. discriminate.
Qed.

Lemma alternatives_In (n : nat) (results : list Flat4) (best a : Flat4) :
  In a (get_alternative_matches n results (Some best)) ->
  exists k, In k results /\ same_key k best = false
    /\ a = {| Kategori := Kategori k; Alt_Kategori := Alt_Kategori k;
              Urun_Grubu := Urun_Grubu k;
              Komisyon := group_max results k |}.
Proof.
  unfold get_alternative_matches.
  destruct (df_empty results); [intros []|].
  destruct (df_empty (filter _ results)); [intros []|].
  intros H. apply firstn_In_list in H.
  apply (proj1 (sort_values_desc_In _ _)) in H.
  apply (proj1 (groupby_max_In _ _)) in H. destruct H as [k [Hk ->]].
  apply group_keys_from_In in Hk. apply filter_In in Hk.
  destruct Hk as [Hin Hb]. apply negb_true_iff in Hb.
  exists k. split; [exact Hin|]. split; [exact Hb|].
  rewrite (group_max_alternatives results best k Hb). reflexivity.
Qed.

(** X15.  Every alternative is a group of the results other than the
    excluded one, carrying the maximum commission of its group, and there
    are at most [MAX_OTHER_RESULTS] of them. *)
Theorem X15_alternatives_are_other_groups (MAX_OTHER_RESULTS : nat)
        (results : list Flat4) (exclude_best : option Flat4) :
  (List.length (get_alternative_matches MAX_OTHER_RESULTS results exclude_best)
   <= MAX_OTHER_RESULTS)%nat
  /\ forall best a,
       exclude_best = Some best ->
       In a (get_alternative_matches MAX_OTHER_RESULTS results exclude_best) ->
       same_key a best = false
       /\ (exists r, In r results /\ same_key a r = true)
       /\ Komisyon a = group_max results a.
Proof.
  split.
  - unfold get_alternative_matches.
    destruct exclude_best as [best|]; [|apply Nat.le_0_l].
    destruct (df_empty results); [apply Nat.le_0_l|].
    destruct (df_empty (filter _ results)); [apply Nat.le_0_l|].
    apply firstn_le_length.
  - intros best a -> Ha.
    destruct (alternatives_In _ _ _ _ Ha) as [k [Hin [Hb ->]]].
    split; [exact Hb|]. split.
    + exists k. split; [exact Hin | apply same_key_iff; auto].
    + cbn [Komisyon]. apply group_max_key. apply same_key_iff. auto.
Qed.

Lemma X15_alternatives_witness :
  get_alternative_matches 5
    [rec_phone_15; rec_case_10; rec_phone_18; rec_pan_8; rec_case_10]
    (Some rec_phone_18)
  = [rec_case_10; rec_pan_8]
  /\ same_key rec_case_10 rec_phone_18 = false
  /\ (exists r,
        In r [rec_phone_15; rec_case_10; rec_phone_18; rec_pan_8; rec_case_10]
        /\ same_key rec_case_10 r = true)
  /\ Komisyon rec_case_10
     = group_max
         [rec_phone_15; rec_case_10; rec_phone_18; rec_pan_8; rec_case_10]
         rec_case_10.
Proof.
  assert (E : get_alternative_matches 5
                [rec_phone_15; rec_case_10; rec_phone_18; rec_pan_8;
                 rec_case_10] (Some rec_phone_18)
              = [rec_case_10; rec_pan_8]) by (vm_compute; reflexivity).
  split; [exact E|].
  apply (proj2 (X15_alternatives_are_other_groups 5
                  [rec_phone_15; rec_case_10; rec_phone_18; rec_pan_8;
                   rec_case_10] (Some rec_phone_18))
               rec_phone_18 rec_case_10 eq_refl).
  rewrite E. left; reflexivity.
Defined.

(** X16.  The alternatives come in descending order of commission
    (missing values last), and when the excluded group is the best match
    of the same results, no alternative comes before it in that order:
    none has a higher commission. *)
Theorem X16_alternatives_sorted_below_best (MAX_OTHER_RESULTS : nat)
        (results : list Flat4) (exclude_best : option Flat4) :
  StronglySorted (fun a b => comm_geb (Komisyon a) (Komisyon b) = true)
    (get_alternative_matches MAX_OTHER_RESULTS results exclude_best)
  /\ forall best a,
       exclude_best = Some best ->
       get_best_match results = Some best ->
       In a (get_alternative_matches MAX_OTHER_RESULTS results exclude_best) ->
       comm_geb (Komisyon best) (Komisyon a) = true.
Proof.
  split.
  - unfold get_alternative_matches.
    destruct exclude_best as [best|]; [|constructor].
    destruct (df_empty results); [constructor|].
    destruct (df_empty (filter _ results)); [constructor|].
    apply StronglySorted_firstn, sort_values_desc_sorted.
  - intros best a -> Hb Ha.
    assert (Hne : results <> []).
    { intros ->. discriminate Hb. }
    destruct (best_match_is_group_max results Hne) as [g [Eg [_ [_ Hall]]]].
    rewrite Eg in Hb. injection Hb as ->.
    destruct (alternatives_In _ _ _ _ Ha) as [k [Hin [_ ->]]].
    destruct (group_keys_from_covers results [] k Hin)
      as [H|[k' [Hk' Hs]]]; [discriminate H|].
    rewrite <- (group_max_key results k' k Hs). cbn [Komisyon].
    apply (Hall {| Kategori := Kategori k'; Alt_Kategori := Alt_Kategori k';
                   Urun_Grubu := Urun_Grubu k';
                   Komisyon := group_max results k' |}).
    apply groupby_max_In. exists k'. auto.
Qed.

Lemma X16_alternatives_sorted_below_best_witness :
  get_best_match
    [rec_phone_15; rec_case_10; rec_phone_18; rec_pan_8] = Some rec_phone_18
  /\ In rec_case_10
        (get_alternative_matches 5
           [rec_phone_15; rec_case_10; rec_phone_18; rec_pan_8]
           (Some rec_phone_18))
  /\ comm_geb (Komisyon rec_phone_18) (Komisyon rec_case_10) = true.
Proof.
  assert (Hb : get_best_match
                 [rec_phone_15; rec_case_10; rec_phone_18; rec_pan_8]
               = Some rec_phone_18) by (vm_compute; reflexivity).
  assert (E : get_alternative_matches 5
                [rec_phone_15; rec_case_10; rec_phone_18; rec_pan_8]
                (Some rec_phone_18)
              = [rec_case_10; rec_pan_8]) by (vm_compute; reflexivity).
  assert (Ha : In rec_case_10
                 (get_alternative_matches 5
                    [rec_phone_15; rec_case_10; rec_phone_18; rec_pan_8]
                    (Some rec_phone_18)))
    by (rewrite E; left; reflexivity).
  split; [exact Hb|]. split; [exact Ha|].
  exact (proj2 (X16_alternatives_sorted_below_best 5
                  [rec_phone_15; rec_case_10; rec_phone_18; rec_pan_8]
                  (Some rec_phone_18))
               rec_phone_18 rec_case_10 eq_refl Hb Ha).
Defined.

(** ** app.py: the service queries *)

Lemma replace_char_map (o n : char) (s : pystr) :
  replace_char o [n] s = map (fun c => if char_eqb c o then n else c) s.
Proof.
  unfold replace_char. induction s as [|c s IH]; [reflexivity|].
  cbn [flat_map map]. rewrite IH. destruct (char_eqb c o); reflexivity.
Qed.

Lemma normalize_turkish_map (text : pystr) :
  App._normalize_turkish text
  = map (fun c => fold_left (fun c (on : char * char) =>
                               if char_eqb c (fst on) then snd on else c)
                            App.repl c) text.
Proof.
  unfold App._normalize_turkish. generalize App.repl. intros l.
  revert text. induction l as [|[o n] l IH]; intros text; cbn [fold_left].
  - symmetry. apply map_id.
  - rewrite IH, replace_char_map, map_map. reflexivity.
Qed.

Lemma repl_eq :
  App.repl =
  [(0x11F, 0x67); (0x11E, 0x47); (0xFC, 0x75); (0xDC, 0x55); (0x15F, 0x73);
   (0x15E, 0x53); (0x131, 0x69); (0x130, 0x49); (0xF6, 0x6F); (0xD6, 0x4F);
   (0xE7, 0x63); (0xC7, 0x43)].
Proof. reflexivity. Qed.

Lemma repl_char_high (c : char) :
  0x180 <= c ->
  fold_left (fun c (on : char * char) =>
               if char_eqb c (fst on) then snd on else c) App.repl c = c
  /\ translate_char App.repl c = c.
Proof.
  intros Hc. rewrite repl_eq. cbn [fold_left translate_char fst snd].
  unfold char_eqb.
  repeat match goal with
  | |- context [if ?x =? ?k then _ else _] =>
    let E := fresh "E" in
    destruct (x =? k) eqn:E; [exfalso; bool_prop; lia | clear E]
  end.
  split; reflexivity.
Qed.

(** The letters replaced one after the other are replaced as by one
    character table, and no letter of the table is left. *)
Lemma repl_char_facts (c : char) :
  let c' := fold_left (fun c (on : char * char) =>
                         if char_eqb c (fst on) then snd on else c)
                      App.repl c in
  c' = translate_char App.repl c
  /\ ~ In c' (map fst App.repl)
  /\ translate_char App.repl c' = c'.
Proof.
  destruct (N.lt_ge_cases c 0x180) as [Hlo|Hhi].
  - pose (P := fun c : N =>
                 let c' := fold_left
                             (fun c (on : char * char) =>
                                if char_eqb c (fst on) then snd on else c)
                             App.repl c in
                 (c' =? translate_char App.repl c)
                 && negb (existsb (N.eqb c') (map fst App.repl))
                 && (translate_char App.repl c' =? c')).
    assert (H : P c = true)
      by (apply (forall_below P 384); [vm_compute; reflexivity | exact Hlo]).
    unfold P in H. cbv beta zeta in H. cbv zeta. clear P. bool_prop.
    split; [assumption|]. split; [|assumption].
    intros Hin.
    match goal with
    | E : existsb _ _ = false |- _ =>
      assert (Ht : existsb (N.eqb (fold_left
                     (fun c (on : char * char) =>
                        if char_eqb c (fst on) then snd on else c)
                     App.repl c)) (map fst App.repl) = true)
        by (apply existsb_exists; eexists; split;
            [exact Hin | apply N.eqb_refl]);
      rewrite Ht in E; discriminate E
    end.
  - cbv zeta. destruct (repl_char_high c Hhi) as [-> E].
    split; [symmetry; exact E|]. split; [|exact E].
    rewrite repl_eq. cbn [map fst]. intros Hin.
    repeat (destruct Hin as [Hin|Hin]; [lia|]). exact Hin.
Qed.

(** X17.  [_normalize_turkish] (and [_ascii_tr]) replaces each of the
    twelve Turkish letters by its ASCII letter, character by character:
    the length is kept, none of the twelve letters is left, and a second
    pass changes nothing. *)
Theorem X17_normalize_turkish_folds (text : pystr) :
  App._normalize_turkish text = translate App.repl text
  /\ List.length (App._normalize_turkish text) = List.length text
  /\ (forall c, In c (App._normalize_turkish text) ->
        ~ In c (lit "ğĞüÜşŞıİöÖçÇ"))
  /\ App._normalize_turkish (App._normalize_turkish text)
     = App._normalize_turkish text.
Proof.
  assert (E : forall s, App._normalize_turkish s = translate App.repl s).
  { intros s. rewrite normalize_turkish_map. unfold translate.
    apply map_ext. intros c. apply (repl_char_facts c). }
  split; [apply E|]. split; [|split].
  - rewrite E. apply length_map.
  - rewrite normalize_turkish_map. intros c Hc. apply in_map_iff in Hc.
    destruct Hc as [d [<- _]]. exact (proj1 (proj2 (repl_char_facts d))).
  - rewrite (E (App._normalize_turkish text)), normalize_turkish_map.
    unfold translate. rewrite map_map. apply map_ext. intros c.
    exact (proj2 (proj2 (repl_char_facts c))).
Qed.

Lemma ranked_leb_total (a b : N * pystr * DataRow) :
  App.ranked_leb a b = false -> App.ranked_leb b a = true.
Proof.
  unfold App.ranked_leb.
  destruct (fst (fst a) <? fst (fst b)) eqn:E1; [discriminate|].
  destruct (fst (fst b) <? fst (fst a)) eqn:E2; [reflexivity|].
  apply str_leb_total.
Qed.

Lemma ranked_leb_trans (a b c : N * pystr * DataRow) :
  App.ranked_leb a b = true -> App.ranked_leb b c = true ->
  App.ranked_leb a c = true.
Proof.
  unfold App.ranked_leb.
  destruct (fst (fst a) <? fst (fst b)) eqn:E1,
           (fst (fst b) <? fst (fst a)) eqn:E2,
           (fst (fst b) <? fst (fst c)) eqn:E3,
           (fst (fst c) <? fst (fst b)) eqn:E4,
           (fst (fst a) <? fst (fst c)) eqn:E5,
           (fst (fst c) <? fst (fst a)) eqn:E6;
    try congruence; try (intros; reflexivity); bool_prop; try lia.
  apply str_leb_trans.
Qed.

Lemma ranked_rows (q : pystr) (rows : list DataRow) :
  let ranked :=
    flat_map (fun r => match App.rank_of q r with
                       | Some (priority, path_for_sort) =>
                         [(priority, path_for_sort, r)]
                       | None => []
                       end) rows in
  map snd ranked
  = filter (fun r => match App.rank_of q r with
                     | Some _ => true
                     | None => false
                     end) rows
  /\ forall item, In item ranked ->
       App.rank_of q (snd item) = Some (fst item).
Proof.
  induction rows as [|r rows [IH1 IH2]]; [split; [reflexivity | intros ? []]|].
  cbn [flat_map filter].
  destruct (App.rank_of q r) as [[p path]|] eqn:E.
  - split.
    + cbn [app map snd]. f_equal. exact IH1.
    + intros item [<-|Hin]; [exact E | exact (IH2 item Hin)].
  - split; [exact IH1 | exact IH2].
Qed.

Lemma rank_of_Some (q : pystr) (r : DataRow) :
  (match App.rank_of q r with Some _ => true | None => false end)
  = contains q (App._normalize_turkish (lower (row_Kategori r)))
    || contains q (App._normalize_turkish (lower (row_Alt_Kategori r)))
    || contains q (App._normalize_turkish (lower (row_Urun_Grubu r))).
Proof.
  unfold App.rank_of.
  destruct (contains q _ || contains q _ || contains q _); reflexivity.
Qed.

(** X18.  For a query that is empty once folded and stripped the service
    search returns all records as they are; otherwise it returns, in some
    order, exactly the records holding the folded query in their folded
    category, sub-category or product group, each as often as the table
    holds it. *)
Theorem X18_service_search_returns_matches (rows : list DataRow)
        (query : pystr) :
  (strip (App._normalize_turkish (lower query)) = [] ->
   App.search_products rows query = rows)
  /\ (strip (App._normalize_turkish (lower query)) <> [] ->
      Permutation
        (App.search_products rows query)
        (filter
           (fun r =>
              let q := strip (App._normalize_turkish (lower query)) in
              contains q (App._normalize_turkish (lower (row_Kategori r)))
              || contains q
                   (App._normalize_turkish (lower (row_Alt_Kategori r)))
              || contains q
                   (App._normalize_turkish (lower (row_Urun_Grubu r))))
           rows)).
Proof.
  unfold App.search_products.
  set (q := strip (App._normalize_turkish (lower query))).
  split.
  - intros ->. reflexivity.
  - intros Hq. destruct q as [|c q'] eqn:Eq; [congruence|].
    cbn [is_empty]. rewrite <- Eq. clear Hq.
    destruct (ranked_rows q rows) as [Hm _]. cbv zeta in Hm.
    rewrite (filter_ext _ _ (fun r => eq_sym (rank_of_Some q r))).
    rewrite <- Hm. apply Permutation_map. apply sort_by_perm.
Qed.

(** X19.  The records returned for a non-empty query are in ascending
    order of their sort key (priority, path): a record matched in its
    category comes before one matched first in its sub-category, which
    comes before one matched only in its product group, and records of
    one priority are ordered by their lower-cased path. *)
Theorem X19_service_search_sorted (rows : list DataRow) (query : pystr) :
  strip (App._normalize_turkish (lower query)) <> [] ->
  exists ranked,
    App.search_products rows query = map snd ranked
    /\ StronglySorted (fun a b => App.ranked_leb a b = true) ranked
    /\ forall item, In item ranked ->
         App.rank_of (strip (App._normalize_turkish (lower query)))
                     (snd item) = Some (fst item).
Proof.
  unfold App.search_products.
  set (q := strip (App._normalize_turkish (lower query))).
  intros Hq. destruct q as [|c q'] eqn:Eq; [congruence|].
  cbn [is_empty]. rewrite <- Eq. clear Hq.
  eexists. split; [reflexivity|]. split.
  - apply sort_by_sorted; [apply ranked_leb_total | apply ranked_leb_trans].
  - intros item Hin. apply (proj1 (sort_by_In _ _ _)) in Hin.
    exact (proj2 (ranked_rows q rows) item Hin).
Qed.

Lemma X18_service_search_witness :
  strip (App._normalize_turkish (lower (lit " TELEFON "))) <> []
  /\ App.search_products data_sample (lit " TELEFON ")
     = to_dict_records [rec_phones; rec_phone_15; rec_case_10]
  /\ Permutation
       (App.search_products data_sample (lit " TELEFON "))
       (filter
          (fun r =>
             let q := strip (App._normalize_turkish
                               (lower (lit " TELEFON "))) in
             contains q (App._normalize_turkish (lower (row_Kategori r)))
             || contains q
                  (App._normalize_turkish (lower (row_Alt_Kategori r)))
             || contains q
                  (App._normalize_turkish (lower (row_Urun_Grubu r))))
          data_sample).
Proof.
  assert (H : strip (App._normalize_turkish (lower (lit " TELEFON "))) <> [])
    by (vm_compute; discriminate).
  split; [exact H|]. split; [vm_compute; reflexivity|].
  exact (proj2 (X18_service_search_returns_matches data_sample
                  (lit " TELEFON ")) H).
Defined.

Lemma X19_service_search_sorted_witness :
  strip (App._normalize_turkish (lower (lit " TELEFON "))) <> []
  /\ exists ranked,
       App.search_products data_sample (lit " TELEFON ") = map snd ranked
       /\ StronglySorted (fun a b => App.ranked_leb a b = true) ranked
       /\ forall item, In item ranked ->
            App.rank_of (strip (App._normalize_turkish
                                  (lower (lit " TELEFON "))))
                        (snd item) = Some (fst item).
Proof.
  assert (H : strip (App._normalize_turkish (lower (lit " TELEFON "))) <> [])
    by (vm_compute; discriminate).
  split; [exact H|].
  exact (X19_service_search_sorted data_sample (lit " TELEFON ") H).
Defined.

Lemma sorted_set_spec (l : list pystr) :
  StronglySorted (fun a b => str_leb a b = true) (App.sorted_set l)
  /\ NoDup (App.sorted_set l)
  /\ forall x, In x (App.sorted_set l) <-> In x l.
Proof. exact (sorted_unique_spec l). Qed.

Lemma nonempty_filter_In (l : list pystr) (x : pystr) :
  In x (filter (fun x => negb (is_empty x)) l) <-> x <> [] /\ In x l.
Proof.
  rewrite filter_In. split.
  - intros [Hin Hne]. split; [|exact Hin].
    destruct x; [discriminate Hne | discriminate].
  - intros [Hne Hin]. split; [exact Hin|].
    destruct x; [congruence | reflexivity].
Qed.

(** X20.  The three browsing lists are in ascending order without
    repetition and hold exactly the non-empty values of the records
    selected: the categories of all records, the sub-categories of the
    records of a category, the product groups of the records of a
    category and sub-category. *)
Theorem X20_browsing_lists (rows : list DataRow) (category sub : pystr) :
  (StronglySorted (fun a b => str_leb a b = true) (App.list_categories rows)
   /\ NoDup (App.list_categories rows)
   /\ forall x, In x (App.list_categories rows) <->
        x <> [] /\ exists r, In r rows /\ row_Kategori r = x)
  /\ (StronglySorted (fun a b => str_leb a b = true)
                     (App.list_subcategories rows category)
      /\ NoDup (App.list_subcategories rows category)
      /\ forall x, In x (App.list_subcategories rows category) <->
           x <> [] /\ exists r, In r rows /\ row_Kategori r = category
                                /\ row_Alt_Kategori r = x)
  /\ (StronglySorted (fun a b => str_leb a b = true)
                     (App.list_product_groups rows category sub)
      /\ NoDup (App.list_product_groups rows category sub)
      /\ forall x, In x (App.list_product_groups rows category sub) <->
           x <> [] /\ exists r, In r rows /\ row_Kategori r = category
                                /\ row_Alt_Kategori r = sub
                                /\ row_Urun_Grubu r = x).
Proof.
  unfold App.list_categories, App.list_subcategories, App.list_product_groups.
  split; [|split].
  - destruct (sorted_set_spec
                (filter (fun x => negb (is_empty x)) (map row_Kategori rows)))
      as [H1 [H2 H3]].
    split; [exact H1|]. split; [exact H2|].
    intros x. rewrite H3, nonempty_filter_In, in_map_iff.
    split; intros [Hne [r Hr]]; (split; [exact Hne|]); exists r; tauto.
  - destruct (sorted_set_spec
                (filter (fun x => negb (is_empty x))
                   (map row_Alt_Kategori
                      (filter (fun r => str_eqb (row_Kategori r) category)
                              rows))))
      as [H1 [H2 H3]].
    split; [exact H1|]. split; [exact H2|].
    intros x. rewrite H3, nonempty_filter_In, in_map_iff.
    split; intros [Hne [r Hr]]; (split; [exact Hne|]); exists r.
    + destruct Hr as [Ex Hr]. apply filter_In in Hr. destruct Hr as [Hin Hc].
      apply str_eqb_eq in Hc. auto.
    + destruct Hr as [Hin [Hc Ex]]. split; [exact Ex|].
      apply filter_In. split; [exact Hin | apply str_eqb_eq, Hc].
  - destruct (sorted_set_spec
                (filter (fun x => negb (is_empty x))
                   (map row_Urun_Grubu
                      (filter (fun r => str_eqb (row_Kategori r) category
                                        && str_eqb (row_Alt_Kategori r) sub)
                              rows))))
      as [H1 [H2 H3]].
    split; [exact H1|]. split; [exact H2|].
    intros x. rewrite H3, nonempty_filter_In, in_map_iff.
    split; intros [Hne [r Hr]]; (split; [exact Hne|]); exists r.
    + destruct Hr as [Ex Hr]. apply filter_In in Hr. destruct Hr as [Hin Hc].
      apply andb_true_iff in Hc. destruct Hc as [Hc Hs].
      apply str_eqb_eq in Hc, Hs. auto.
    + destruct Hr as [Hin [Hc [Hs Ex]]]. split; [exact Ex|].
      apply filter_In. split; [exact Hin|].
      apply andb_true_iff. split; apply str_eqb_eq; assumption.
Qed.

Lemma listed_group_has_row (rows : list DataRow) (category sub group : pystr) :
  In group (App.list_product_groups rows category sub) ->
  exists r, In r rows /\ row_Kategori r = category
            /\ row_Alt_Kategori r = sub /\ row_Urun_Grubu r = group.
Proof.
  unfold App.list_product_groups. intros H.
  apply (proj1 (proj2 (proj2 (sorted_set_spec _)) group)) in H.
  apply nonempty_filter_In in H. destruct H as [_ H].
  apply in_map_iff in H. destruct H as [r [Ex Hr]].
  apply filter_In in Hr. destruct Hr as [Hin Hc].
  apply andb_true_iff in Hc. destruct Hc as [Hc Hs].
  apply str_eqb_eq in Hc, Hs. exists r. auto.
Qed.

Lemma find_commission_first (rows : list DataRow)
      (category sub group : pystr) :
  (exists pre r post,
     rows = pre ++ r :: post
     /\ row_Kategori r = category /\ row_Alt_Kategori r = sub
     /\ row_Urun_Grubu r = group
     /\ (forall x, In x pre ->
           ~ (row_Kategori x = category /\ row_Alt_Kategori x = sub
              /\ row_Urun_Grubu x = group))
     /\ App.find_commission rows category sub group = row_Komisyon r)
  \/ ((forall x, In x rows ->
         ~ (row_Kategori x = category /\ row_Alt_Kategori x = sub
            /\ row_Urun_Grubu x = group))
      /\ App.find_commission rows category sub group = Blank).
Proof.
  induction rows as [|r rows IH]; [right; split; [intros x [] | reflexivity]|].
  cbn [App.find_commission].
  destruct (str_eqb (row_Kategori r) category
            && str_eqb (row_Alt_Kategori r) sub
            && str_eqb (row_Urun_Grubu r) group) eqn:E.
  - left. exists [], r, rows.
    apply andb_true_iff in E. destruct E as [E Eg].
    apply andb_true_iff in E. destruct E as [Ec Es].
    apply str_eqb_eq in Ec, Es, Eg.
    repeat split; try assumption. intros x [].
  - assert (Hr : ~ (row_Kategori r = category /\ row_Alt_Kategori r = sub
                    /\ row_Urun_Grubu r = group)).
    { intros [H1 [H2 H3]]. rewrite H1, H2, H3, !str_eqb_refl in E.
      discriminate E. }
    destruct IH as [[pre [r' [post [-> [H1 [H2 [H3 [Hpre Hf]]]]]]]]|[Hall Hf]].
    + left. exists (r :: pre), r', post.
      repeat split; try assumption.
      intros x [<-|Hx]; [exact Hr | exact (Hpre x Hx)].
    + right. split; [|exact Hf].
      intros x [<-|Hx]; [exact Hr | exact (Hall x Hx)].
Qed.

(** X21.  [find_commission] returns the commission cell of the first
    record, in table order, whose category, sub-category and product
    group are the ones asked for, and nothing when there is no such
    record; a product group listed by [list_product_groups] under a
    category and sub-category is always found. *)
Theorem X21_find_commission_first_match (rows : list DataRow)
        (category sub group : pystr) :
  ((forall x, In x rows ->
      ~ (row_Kategori x = category /\ row_Alt_Kategori x = sub
         /\ row_Urun_Grubu x = group)) ->
   App.find_commission rows category sub group = Blank)
  /\ (forall pre r post,
        rows = pre ++ r :: post ->
        row_Kategori r = category -> row_Alt_Kategori r = sub ->
        row_Urun_Grubu r = group ->
        (forall x, In x pre ->
           ~ (row_Kategori x = category /\ row_Alt_Kategori x = sub
              /\ row_Urun_Grubu x = group)) ->
        App.find_commission rows category sub group = row_Komisyon r)
  /\ (In group (App.list_product_groups rows category sub) ->
      exists r, In r rows
        /\ row_Kategori r = category /\ row_Alt_Kategori r = sub
        /\ row_Urun_Grubu r = group
        /\ App.find_commission rows category sub group = row_Komisyon r).
Proof.
  split; [|split].
  - intros Hall.
    destruct (find_commission_first rows category sub group)
      as [[pre [r [post [-> [H1 [H2 [H3 _]]]]]]]|[_ Hf]]; [|exact Hf].
    exfalso. apply (Hall r); [apply in_or_app; right; left; reflexivity|].
    auto.
  - intros pre r post -> H1 H2 H3 Hpre.
    induction pre as [|x pre IH]; cbn [app App.find_commission].
    + rewrite H1, H2, H3, !str_eqb_refl. reflexivity.
    + destruct (str_eqb (row_Kategori x) category
                && str_eqb (row_Alt_Kategori x) sub
                && str_eqb (row_Urun_Grubu x) group) eqn:E.
      * exfalso. apply (Hpre x (or_introl eq_refl)).
        apply andb_true_iff in E. destruct E as [E Eg].
        apply andb_true_iff in E. destruct E as [Ec Es].
        apply str_eqb_eq in Ec, Es, Eg. auto.
      * apply IH. intros y Hy. apply Hpre. right; exact Hy.
  - intros Hin.
    destruct (listed_group_has_row rows category sub group Hin)
      as [r [Hr [H1 [H2 H3]]]].
    destruct (find_commission_first rows category sub group)
      as [[pre [r' [post [E [H1' [H2' [H3' [_ Hf]]]]]]]]|[Hall _]].
    + exists r'. split; [rewrite E; apply in_or_app; right; left; reflexivity|].
      auto.
    + exfalso. apply (Hall r Hr). auto.
Qed.

Lemma X21_find_commission_first_match_witness :
  data_duplicates
  = to_dict_records [rec_pan_8] ++
    {| row_Kategori := lit "Elektronik"; row_Alt_Kategori := lit "Telefon";
       row_Urun_Grubu := lit "Akıllı Telefon";
       row_Komisyon := Num (15 # 1)%Q |}
    :: to_dict_records [rec_phone_18]
  /\ App.find_commission data_duplicates (lit "Elektronik") (lit "Telefon")
       (lit "Akıllı Telefon")
     = Num (15 # 1)%Q.
Proof.
  split; [reflexivity|].
  apply (proj1 (proj2 (X21_find_commission_first_match data_duplicates
                         (lit "Elektronik") (lit "Telefon")
                         (lit "Akıllı Telefon")))
               (to_dict_records [rec_pan_8])
               {| row_Kategori := lit "Elektronik";
                  row_Alt_Kategori := lit "Telefon";
                  row_Urun_Grubu := lit "Akıllı Telefon";
                  row_Komisyon := Num (15 # 1)%Q |}
               (to_dict_records [rec_phone_18]));
    try reflexivity.
  intros x [<-|[]] [H _]. vm_compute in H. discriminate H.
Defined.

(** X22.  When the category and the sub-category resolve to one column,
    or one of the two is not resolved, the reconciled records have no
    sub-category, so the sub-category list served for them is empty for
    every category. *)
Theorem X22_flat_category_has_no_subcategories (df : DataFrame)
        (cands : Candidates) (recs : list Flat4) (cat : pystr) :
  _pick_first_present df (category cands)
    = _pick_first_present df (sub_category cands)
  \/ _pick_first_present df (category cands) = None
  \/ _pick_first_present df (sub_category cands) = None ->
  _normalize_to_flat4 df cands = Ok recs ->
  (forall r, In r recs -> Alt_Kategori r = [])
  /\ App.list_subcategories (to_dict_records recs) cat = [].
Proof.
  intros Hpick Hok.
  assert (Hall : forall r, In r recs -> Alt_Kategori r = []).
  { intros r Hr.
    destruct (normalize_ok_rows df cands recs Hok r Hr)
      as [_ [row [_ [_ [[Hs _]|[_ [_ Ha]]]]]]]; [|exact Ha].
    exfalso. destruct Hpick as [E|[E|E]]; rewrite E in Hs.
    - rewrite str_eqb_refl in Hs. cbn [negb] in Hs.
      rewrite andb_false_r in Hs. discriminate Hs.
    - cbn in Hs. discriminate Hs.
    - cbn [or_empty is_empty negb] in Hs.
      rewrite andb_false_r in Hs. discriminate Hs. }
  split; [exact Hall|].
  unfold App.list_subcategories.
  replace (filter (fun x => negb (is_empty x)) _) with (@nil pystr);
    [reflexivity|].
  symmetry. apply filter_nil_iff. intros x Hx.
  apply in_map_iff in Hx. destruct Hx as [d [<- Hd]].
  apply filter_In in Hd. destruct Hd as [Hd _].
  unfold to_dict_records in Hd. apply in_map_iff in Hd.
  destruct Hd as [r [<- Hr]]. cbn [row_Alt_Kategori].
  rewrite (Hall r Hr). reflexivity.
Qed.

Lemma X22_flat_category_witness :
  _pick_first_present df_flat_category (category trendyol)
    = _pick_first_present df_flat_category (sub_category trendyol)
  /\ _normalize_to_flat4 df_flat_category trendyol
     = Ok [mk_row "Elektronik" "" "Telefon" (Some (18 # 1)%Q);
           mk_row "Ev" "" "Tava" (Some (8 # 1)%Q)]
  /\ App.list_subcategories
       (to_dict_records [mk_row "Elektronik" "" "Telefon" (Some (18 # 1)%Q);
                         mk_row "Ev" "" "Tava" (Some (8 # 1)%Q)])
       (lit "Elektronik") = [].
Proof.
  split; [reflexivity|]. split; [reflexivity|].
  exact (proj2 (X22_flat_category_has_no_subcategories df_flat_category
                  trendyol _ (lit "Elektronik")
                  (or_introl eq_refl) eq_refl)).
Defined.

(** *** list_pg_commissions *)

Lemma dict_set_keys {V : Type} (k : pystr) (v : V) (d : list (pystr * V)) :
  map fst (dict_set k v d)
  = if in_strs k (map fst d) then map fst d else map fst d ++ [k].
Proof.
  induction d as [|[k0 v0] d IH]; [reflexivity|].
  cbn [dict_set map fst in_strs existsb].
  destruct (str_eqb k k0) eqn:E; cbn [orb map fst].
  - apply str_eqb_eq in E. subst. reflexivity.
  - rewrite IH. unfold in_strs. destruct (existsb (str_eqb k) (map fst d));
      reflexivity.
Qed.

Lemma dict_set_NoDup {V : Type} (k : pystr) (v : V) (d : list (pystr * V)) :
  NoDup (map fst d) -> NoDup (map fst (dict_set k v d)).
Proof.
  intros H. rewrite dict_set_keys.
  destruct (in_strs k (map fst d)) eqn:E; [exact H|].
  apply NoDup_app; [exact H | repeat constructor; intros [] |].
  intros x Hx [<-|[]]. apply in_strs_In in Hx. congruence.
Qed.

Lemma NoDup_keys_unique {V : Type} (d : list (pystr * V)) (k : pystr)
      (a b : V) :
  NoDup (map fst d) -> In (k, a) d -> In (k, b) d -> a = b.
Proof.
  induction d as [|[k0 v0] d IH]; [intros _ []|].
  cbn [map fst]. intros Hn Ha Hb. inversion Hn as [|? ? Hnot Hn']; subst.
  destruct Ha as [Ea|Ha], Hb as [Eb|Hb].
  - congruence.
  - injection Ea as -> ->. exfalso. apply Hnot.
    apply in_map_iff. exists (k, b). auto.
  - injection Eb as -> ->. exfalso. apply Hnot.
    apply in_map_iff. exists (k, a). auto.
  - exact (IH Hn' Ha Hb).
Qed.

Lemma dict_set_In_other {V : Type} (k k' : pystr) (v v' : V)
      (d : list (pystr * V)) :
  k' <> k -> (In (k', v') (dict_set k v d) <-> In (k', v') d).
Proof.
  intros Hne. induction d as [|[k0 v0] d IH]; cbn [dict_set].
  - split; [intros [E|[]]; congruence | intros []].
  - destruct (str_eqb k k0) eqn:E.
    + apply str_eqb_eq in E. subst k0. split.
      * intros [E'|H]; [congruence | right; exact H].
      * intros [E'|H]; [congruence | right; exact H].
    + split.
      * intros [E'|H]; [left; exact E' | right; apply IH, H].
      * intros [E'|H]; [left; exact E' | right; apply IH, H].
Qed.

Lemma dict_set_In_same {V : Type} (k : pystr) (v : V)
      (d : list (pystr * V)) :
  In (k, v) (dict_set k v d).
Proof. apply dict_get_In, dict_get_set_same. Qed.

Lemma dict_set_same_value {V : Type} (k : pystr) (v v' : V)
      (d : list (pystr * V)) :
  NoDup (map fst d) -> In (k, v') (dict_set k v d) -> v' = v.
Proof.
  intros Hn Hin.
  exact (NoDup_keys_unique _ k v' v (dict_set_NoDup k v d Hn) Hin
           (dict_set_In_same k v d)).
Qed.

Lemma dict_get_None_keys {V : Type} (k : pystr) (d : list (pystr * V)) :
  dict_get k d = None <-> forall v, ~ In (k, v) d.
Proof.
  split; [apply dict_get_None_In|].
  intros H. destruct (dict_get k d) as [v|] eqn:E; [|reflexivity].
  exfalso. exact (H v (dict_get_In _ _ _ E)).
Qed.

Lemma gt_or_zero (a b : num_cell) :
  a <> NaN -> b <> NaN ->
  (App.gt (App.or_zero a) (App.or_zero b) = true <->
   (value_or_zero b < value_or_zero a)%Q).
Proof.
  intros Ha Hb.
  assert (Hz : forall v, v <> NaN ->
            exists x, App.or_zero v = Num x /\ (x == value_or_zero v)%Q).
  { intros [q| |] Hv; [|congruence|].
    - cbn [App.or_zero value_or_zero]. destruct (Qeq_bool q 0) eqn:E.
      + apply Qeq_bool_iff in E. exists 0%Q. split; [reflexivity|].
        symmetry; exact E.
      + exists q. split; [reflexivity | reflexivity].
    - exists 0%Q. split; reflexivity. }
  destruct (Hz a Ha) as [x [-> Hx]]. destruct (Hz b Hb) as [y [-> Hy]].
  cbn [App.gt]. rewrite Qlt_bool_iff. split; intros H; lra.
Qed.

Lemma pg_kept_cases (norm_q pg : pystr) :
  pg_kept norm_q pg =
  if is_empty pg then false
  else if negb (is_empty norm_q)
          && negb (contains norm_q (App._normalize_turkish (lower pg)))
  then false else true.
Proof.
  unfold pg_kept. destruct (is_empty pg); [reflexivity|].
  destruct (is_empty norm_q); [reflexivity|].
  destruct (contains _ _); reflexivity.
Qed.

Lemma pg_step_inv (fmt : num_cell -> pystr) (norm_q : pystr)
      (done : list DataRow) (seen : list (pystr * App.PgItem))
      (r : DataRow) :
  pg_inv fmt norm_q done seen ->
  pg_inv fmt norm_q (done ++ [r]) (App.pg_step fmt norm_q seen r).
Proof.
  intros [HK [HS [HC HM]]].
  assert (Hdone : forall x, In x done -> In x (done ++ [r]))
    by (intros x Hx; apply in_or_app; left; exact Hx).
  assert (Hr : In r (done ++ [r]))
    by (apply in_or_app; right; left; reflexivity).
  assert (HS' : forall k it, In (k, it) seen ->
            App.productGroup it = k /\ pg_kept norm_q k = true
            /\ exists r0, In r0 (done ++ [r]) /\ strip (row_Urun_Grubu r0) = k
                 /\ App.commissionPercent it = row_Komisyon r0
                 /\ App.commissionText it = fmt (row_Komisyon r0)).
  { intros k it Hin. destruct (HS k it Hin) as [H1 [H2 [r0 [H3 H4]]]].
    split; [exact H1|]. split; [exact H2|]. exists r0. split; auto. }
  unfold App.pg_step. set (pg := strip (row_Urun_Grubu r)).
  pose proof (pg_kept_cases norm_q pg) as Hkept.
  destruct (is_empty pg) eqn:Ee;
    [|destruct (negb (is_empty norm_q)
                && negb (contains norm_q
                           (App._normalize_turkish (lower pg)))) eqn:Eq].
  1, 2:
    (split; [exact HK|]; split; [exact HS'|]; split;
     [ intros x Hx Hk; apply in_app_or in Hx; destruct Hx as [Hx|[<-|[]]];
       [exact (HC x Hx Hk) | fold pg in Hk; congruence]
     | intros Hnan k it x Hin Hx Hxk;
       apply in_app_or in Hx; destruct Hx as [Hx|[<-|[]]];
       [ apply (HM (fun y Hy => Hnan y (Hdone y Hy)) k it x Hin Hx Hxk)
       | fold pg in Hxk; destruct (HS k it Hin) as [_ [Hk _]];
         congruence ] ]).
  set (item := {| App.productGroup := pg;
                  App.commissionPercent := row_Komisyon r;
                  App.commissionText := fmt (row_Komisyon r) |}).
  assert (Hupd :
    (forall x, In x done -> strip (row_Urun_Grubu x) = pg ->
       (forall y, In y (done ++ [r]) -> row_Komisyon y <> NaN) ->
       (value_or_zero (row_Komisyon x) <= value_or_zero (row_Komisyon r))%Q) ->
    pg_inv fmt norm_q (done ++ [r]) (dict_set pg item seen)).
  { intros Hlow. split; [apply dict_set_NoDup, HK|]. split; [|split].
    - intros k it Hin. destruct (str_eqb k pg) eqn:Ek.
      + apply str_eqb_eq in Ek. subst k.
        rewrite (dict_set_same_value pg item it seen HK Hin).
        split; [reflexivity|]. split; [exact Hkept|].
        exists r. split; [exact Hr|]. repeat split.
      + apply str_eqb_neq in Ek. apply (dict_set_In_other pg k) in Hin;
          [|exact Ek]. exact (HS' k it Hin).
    - intros x Hx Hk.
      destruct (str_eqb (strip (row_Urun_Grubu x)) pg) eqn:Ek.
      + apply str_eqb_eq in Ek. rewrite Ek. exists item.
        apply dict_set_In_same.
      + apply str_eqb_neq in Ek.
        apply in_app_or in Hx. destruct Hx as [Hx|[<-|[]]];
          [|exfalso; apply Ek; reflexivity].
        destruct (HC x Hx Hk) as [it Hit]. exists it.
        apply (dict_set_In_other pg _); assumption.
    - intros Hnan k it x Hin Hx Hxk. destruct (str_eqb k pg) eqn:Ek.
      + apply str_eqb_eq in Ek. rewrite Ek in Hin, Hxk.
        rewrite (dict_set_same_value pg item it seen HK Hin).
        cbn [App.commissionPercent item].
        apply in_app_or in Hx. destruct Hx as [Hx|[<-|[]]];
          [exact (Hlow x Hx Hxk Hnan) | apply Qle_refl].
      + apply str_eqb_neq in Ek. apply (dict_set_In_other pg k) in Hin;
          [|exact Ek].
        apply in_app_or in Hx. destruct Hx as [Hx|[<-|[]]];
          [|fold pg in Hxk; congruence].
        exact (HM (fun y Hy => Hnan y (Hdone y Hy)) k it x Hin Hx Hxk). }
  destruct (dict_get pg seen) as [current|] eqn:Eg.
  - pose proof (dict_get_In _ _ _ Eg) as Hcur.
    destruct (HS pg current Hcur) as [_ [_ [r0 [Hr0 [_ [Hc0 _]]]]]].
    destruct (App.gt (App.or_zero (row_Komisyon r))
                     (App.or_zero (App.commissionPercent current))) eqn:Egt.
    + apply Hupd. intros x Hx Hxk Hnan.
      pose proof (HM (fun y Hy => Hnan y (Hdone y Hy)) pg current x Hcur Hx Hxk)
        as Hle.
      assert (Hc : App.commissionPercent current <> NaN)
        by (rewrite Hc0; exact (Hnan r0 (Hdone r0 Hr0))).
      apply (proj1 (gt_or_zero _ _ (Hnan r Hr) Hc)) in Egt. lra.
    + split; [exact HK|]. split; [exact HS'|]. split.
      * intros x Hx Hk. apply in_app_or in Hx.
        destruct Hx as [Hx|[<-|[]]]; [exact (HC x Hx Hk)|].
        exists current. exact Hcur.
      * intros Hnan k it x Hin Hx Hxk. apply in_app_or in Hx.
        destruct Hx as [Hx|[<-|[]]].
        -- exact (HM (fun y Hy => Hnan y (Hdone y Hy)) k it x Hin Hx Hxk).
        -- fold pg in Hxk. rewrite <- Hxk in Hin.
           rewrite (NoDup_keys_unique seen pg it current HK Hin Hcur).
           destruct (Qlt_le_dec (value_or_zero (App.commissionPercent current))
                                (value_or_zero (row_Komisyon r)))
             as [Hlt|Hle]; [|exact Hle].
           assert (Hc : App.commissionPercent current <> NaN)
             by (rewrite Hc0; exact (Hnan r0 (Hdone r0 Hr0))).
           apply (proj2 (gt_or_zero _ _ (Hnan r Hr) Hc)) in Hlt.
           congruence.
  - apply Hupd. intros x Hx Hxk _. exfalso.
    assert (Hk : pg_kept norm_q (strip (row_Urun_Grubu x)) = true)
      by (rewrite Hxk; exact Hkept).
    destruct (HC x Hx Hk) as [it Hit]. rewrite Hxk in Hit.
    exact (dict_get_None_In pg seen Eg it Hit).
Qed.

Lemma pg_fold_inv (fmt : num_cell -> pystr) (norm_q : pystr)
      (rows : list DataRow) :
  pg_inv fmt norm_q rows (fold_left (App.pg_step fmt norm_q) rows []).
Proof.
  assert (H : forall done seen,
             pg_inv fmt norm_q done seen ->
             pg_inv fmt norm_q (done ++ rows)
                    (fold_left (App.pg_step fmt norm_q) rows seen)).
  { induction rows as [|r rows IH]; intros done seen Hinv; cbn [fold_left].
    - rewrite app_nil_r. exact Hinv.
    - replace (done ++ r :: rows) with ((done ++ [r]) ++ rows)
        by (rewrite <- app_assoc; reflexivity).
      apply IH, pg_step_inv, Hinv. }
  apply (H [] []). split; [constructor|]. split; [intros k it []|].
  split; [intros r []|]. intros _ k it r [].
Qed.

Lemma pg_items_In (fmt : num_cell -> pystr) (rows : list DataRow)
      (q : pystr) (it : App.PgItem) :
  In it (App.list_pg_commissions fmt rows q) <->
  exists k,
    In (k, it)
       (fold_left
          (App.pg_step fmt (if negb (is_empty q)
                            then App._normalize_turkish (lower q) else []))
          rows []).
Proof.
  unfold App.list_pg_commissions. rewrite sort_by_In, in_map_iff. split.
  - intros [[k it'] [E H]]. cbn [snd] in E. subst it'. exists k. exact H.
  - intros [k H]. exists (k, it). split; [reflexivity | exact H].
Qed.

Lemma pg_kept_query (q pg : pystr) :
  pg_kept (if negb (is_empty q) then App._normalize_turkish (lower q) else [])
          pg = true <->
  pg <> []
  /\ (q = []
      \/ contains (App._normalize_turkish (lower q))
                  (App._normalize_turkish (lower pg)) = true).
Proof.
  unfold pg_kept. rewrite andb_true_iff, negb_true_iff. split.
  - intros [Hp Hq]. split; [destruct pg; [discriminate Hp | discriminate]|].
    destruct q as [|c q]; [left; reflexivity|]. right. cbn [is_empty negb] in Hq.
    apply orb_true_iff in Hq. destruct Hq as [Hq|Hq]; [|exact Hq].
    apply is_empty_true in Hq. rewrite Hq. apply contains_nil.
  - intros [Hp Hq]. split; [destruct pg; [congruence | reflexivity]|].
    destruct Hq as [->|Hq]; [reflexivity|].
    destruct q; [reflexivity|]. cbn [is_empty negb]. rewrite Hq.
    apply orb_true_r.
Qed.

(** X23.  [list_pg_commissions] lists every product group once, in
    ascending order of its lower-cased name.  Each item carries the
    stripped, non-empty product group of a record together with the
    commission of a record of that product group (and its text), and, for
    a non-empty query, holds the folded query in its folded name. *)
Theorem X23_pg_commissions_items (fmt : num_cell -> pystr)
        (rows : list DataRow) (q : pystr) :
  NoDup (map App.productGroup (App.list_pg_commissions fmt rows q))
  /\ StronglySorted
       (fun a b => str_leb (lower (App.productGroup a))
                           (lower (App.productGroup b)) = true)
       (App.list_pg_commissions fmt rows q)
  /\ forall it, In it (App.list_pg_commissions fmt rows q) ->
       App.productGroup it <> []
       /\ (q = []
           \/ contains (App._normalize_turkish (lower q))
                (App._normalize_turkish (lower (App.productGroup it))) = true)
       /\ exists r, In r rows
            /\ strip (row_Urun_Grubu r) = App.productGroup it
            /\ App.commissionPercent it = row_Komisyon r
            /\ App.commissionText it = fmt (row_Komisyon r).
Proof.
  set (nq := if negb (is_empty q) then App._normalize_turkish (lower q)
             else []).
  destruct (pg_fold_inv fmt nq rows) as [HK [HS _]].
  split; [|split].
  - unfold App.list_pg_commissions. fold nq.
    eapply Permutation_NoDup;
      [apply Permutation_map, Permutation_sym, sort_by_perm|].
    rewrite map_map.
    replace (map (fun x => App.productGroup (snd x))
                 (fold_left (App.pg_step fmt nq) rows []))
      with (map fst (fold_left (App.pg_step fmt nq) rows [])); [exact HK|].
    apply map_ext_in. intros [k it] Hin. cbn [fst snd].
    symmetry. exact (proj1 (HS k it Hin)).
  - unfold App.list_pg_commissions.
    apply (sort_by_sorted
             (fun a b => str_leb (lower (App.productGroup a))
                                 (lower (App.productGroup b)))).
    + intros a b. apply str_leb_total.
    + intros a b c. apply str_leb_trans.
  - intros it Hin. apply pg_items_In in Hin. fold nq in Hin.
    destruct Hin as [k Hin].
    destruct (HS k it Hin) as [Hp [Hk Hr]]. subst k.
    apply pg_kept_query in Hk. destruct Hk as [Hne Hq].
    split; [exact Hne|]. split; [exact Hq | exact Hr].
Qed.

(** X24.  No product group is lost: every record whose stripped product
    group is not empty and, for a non-empty query, holds the folded query
    has an item in the list. *)
Theorem X24_pg_commissions_complete (fmt : num_cell -> pystr)
        (rows : list DataRow) (q : pystr) (r : DataRow) :
  In r rows ->
  strip (row_Urun_Grubu r) <> [] ->
  q = []
  \/ contains (App._normalize_turkish (lower q))
       (App._normalize_turkish (lower (strip (row_Urun_Grubu r)))) = true ->
  exists it, In it (App.list_pg_commissions fmt rows q)
             /\ App.productGroup it = strip (row_Urun_Grubu r).
Proof.
  intros Hin Hne Hq.
  set (nq := if negb (is_empty q) then App._normalize_turkish (lower q)
             else []).
  destruct (pg_fold_inv fmt nq rows) as [_ [HS [HC _]]].
  assert (Hk : pg_kept nq (strip (row_Urun_Grubu r)) = true)
    by (apply pg_kept_query; split; assumption).
  destruct (HC r Hin Hk) as [it Hit]. exists it. split.
  - apply pg_items_In. exists (strip (row_Urun_Grubu r)). exact Hit.
  - exact (proj1 (HS _ it Hit)).
Qed.

(** X25.  Duplicates are collapsed to the maximum: when no record has a
    [NaN] commission, the commission of an item, a missing one counting
    as 0, is at least the commission of every record of its product
    group. *)
Theorem X25_pg_commissions_maximum (fmt : num_cell -> pystr)
        (rows : list DataRow) (q : pystr) :
  (forall r, In r rows -> row_Komisyon r <> NaN) ->
  forall it r,
    In it (App.list_pg_commissions fmt rows q) ->
    In r rows ->
    strip (row_Urun_Grubu r) = App.productGroup it ->
    (value_or_zero (row_Komisyon r)
     <= value_or_zero (App.commissionPercent it))%Q.
Proof.
  intros Hnan it r Hit Hr Hpg.
  set (nq := if negb (is_empty q) then App._normalize_turkish (lower q)
             else []).
  destruct (pg_fold_inv fmt nq rows) as [_ [HS [_ HM]]].
  apply pg_items_In in Hit. fold nq in Hit. destruct Hit as [k Hit].
  apply (HM Hnan k it r Hit Hr). rewrite Hpg.
  exact (proj1 (HS k it Hit)).
Qed.

Lemma X23_pg_commissions_items_witness :
  App.list_pg_commissions no_text data_groups (lit "")
  = [ {| App.productGroup := lit "Tava";
         App.commissionPercent := Num (12 # 1)%Q;
         App.commissionText := [] |};
      {| App.productGroup := lit "Çaydanlık";
         App.commissionPercent := Blank; App.commissionText := [] |} ]
  /\ App.productGroup
       {| App.productGroup := lit "Tava";
          App.commissionPercent := Num (12 # 1)%Q;
          App.commissionText := [] |} <> [].
Proof.
  assert (E : App.list_pg_commissions no_text data_groups (lit "")
              = [ {| App.productGroup := lit "Tava";
                     App.commissionPercent := Num (12 # 1)%Q;
                     App.commissionText := [] |};
                  {| App.productGroup := lit "Çaydanlık";
                     App.commissionPercent := Blank;
                     App.commissionText := [] |} ])
    by (vm_compute; reflexivity).
  split; [exact E|].
  apply (proj2 (proj2 (X23_pg_commissions_items no_text data_groups (lit "")))).
  rewrite E. left; reflexivity.
Defined.

Lemma X24_pg_commissions_complete_witness :
  In {| row_Kategori := lit "Ev"; row_Alt_Kategori := lit "";
        row_Urun_Grubu := lit "Tava "; row_Komisyon := Num (8 # 1)%Q |}
     data_groups
  /\ exists it, In it (App.list_pg_commissions no_text data_groups (lit "TAVA"))
                /\ App.productGroup it = lit "Tava".
Proof.
  assert (H : In {| row_Kategori := lit "Ev"; row_Alt_Kategori := lit "";
                    row_Urun_Grubu := lit "Tava ";
                    row_Komisyon := Num (8 # 1)%Q |} data_groups)
    by (left; reflexivity).
  split; [exact H|].
  apply (X24_pg_commissions_complete no_text data_groups (lit "TAVA") _ H).
  - vm_compute. discriminate.
  - right. vm_compute. reflexivity.
Defined.

Lemma X25_pg_commissions_maximum_witness :
  (forall r, In r data_groups -> row_Komisyon r <> NaN)
  /\ (value_or_zero (Num (8 # 1)%Q) <= value_or_zero (Num (12 # 1)%Q))%Q.
Proof.
  assert (Hn : forall r, In r data_groups -> row_Komisyon r <> NaN).
  { intros r Hr. unfold data_groups in Hr.
    repeat (destruct Hr as [<-|Hr]; [discriminate|]). destruct Hr. }
  split; [exact Hn|].
  apply (X25_pg_commissions_maximum no_text data_groups (lit "") Hn
           {| App.productGroup := lit "Tava";
              App.commissionPercent := Num (12 # 1)%Q;
              App.commissionText := [] |}
           {| row_Kategori := lit "Ev"; row_Alt_Kategori := lit "";
              row_Urun_Grubu := lit "Tava ";
              row_Komisyon := Num (8 # 1)%Q |}).
  - apply pg_items_In. exists (lit "Tava"). vm_compute.
    left; reflexivity.
  - left; reflexivity.
  - vm_compute. reflexivity.
Defined.

(** A [NaN] commission met first for a product group is never replaced:
    every comparison with it is false. *)
Example pg_commissions_nan_stays :
  App.list_pg_commissions no_text
    [ {| row_Kategori := lit "Ev"; row_Alt_Kategori := lit "";
         row_Urun_Grubu := lit "Tava"; row_Komisyon := NaN |};
      {| row_Kategori := lit "Ev"; row_Alt_Kategori := lit "";
         row_Urun_Grubu := lit "Tava"; row_Komisyon := Num (12 # 1)%Q |} ]
    (lit "")
  = [ {| App.productGroup := lit "Tava"; App.commissionPercent := NaN;
         App.commissionText := [] |} ].
Proof. vm_compute. reflexivity. Qed.

(** X26.  When the other groups number at most [MAX_OTHER_RESULTS], none
    is lost: every record of the results whose key is not the excluded one
    has its group among the alternatives. *)
Theorem X26_alternatives_cover_other_groups (MAX_OTHER_RESULTS : nat)
        (results : list Flat4) (best r : Flat4) :
  In r results ->
  same_key r best = false ->
  (List.length
     (groupby_max (filter (fun x => negb (same_key x best)) results))
   <= MAX_OTHER_RESULTS)%nat ->
  exists a,
    In a (get_alternative_matches MAX_OTHER_RESULTS results (Some best))
    /\ same_key a r = true.
Proof.
  intros Hin Hb Hlen. unfold get_alternative_matches.
  set (alts := filter (fun x => negb (same_key x best)) results) in *.
  assert (Hr : In r alts).
  { apply filter_In. split; [exact Hin|]. rewrite Hb. reflexivity. }
  destruct results as [|x0 results']; [destruct Hin|]. cbn [df_empty].
  destruct alts as [|a0 alts'] eqn:Ea; [destruct Hr|]. cbn [df_empty].
  rewrite <- Ea in *. clear Ea.
  destruct (group_keys_from_covers alts [] r Hr) as [H|[k [Hk Hs]]];
    [discriminate H|].
  exists {| Kategori := Kategori k; Alt_Kategori := Alt_Kategori k;
            Urun_Grubu := Urun_Grubu k; Komisyon := group_max alts k |}.
  split.
  - rewrite firstn_all2.
    + apply sort_values_desc_In. apply groupby_max_In. exists k. auto.
    + rewrite sort_values_desc_sort_by.
      rewrite (Permutation_length (sort_by_perm _ _)). exact Hlen.
  - apply same_key_iff. apply same_key_iff in Hs. exact Hs.
Qed.

Lemma X26_alternatives_cover_witness :
  In rec_pan_8 [rec_phone_15; rec_case_10; rec_phone_18; rec_pan_8]
  /\ same_key rec_pan_8 rec_phone_18 = false
  /\ exists a,
       In a (get_alternative_matches 5
               [rec_phone_15; rec_case_10; rec_phone_18; rec_pan_8]
               (Some rec_phone_18))
       /\ same_key a rec_pan_8 = true.
Proof.
  assert (H1 : In rec_pan_8
                  [rec_phone_15; rec_case_10; rec_phone_18; rec_pan_8])
    by (right; right; right; left; reflexivity).
  split; [exact H1|]. split; [reflexivity|].
  apply (X26_alternatives_cover_other_groups 5 _ rec_phone_18 rec_pan_8 H1).
  - reflexivity.
  - vm_compute. lia.
Defined.

(** *** _to_camel_from_any *)

Lemma alnum_parts_spec (s : pystr) :
  Forall (fun p => p <> [] /\ forallb is_ascii_alnum p = true)
         (alnum_parts s)
  /\ (starts_alnum s = true -> alnum_parts s <> [])
  /\ ((exists c, In c s /\ is_ascii_alnum c = true) -> alnum_parts s <> []).
Proof.
  induction s as [|c t [IH1 [IH2 IH3]]].
  - split; [constructor|]. split; [discriminate | intros [c [[] _]]].
  - cbn [alnum_parts starts_alnum].
    destruct (is_ascii_alnum c) eqn:Ec.
    + destruct (starts_alnum t) eqn:Et.
      * destruct (alnum_parts t) as [|p ps] eqn:Ep.
        -- exfalso. exact (IH2 eq_refl eq_refl).
        -- inversion IH1 as [|? ? [Hp Hall] Hps]; subst.
           split; [|split; intros; discriminate].
           constructor; [|exact Hps].
           split; [discriminate|]. cbn [forallb]. rewrite Ec. exact Hall.
      * split; [|split; intros; discriminate].
        constructor; [|exact IH1].
        split; [discriminate|]. cbn [forallb]. rewrite Ec. reflexivity.
    + split; [exact IH1|]. split; [discriminate|].
      intros [d [[<-|Hd] Hal]]; [congruence|].
      apply IH3. exists d. auto.
Qed.

Lemma is_ascii_alnum_not_space (c : char) :
  is_ascii_alnum c = true -> is_space c = false.
Proof.
  unfold is_ascii_alnum, is_digit, is_space. intros H. bool_prop;
    repeat (apply orb_false_iff; split);
    try (apply andb_false_iff); try (apply N.eqb_neq; lia);
    try (left; apply N.leb_gt; lia); try (right; apply N.leb_gt; lia).
Qed.

Lemma lower_char_alnum (c : char) :
  is_ascii_alnum c = true ->
  exists d, lower_char c = [d] /\ is_ascii_alnum d = true
            /\ ((0x41 <=? d) && (d <=? 0x5A)) = false.
Proof.
  intros H.
  assert (Hlo : c < 0x180).
  { unfold is_ascii_alnum, is_digit in H. bool_prop; lia. }
  pose (P := fun c : N =>
               if is_ascii_alnum c then
                 match lower_char c with
                 | [d] => is_ascii_alnum d
                          && negb ((0x41 <=? d) && (d <=? 0x5A))
                 | _ => false
                 end
               else true).
  assert (Hp : P c = true)
    by (apply (forall_below P 384); [vm_compute; reflexivity | exact Hlo]).
  unfold P in Hp. rewrite H in Hp.
  destruct (lower_char c) as [|d [|? ?]]; try discriminate Hp.
  exists d. apply andb_true_iff in Hp. destruct Hp as [H1 H2].
  apply negb_true_iff in H2. auto.
Qed.

Lemma lower_alnum (p : pystr) :
  forallb is_ascii_alnum p = true ->
  forallb is_ascii_alnum (lower p) = true
  /\ forallb (fun d => negb ((0x41 <=? d) && (d <=? 0x5A))) (lower p) = true
  /\ List.length (lower p) = List.length p.
Proof.
  unfold lower. induction p as [|c p IH]; [repeat split|].
  cbn [forallb flat_map]. intros H. apply andb_true_iff in H.
  destruct H as [Hc Hp]. destruct (lower_char_alnum c Hc) as [d [-> [Hd Hu]]].
  destruct (IH Hp) as [H1 [H2 H3]]. cbn [app forallb List.length].
  rewrite Hd, Hu, H1, H2, H3. repeat split.
Qed.

Lemma capitalize_alnum (p : pystr) :
  forallb is_ascii_alnum p = true ->
  forallb is_ascii_alnum (capitalize p) = true.
Proof.
  destruct p as [|c t]; [reflexivity|]. cbn [forallb capitalize].
  intros H. apply andb_true_iff in H. destruct H as [Hc Ht].
  rewrite (proj1 (lower_alnum t Ht)), andb_true_r.
  unfold ascii_upper_char.
  destruct ((0x61 <=? c) && (c <=? 0x7A)) eqn:E; [|exact Hc].
  unfold is_ascii_alnum. apply andb_true_iff in E. destruct E as [E1 E2].
  apply N.leb_le in E1, E2.
  apply orb_true_iff. left. apply orb_true_iff. right.
  apply andb_true_iff. split; apply N.leb_le; lia.
Qed.

Lemma alnum_parts_none (s : pystr) :
  (forall c, In c s -> is_ascii_alnum c = false) -> alnum_parts s = [].
Proof.
  induction s as [|c t IH]; [reflexivity|]. intros H. cbn [alnum_parts].
  rewrite (H c (or_introl eq_refl)). apply IH. intros d Hd.
  apply H. right. exact Hd.
Qed.

Lemma capitalized_parts_alnum (ps : list pystr) :
  Forall (fun p => p <> [] /\ forallb is_ascii_alnum p = true) ps ->
  forallb is_ascii_alnum (List.concat (map capitalize ps)) = true.
Proof.
  induction 1 as [|p ps [_ Hp] _ IH]; [reflexivity|].
  cbn [map List.concat]. rewrite forallb_app, (capitalize_alnum p Hp), IH.
  reflexivity.
Qed.

(** X27.  [_to_camel_from_any] turns a key that holds an ASCII letter or
    digit (once the Turkish letters are replaced) into a non-empty text of
    ASCII letters and digits only whose first character is not a capital
    letter; a key that holds none is returned with its Turkish letters
    replaced and nothing else changed (not even stripped). *)
Theorem X27_to_camel_is_alphanumeric (s : pystr) :
  ((exists c, In c (_ascii_tr s) /\ is_ascii_alnum c = true) ->
   forallb is_ascii_alnum (_to_camel_from_any s) = true
   /\ exists d t, _to_camel_from_any s = d :: t
                  /\ ((0x41 <=? d) && (d <=? 0x5A)) = false)
  /\ ((forall c, In c (_ascii_tr s) -> is_ascii_alnum c = false) ->
      _to_camel_from_any s = _ascii_tr s).
Proof.
  unfold _to_camel_from_any. cbv zeta.
  destruct (alnum_parts_spec (strip (_ascii_tr s))) as [Hall [_ Hne]].
  split.
  - intros [c [Hc Hal]].
    assert (Hex : exists c, In c (strip (_ascii_tr s))
                            /\ is_ascii_alnum c = true).
    { exists c. split; [|exact Hal].
      apply rstrip_keeps; [apply lstrip_keeps|]; try assumption;
        apply is_ascii_alnum_not_space, Hal. }
    specialize (Hne Hex).
    destruct (alnum_parts (strip (_ascii_tr s))) as [|first rest];
      [congruence|].
    inversion Hall as [|? ? [Hf1 Hf2] Hrest]; subst.
    destruct (lower_alnum first Hf2) as [L1 [L2 L3]].
    split.
    + rewrite forallb_app, L1, (capitalized_parts_alnum rest Hrest).
      reflexivity.
    + destruct (lower first) as [|d l] eqn:El;
        [destruct first; [congruence | discriminate L3]|].
      exists d, (l ++ List.concat (map capitalize rest)). split; [reflexivity|].
      cbn [forallb] in L2.
      apply andb_true_iff in L2. destruct L2 as [L2 _].
      apply negb_true_iff in L2. exact L2.
  - intros Hnone.
    rewrite alnum_parts_none; [reflexivity|].
    intros c Hc. apply Hnone. exact (strip_incl _ _ Hc).
Qed.

Lemma X27_to_camel_witness :
  _to_camel_from_any (lit "Ürün Grubu") = lit "urunGrubu"
  /\ _to_camel_from_any (lit " % ") = lit " % "
  /\ forallb is_ascii_alnum (_to_camel_from_any (lit "Ürün Grubu")) = true.
Proof.
  split; [vm_compute; reflexivity|]. split; [vm_compute; reflexivity|].
  assert (H : exists c, In c (_ascii_tr (lit "Ürün Grubu"))
                        /\ is_ascii_alnum c = true).
  { exists 0x55. split; [vm_compute; left; reflexivity | reflexivity]. }
  exact (proj1 (proj1 (X27_to_camel_is_alphanumeric (lit "Ürün Grubu")) H)).
Defined.
